(** * Coupon system: a shallow embedding of the claim coordinator

    The development follows the Go packages of the repository:

    - [models]      internal/models: rows and request/response structs
    - [sqldb]       the two relations of the schema (coupons, claims) with
                    their UNIQUE and FOREIGN KEY constraints, and the SQL
                    statements the repository issues against them
    - [repository]  internal/repository/coupon_repository.go
    - [service]     internal/service/coupon_service.go, and the mock of the
                    repository its tests use
    - [rest]        the handlers of internal/handlers/rest
    - [concurrent]  claim transactions of several requests interleaved
                    under the row lock of SELECT ... FOR UPDATE

    Conventions.  Go's [int]/[int64] and the INTEGER columns are [Z]: the
    only arithmetic in the program is [remaining_amount - 1].  Timestamps
    are [Z]; the value of CURRENT_TIMESTAMP / NOW() for a call is supplied
    by the environment, as is every failure that does not follow from the
    contents of the two relations (lost connection, lock timeout, a value
    the column type refuses).  The SERIAL surrogate keys [id] are left out:
    no statement filters, orders or returns by them ([GetCouponByName]
    scans [coupon.ID] and drops it from the response).

    Definitions come first, in the order of the packages, followed by the
    vocabulary of the statements; lemmas and the theorems of the claims
    follow. *)

From Stdlib Require Import ZArith List String Bool Lia Permutation Sorted.
From Stdlib Require Import DecimalString DecimalNat.
Import ListNotations.
Local Open Scope string_scope.
Local Open Scope list_scope.
Local Open Scope Z_scope.

(** ** internal/models *)

Module models.

(** A row of [coupons] (struct [Coupon]). *)
Record Coupon : Type := mkCoupon {
  Name : string;
  Amount : Z;
  RemainingAmount : Z;
  CreatedAt : Z;
  UpdatedAt : Z
}.

(** A row of [claims] (struct [Claim]). *)
Record Claim : Type := mkClaim {
  UserID : string;
  CouponName : string;
  ClaimedAt : Z
}.

Record CreateCouponRequest : Type := mkCreateCouponRequest {
  reqName : string;
  reqAmount : Z
}.

Record ClaimCouponRequest : Type := mkClaimCouponRequest {
  reqUserID : string;
  reqCouponName : string
}.

Record CouponDetailResponse : Type := mkCouponDetailResponse {
  respName : string;
  respAmount : Z;
  respRemainingAmount : Z;
  respClaimedBy : list string
}.

End models.
Import models.

(** ** The store and its SQL statements *)

Module sqldb.

(** The committed contents of the two relations, rows in insertion order. *)
Record Store : Type := mkStore {
  coupons : list Coupon;
  claims : list Claim
}.

Definition empty : Store := mkStore [] [].

(** Errors a database call hands back to Go: [sql.ErrNoRows], a [*pq.Error]
    with its SQLSTATE code, or any other driver error. *)
Inductive DriverError : Type :=
| ErrNoRows
| PqError (code : string)
| ErrBadConn.

(** The call sites of database/sql in the repository, one per line of the
    source that can return an error. *)
Inductive Site : Type :=
| CreateExec
| ClaimBegin | ClaimQueryRow | ClaimInsertExec | ClaimUpdateExec | ClaimCommit
| GetQueryRow | GetQuery | GetScan | GetRowsErr
| UpdateExec | UpdateRowsAffected.

(** What a call receives from outside the program: the value of
    CURRENT_TIMESTAMP / NOW() (in PostgreSQL the start time of the call's
    transaction, the same for all its statements) and, per call site,
    whether the call fails there for a reason of the infrastructure. *)
Record Env : Type := mkEnv {
  now : Z;
  fails : Site -> bool
}.

Definition healthy (t : Z) : Env := mkEnv t (fun _ => false).

Definition named (name : string) (c : Coupon) : bool :=
  String.eqb (Name c) name.

Definition claimed_for (couponName : string) (k : Claim) : bool :=
  String.eqb (CouponName k) couponName.

Definition claim_of (userID couponName : string) (k : Claim) : bool :=
  String.eqb (UserID k) userID && String.eqb (CouponName k) couponName.

(** [INSERT INTO coupons (name, amount, remaining_amount) VALUES ($1, $2, $2)]
    under [name VARCHAR(255) UNIQUE]; both timestamps take their default. *)
Definition insert_coupon (env : Env) (name : string) (amount : Z) (s : Store)
  : DriverError + Store :=
  if existsb (named name) (coupons s) then inl (PqError "23505")
  else inr (mkStore (coupons s ++ [mkCoupon name amount amount (now env) (now env)])
                    (claims s)).

(** [SELECT remaining_amount FROM coupons WHERE name = $1 FOR UPDATE] *)
Definition select_remaining_amount (name : string) (s : Store) : list Z :=
  map RemainingAmount (filter (named name) (coupons s)).

(** [INSERT INTO claims (user_id, coupon_name) VALUES ($1, $2)] under
    [UNIQUE(user_id, coupon_name)] (checked when the row enters the index)
    and [FOREIGN KEY (coupon_name) REFERENCES coupons(name)] (checked at the
    end of the statement). *)
Definition insert_claim (env : Env) (userID couponName : string) (s : Store)
  : DriverError + Store :=
  if existsb (claim_of userID couponName) (claims s) then inl (PqError "23505")
  else if negb (existsb (named couponName) (coupons s)) then inl (PqError "23503")
  else inr (mkStore (coupons s)
                    (claims s ++ [mkClaim userID couponName (now env)])).

Definition count_rows {A : Type} (p : A -> bool) (rows : list A) : Z :=
  Z.of_nat (List.length (filter p rows)).

(** [UPDATE coupons SET remaining_amount = remaining_amount - 1,
     updated_at = CURRENT_TIMESTAMP WHERE name = $1] *)
Definition take_one (env : Env) (name : string) (c : Coupon) : Coupon :=
  if named name c
  then mkCoupon (Name c) (Amount c) (RemainingAmount c - 1) (CreatedAt c) (now env)
  else c.

Definition update_remaining_amount (env : Env) (name : string) (s : Store)
  : Store * Z :=
  (mkStore (map (take_one env name) (coupons s)) (claims s),
   count_rows (named name) (coupons s)).

(** [UPDATE coupons SET updated_at = NOW() WHERE name = $1] *)
Definition touch (env : Env) (name : string) (c : Coupon) : Coupon :=
  if named name c
  then mkCoupon (Name c) (Amount c) (RemainingAmount c) (CreatedAt c) (now env)
  else c.

Definition update_updated_at (env : Env) (name : string) (s : Store)
  : Store * Z :=
  (mkStore (map (touch env name) (coupons s)) (claims s),
   count_rows (named name) (coupons s)).

(** [SELECT id, name, amount, remaining_amount, created_at, updated_at
     FROM coupons WHERE name = $1] *)
Definition select_coupon (name : string) (s : Store) : list Coupon :=
  filter (named name) (coupons s).

(** ORDER BY claimed_at ASC, as a stable insertion sort: rows of equal
    [claimed_at], whose order PostgreSQL leaves open, keep their stored
    order. *)
Fixpoint insert_by_claimed_at (k : Claim) (rows : list Claim) : list Claim :=
  match rows with
  | [] => [k]
  | h :: t => if ClaimedAt k <=? ClaimedAt h then k :: rows
              else h :: insert_by_claimed_at k t
  end.

Definition order_by_claimed_at (rows : list Claim) : list Claim :=
  fold_right insert_by_claimed_at [] rows.

(** [SELECT user_id FROM claims WHERE coupon_name = $1 ORDER BY claimed_at ASC] *)
Definition select_claimants (couponName : string) (s : Store) : list string :=
  map UserID (order_by_claimed_at (filter (claimed_for couponName) (claims s))).

(** [QueryRow(...).Scan(...)]: the first row, or [sql.ErrNoRows]. *)
Definition first_row {A : Type} (rows : list A) : DriverError + A :=
  match rows with
  | [] => inl ErrNoRows
  | r :: _ => inr r
  end.

End sqldb.
Import sqldb.

(** ** internal/repository *)

Module repository.

(** Go [error] values the program produces: the four sentinels of the
    repository, [fmt.Errorf("<prefix>: %v", err)] wrappers, a driver error
    returned as it is, and [errors.New(msg)] of the service. *)
Inductive error : Type :=
| ErrCouponNotFound
| ErrCouponAlreadyExists
| ErrAlreadyClaimed
| ErrNoStockAvailable
| Errorf (prefix : string) (cause : DriverError)
| Driver (cause : DriverError)
| New (msg : string).

(** [pqErr, ok := err.( *pq.Error); ok && pqErr.Code == "23505"] *)
Definition is_unique_violation (err : DriverError) : bool :=
  match err with
  | PqError code => String.eqb code "23505"
  | _ => false
  end.

(** A database call at [site]: the infrastructure may fail before the
    statement takes effect. *)
Definition call {A : Type} (env : Env) (site : Site) (stmt : DriverError + A)
  : DriverError + A :=
  if fails env site then inl ErrBadConn else stmt.

(** The interface [CouponRepository], over the state [S] an implementation
    keeps (the store for [couponRepository], recorded calls for a mock). *)
Record CouponRepository (S : Type) : Type := mkCouponRepository {
  repoCreateCoupon : string -> Z -> Env -> S -> option error * S;
  repoClaimCoupon : string -> string -> Env -> S -> option error * S;
  repoGetCouponByName : string -> Env -> S -> (error + CouponDetailResponse) * S;
  repoUpdate : string -> Env -> S -> (Z * option error) * S
}.
Arguments repoCreateCoupon {S}.
Arguments repoClaimCoupon {S}.
Arguments repoGetCouponByName {S}.
Arguments repoUpdate {S}.

(** [func (r *couponRepository) CreateCoupon(name string, amount int) error] *)
Definition CreateCoupon (name : string) (amount : Z) (env : Env) (db : Store)
  : option error * Store :=
  match call env CreateExec (insert_coupon env name amount db) with
  | inl err =>
      if is_unique_violation err then (Some ErrCouponAlreadyExists, db)
      else (Some (Errorf "error creating coupon" err), db)
  | inr db' => (None, db')
  end.

(** A [*sql.Tx]: the committed store, the transaction's working copy and
    whether the transaction is still open. *)
Record Tx : Type := mkTx {
  committed : Store;
  work : Store;
  active : bool
}.

(** [r.db.Begin()] *)
Definition Begin (env : Env) (db : Store) : DriverError + Tx :=
  call env ClaimBegin (inr (mkTx db db true)).

(** [tx.Commit()]: it finishes the transaction either way; when it fails,
    nothing of the working copy is committed. *)
Definition Commit (env : Env) (tx : Tx) : option DriverError * Tx :=
  match call env ClaimCommit (inr tt) with
  | inl err => (Some err, mkTx (committed tx) (committed tx) false)
  | inr _ => (None, mkTx (work tx) (work tx) false)
  end.

(** [tx.Rollback()]: drops the working copy of an open transaction; on a
    finished one it only returns [sql.ErrTxDone], which the [defer] ignores. *)
Definition Rollback (tx : Tx) : Tx :=
  if active tx then mkTx (committed tx) (committed tx) false else tx.

(** A statement executed inside the transaction acts on the working copy. *)
Definition in_tx (tx : Tx) (work' : Store) : Tx :=
  mkTx (committed tx) work' (active tx).

(** [ClaimCoupon] from the stock check to the last [return], with the
    [remainingAmount] the locked read has scanned: the error returned and
    the transaction as these steps leave it. *)
Definition claim_checked (userID couponName : string) (env : Env) (tx : Tx)
           (remainingAmount : Z) : option error * Tx :=
  if remainingAmount <=? 0 then (Some ErrNoStockAvailable, tx)
  else
    match call env ClaimInsertExec
            (insert_claim env userID couponName (work tx)) with
    | inl err =>
        if is_unique_violation err then (Some ErrAlreadyClaimed, tx)
        else (Some (Errorf "error creating claim" err), tx)
    | inr work1 =>
      let tx1 := in_tx tx work1 in
      match call env ClaimUpdateExec
              (inr (update_remaining_amount env couponName (work tx1))) with
      | inl err => (Some (Errorf "error updating coupon stock" err), tx1)
      | inr (work2, _) =>
        let tx2 := in_tx tx1 work2 in
        match Commit env tx2 with
        | (Some err, tx3) => (Some (Errorf "error committing transaction" err), tx3)
        | (None, tx3) => (None, tx3)
        end
      end
    end.

(** The locked read of [ClaimCoupon]: the row's [remaining_amount], or the
    error the function returns. *)
Definition claim_locked_read (couponName : string) (env : Env) (tx : Tx)
  : error + Z :=
  match call env ClaimQueryRow
          (first_row (select_remaining_amount couponName (work tx))) with
  | inl ErrNoRows => inl ErrCouponNotFound
  | inl err => inl (Errorf "error checking coupon" err)
  | inr remainingAmount => inr remainingAmount
  end.

(** The body of [ClaimCoupon] after [defer tx.Rollback()]. *)
Definition claim_steps (userID couponName : string) (env : Env) (tx : Tx)
  : option error * Tx :=
  match claim_locked_read couponName env tx with
  | inl err => (Some err, tx)
  | inr remainingAmount =>
    (* time.Sleep(2 * time.Second): no effect on the store *)
    claim_checked userID couponName env tx remainingAmount
  end.

(** [func (r *couponRepository) ClaimCoupon(userID, couponName string) error] *)
Definition ClaimCoupon (userID couponName : string) (env : Env) (db : Store)
  : option error * Store :=
  match Begin env db with
  | inl err => (Some (Errorf "error starting transaction" err), db)
  | inr tx =>
    let (err, tx') := claim_steps userID couponName env tx in
    (err, committed (Rollback tx'))
  end.

(** The [for rows.Next()] loop of [GetCouponByName]. *)
Fixpoint scan_rows (env : Env) (rows : list string) (claimedBy : list string)
  : error + list string :=
  match rows with
  | [] => inr claimedBy
  | userID :: rest =>
    match call env GetScan (inr userID) with
    | inl err => inl (Errorf "error scanning claim" err)
    | inr userID => scan_rows env rest (claimedBy ++ [userID])
    end
  end.

(** [func (r *couponRepository) GetCouponByName(name string)
     ( *models.CouponDetailResponse, error)]: two SELECTs outside any
    transaction, no statement that writes. *)
Definition GetCouponByName (name : string) (env : Env) (db : Store)
  : error + CouponDetailResponse :=
  match call env GetQueryRow (first_row (select_coupon name db)) with
  | inl ErrNoRows => inl ErrCouponNotFound
  | inl err => inl (Errorf "error getting coupon" err)
  | inr coupon =>
    match call env GetQuery (inr (select_claimants name db)) with
    | inl err => inl (Errorf "error getting claims" err)
    | inr rows =>
      match scan_rows env rows [] with
      | inl err => inl err
      | inr claimedBy =>
        match call env GetRowsErr (inr tt) with
        | inl err => inl (Errorf "error iterating claims" err)
        | inr _ =>
          inr (mkCouponDetailResponse (Name coupon) (Amount coupon)
                 (RemainingAmount coupon) claimedBy)
        end
      end
    end
  end.

(** [func (r *couponRepository) Update(name string)
     (rowsAffected int64, err error)]: the statement is committed on its
    own, before [result.RowsAffected()] is asked. *)
Definition Update (name : string) (env : Env) (db : Store)
  : (Z * option error) * Store :=
  match call env UpdateExec (inr (update_updated_at env name db)) with
  | inl err => ((0, Some (Driver err)), db)
  | inr (db', affected) =>
    match call env UpdateRowsAffected (inr affected) with
    | inl err => ((0, Some (Driver err)), db')
    | inr rowsAffected => ((rowsAffected, None), db')
    end
  end.

(** [NewCouponRepository(db)]: the implementation over the store. *)
Definition couponRepository : CouponRepository Store :=
  mkCouponRepository Store
    CreateCoupon
    ClaimCoupon
    (fun name env db => (GetCouponByName name env db, db))
    Update.

End repository.
Import repository.

(** ** internal/service *)

Module service.

Section WithRepository.

Context {S : Type} (repo : CouponRepository S).

(** [func (s *couponService) CreateCoupon(req *models.CreateCouponRequest) error] *)
Definition CreateCoupon (req : CreateCouponRequest) (env : Env) (s : S)
  : option error * S :=
  if String.eqb (reqName req) "" then (Some (New "coupon name is required"), s)
  else if reqAmount req <=? 0
       then (Some (New "coupon amount must be greater than 0"), s)
       else repoCreateCoupon repo (reqName req) (reqAmount req) env s.

(** [func (s *couponService) ClaimCoupon(req *models.ClaimCouponRequest) error] *)
Definition ClaimCoupon (req : ClaimCouponRequest) (env : Env) (s : S)
  : option error * S :=
  if String.eqb (reqUserID req) "" then (Some (New "user_id is required"), s)
  else if String.eqb (reqCouponName req) ""
       then (Some (New "coupon_name is required"), s)
       else repoClaimCoupon repo (reqUserID req) (reqCouponName req) env s.

(** [func (s *couponService) GetCouponDetails(name string)
     ( *models.CouponDetailResponse, error)] *)
Definition GetCouponDetails (name : string) (env : Env) (s : S)
  : (error + CouponDetailResponse) * S :=
  if String.eqb name "" then (inl (New "coupon name is required"), s)
  else repoGetCouponByName repo name env s.

(** [func (s *couponService) UpdateCoupon(name string)
     (rowsAffected int64, err error)] *)
Definition UpdateCoupon (name : string) (env : Env) (s : S)
  : (Z * option error) * S :=
  if String.eqb name "" then ((0, Some (New "coupon name is required")), s)
  else repoUpdate repo name env s.

End WithRepository.

(** [MockCouponRepository] of coupon_service_test.go: every method records
    its call ([m.Called(...)]) and returns what the test has programmed. *)
Inductive MockCall : Type :=
| CalledCreateCoupon (name : string) (amount : Z)
| CalledClaimCoupon (userID couponName : string)
| CalledGetCouponByName (name : string)
| CalledUpdate (name : string).

Record MockReturns : Type := mkMockReturns {
  onCreateCoupon : option error;
  onClaimCoupon : option error;
  onGetCouponByName : error + CouponDetailResponse;
  onUpdate : Z * option error
}.

Definition MockCouponRepository (ret : MockReturns)
  : CouponRepository (list MockCall) :=
  mkCouponRepository (list MockCall)
    (fun name amount _ calls =>
       (onCreateCoupon ret, calls ++ [CalledCreateCoupon name amount]))
    (fun userID couponName _ calls =>
       (onClaimCoupon ret, calls ++ [CalledClaimCoupon userID couponName]))
    (fun name _ calls =>
       (onGetCouponByName ret, calls ++ [CalledGetCouponByName name]))
    (fun name _ calls => (onUpdate ret, calls ++ [CalledUpdate name])).

End service.

(** ** internal/handlers/rest *)

(** A decoded request, by the route [SetupRouter] registers for it. *)
Inductive Request : Type :=
| PostCoupon (req : CreateCouponRequest)      (* POST /coupons *)
| PostClaim (req : ClaimCouponRequest)        (* POST /coupons/claim *)
| GetCoupon (name : string)                   (* GET /coupons/{name} *)
| PutCoupon (name : string).                  (* PUT, PATCH /coupons/{name} *)

Module rest.

(** What a handler writes: the status code and, on success of a read or a
    touch, the payload. *)
Record Response : Type := mkResponse {
  status : Z;
  details : option CouponDetailResponse;
  rows_affected : option Z
}.

Definition respond (code : Z) : Response := mkResponse code None None.

Section WithService.

Context {S : Type} (repo : CouponRepository S).

(** [func (h *CouponHandler) CreateCoupon(w, r)] *)
Definition CreateCoupon (req : CreateCouponRequest) (env : Env) (s : S)
  : Response * S :=
  let (err, s') := service.CreateCoupon repo req env s in
  (match err with
   | Some ErrCouponAlreadyExists => respond 409
   | Some _ => respond 400
   | None => respond 201
   end, s').

(** [func (h *CouponHandler) ClaimCoupon(w, r)] *)
Definition ClaimCoupon (req : ClaimCouponRequest) (env : Env) (s : S)
  : Response * S :=
  let (err, s') := service.ClaimCoupon repo req env s in
  (match err with
   | Some ErrAlreadyClaimed => respond 409
   | Some ErrNoStockAvailable => respond 400
   | Some ErrCouponNotFound => respond 404
   | Some _ => respond 400
   | None => respond 200
   end, s').

(** [func (h *CouponHandler) GetCouponDetails(w, r)] *)
Definition GetCouponDetails (name : string) (env : Env) (s : S)
  : Response * S :=
  let (res, s') := service.GetCouponDetails repo name env s in
  (match res with
   | inl ErrCouponNotFound => respond 404
   | inl _ => respond 500
   | inr view => mkResponse 200 (Some view) None
   end, s').

(** [func (h *CouponHandler) UpdateCoupon(w, r)] *)
Definition UpdateCoupon (name : string) (env : Env) (s : S)
  : Response * S :=
  let (res, s') := service.UpdateCoupon repo name env s in
  (match res with
   | (_, Some ErrCouponNotFound) => respond 404
   | (_, Some _) => respond 500
   | (rowsAffected, None) => mkResponse 200 None (Some rowsAffected)
   end, s').

(** [SetupRouter]: one handler per route. *)
Definition handle (r : Request) (env : Env) (s : S) : Response * S :=
  match r with
  | PostCoupon req => CreateCoupon req env s
  | PostClaim req => ClaimCoupon req env s
  | GetCoupon name => GetCouponDetails name env s
  | PutCoupon name => UpdateCoupon name env s
  end.

End WithService.

End rest.

(** ** Requests served one after the other *)

(** The store a request leaves behind, in the deployed wiring
    ([NewCouponHandler (NewCouponService (NewCouponRepository db))]). *)
Definition serve (r : Request) (env : Env) (db : Store) : Store :=
  snd (rest.handle couponRepository r env db).

(** States the store can be in after any sequence of requests, each served
    to its end before the next, from the empty schema. *)
Inductive reachable : Store -> Prop :=
| reach_empty : reachable empty
| reach_serve (db : Store) (r : Request) (env : Env) :
    reachable db -> reachable (serve r env db).

(** The same, for a clock that never runs backwards: [reachable_at t db]
    when the last request was stamped [t]. *)
Inductive reachable_at : Z -> Store -> Prop :=
| reach_at_empty (t : Z) : reachable_at t empty
| reach_at_serve (t : Z) (db : Store) (r : Request) (env : Env) :
    reachable_at t db -> t <= now env -> reachable_at (now env) (serve r env db).

(** A served sequence of requests, each with the environment it meets. *)
Definition Trace : Type := list (Env * Request).

Fixpoint run (trace : Trace) (db : Store) : Store :=
  match trace with
  | [] => db
  | (env, r) :: rest => run rest (serve r env db)
  end.

(** Whether request [r], served in [db], is a claim of [couponName] by
    [userID] that is answered 200. *)
Definition claim_succeeds (userID couponName : string) (r : Request) (env : Env)
           (db : Store) : bool :=
  match r with
  | PostClaim req =>
      String.eqb (reqUserID req) userID &&
      String.eqb (reqCouponName req) couponName &&
      (rest.status (fst (rest.handle couponRepository r env db)) =? 200)
  | _ => false
  end.

(** The number of such successes along a trace served from [db]. *)
Fixpoint successes (userID couponName : string) (trace : Trace) (db : Store)
  : nat :=
  match trace with
  | [] => O
  | (env, r) :: rest =>
      ((if claim_succeeds userID couponName r env db then 1 else 0) +
       successes userID couponName rest (serve r env db))%nat
  end.

(** The status codes the requests of a trace are answered with. *)
Fixpoint answers (trace : Trace) (db : Store) : list Z :=
  match trace with
  | [] => []
  | (env, r) :: rest =>
      rest.status (fst (rest.handle couponRepository r env db)) ::
      answers rest (serve r env db)
  end.

(** ** Claim transactions interleaved under the row lock *)

Module concurrent.

(** An open claim transaction, with the environment it began in (its
    timestamp is that of the BEGIN): before its SELECT ... FOR UPDATE has
    returned ([seen = None]: it may be waiting for the row lock), or after
    ([seen = Some remainingAmount]: it holds the row lock of its offer). *)
Record Session : Type := mkSession {
  claimant : string;
  offer : string;
  environment : Env;
  seen : option Z
}.

Record System : Type := mkSystem {
  store : Store;
  sessions : list Session
}.

Definition holds_lock (x : Session) : bool :=
  match seen x with Some _ => true | None => false end.

(** The offers whose row is locked. *)
Definition locks (xs : list Session) : list string :=
  map offer (filter holds_lock xs).

Definition locked_on (remainingAmount : Z) (x : Session) : Session :=
  mkSession (claimant x) (offer x) (environment x) (Some remainingAmount).

(** The rest of [ClaimCoupon] for a session that has read [remainingAmount],
    run against the store as committed by then (READ COMMITTED). *)
Definition finish (x : Session) (remainingAmount : Z) (db : Store)
  : option error * Store :=
  let (err, tx) :=
    claim_checked (claimant x) (offer x) (environment x) (mkTx db db true)
                  remainingAmount in
  (err, committed (Rollback tx)).

(** What a step returns to a caller of [ClaimCoupon], when it ends a call. *)
Inductive Label : Type :=
| quiet
| returned (userID couponName : string) (err : option error).

(** One step of the system.  Requests other than claims are single
    statements; the UPDATE of a touch waits for the row lock like any
    writer.  A claim begins, later gets the lock and its read (or an
    error), later runs its remaining statements and commits or rolls
    back; steps of other sessions may come in between. *)
Inductive step : System -> Label -> System -> Prop :=
| step_serve (r : Request) (env : Env) (db : Store) (xs : list Session) :
    (forall req, r <> PostClaim req) ->
    (forall name, r = PutCoupon name -> ~ In name (locks xs)) ->
    step (mkSystem db xs) quiet (mkSystem (serve r env db) xs)
| step_begin (userID couponName : string) (env : Env) (db : Store)
             (xs : list Session) :
    fails env ClaimBegin = false ->
    step (mkSystem db xs) quiet
         (mkSystem db (xs ++ [mkSession userID couponName env None]))
| step_begin_error (userID couponName : string) (env : Env) (db : Store)
                   (xs : list Session) :
    fails env ClaimBegin = true ->
    step (mkSystem db xs)
         (returned userID couponName
            (Some (Errorf "error starting transaction" ErrBadConn)))
         (mkSystem db xs)
| step_lock (x : Session) (remainingAmount : Z) (db : Store)
            (xs ys : list Session) :
    seen x = None -> ~ In (offer x) (locks (xs ++ ys)) ->
    claim_locked_read (offer x) (environment x) (mkTx db db true) =
      inr remainingAmount ->
    step (mkSystem db (xs ++ x :: ys)) quiet
         (mkSystem db (xs ++ locked_on remainingAmount x :: ys))
| step_read_error (x : Session) (err : error) (db : Store)
                  (xs ys : list Session) :
    seen x = None ->
    claim_locked_read (offer x) (environment x) (mkTx db db true) = inl err ->
    step (mkSystem db (xs ++ x :: ys))
         (returned (claimant x) (offer x) (Some err))
         (mkSystem db (xs ++ ys))
| step_finish (x : Session) (remainingAmount : Z) (db : Store)
              (xs ys : list Session) :
    seen x = Some remainingAmount ->
    step (mkSystem db (xs ++ x :: ys))
         (returned (claimant x) (offer x) (fst (finish x remainingAmount db)))
         (mkSystem (snd (finish x remainingAmount db)) (xs ++ ys)).

(** A run of the system, with what its steps returned. *)
Inductive runs : System -> list Label -> System -> Prop :=
| runs_done (a : System) : runs a [] a
| runs_step (a b c : System) (l : Label) (ls : list Label) :
    step a l b -> runs b ls c -> runs a (l :: ls) c.

Inductive reachable : System -> Prop :=
| reach_start : reachable (mkSystem empty [])
| reach_step (a b : System) (l : Label) : reachable a -> step a l b -> reachable b.

(** How many calls of [ClaimCoupon userID couponName] returned nil. *)
Fixpoint granted (userID couponName : string) (ls : list Label) : nat :=
  match ls with
  | [] => O
  | returned u n None :: rest =>
      ((if String.eqb u userID && String.eqb n couponName then 1 else 0) +
       granted userID couponName rest)%nat
  | _ :: rest => granted userID couponName rest
  end.

End concurrent.

(** ** Vocabulary of the statements *)

Definition claim_key (k : Claim) : string * string := (UserID k, CouponName k).

Definition find_coupon (name : string) (db : Store) : option Coupon :=
  find (named name) (coupons db).

Definition has_claimed (userID couponName : string) (db : Store) : bool :=
  existsb (claim_of userID couponName) (claims db).

(** The claimants of an offer in the order of the ledger. *)
Definition claimants_of (couponName : string) (db : Store) : list string :=
  map UserID (filter (claimed_for couponName) (claims db)).

Definition earlier (a b : Claim) : Prop := ClaimedAt a <= ClaimedAt b.

(** The schema's constraints and the accounting between the two relations. *)
Record consistent (db : Store) : Prop := mkConsistent {
  unique_names : NoDup (map Name (coupons db));
  unique_claims : NoDup (map claim_key (claims db));
  claims_reference :
    forall k, In k (claims db) -> existsb (named (CouponName k)) (coupons db) = true;
  stock_bounds :
    forall c, In c (coupons db) -> 0 <= RemainingAmount c <= Amount c;
  stock_accounts :
    forall c, In c (coupons db) ->
      count_rows (claimed_for (Name c)) (claims db) = Amount c - RemainingAmount c
}.

(** The claim ledger is in the order of its timestamps, none later than [t]. *)
Definition chronological (t : Z) (db : Store) : Prop :=
  Sorted earlier (claims db) /\ Forall (fun k => ClaimedAt k <= t) (claims db).

(** The stores a successful create, claim and touch leave. *)
Definition created (name : string) (amount : Z) (env : Env) (db : Store) : Store :=
  mkStore (coupons db ++ [mkCoupon name amount amount (now env) (now env)])
          (claims db).

Definition claimed (userID couponName : string) (env : Env) (db : Store) : Store :=
  mkStore (map (take_one env couponName) (coupons db))
          (claims db ++ [mkClaim userID couponName (now env)]).

Definition touched (name : string) (env : Env) (db : Store) : Store :=
  mkStore (map (touch env name) (coupons db)) (claims db).

(** How many of the answers carry status [code]. *)
Definition count_of (code : Z) (codes : list Z) : nat :=
  List.length (filter (Z.eqb code) codes).

(** The errors of the spec's failure taxonomy for a claim: [NotFound],
    [OutOfStock], [AlreadyClaimed], and a wrapped infrastructure error for
    [TransactionFailure]. *)
Definition claim_failure (e : error) : Prop :=
  match e with
  | ErrCouponNotFound | ErrNoStockAvailable | ErrAlreadyClaimed | Errorf _ _ => True
  | _ => False
  end.

(** Every way [ClaimCoupon userID couponName env db] can end. *)
Inductive claim_outcome (env : Env) (db : Store) (userID couponName : string)
  : option error * Store -> Prop :=
| claim_begin_failed :
    fails env ClaimBegin = true ->
    claim_outcome env db userID couponName
      (Some (Errorf "error starting transaction" ErrBadConn), db)
| claim_read_failed :
    fails env ClaimBegin = false -> fails env ClaimQueryRow = true ->
    claim_outcome env db userID couponName
      (Some (Errorf "error checking coupon" ErrBadConn), db)
| claim_not_found :
    fails env ClaimBegin = false -> fails env ClaimQueryRow = false ->
    find_coupon couponName db = None ->
    claim_outcome env db userID couponName (Some ErrCouponNotFound, db)
| claim_no_stock (c : Coupon) :
    fails env ClaimBegin = false -> fails env ClaimQueryRow = false ->
    find_coupon couponName db = Some c -> RemainingAmount c <= 0 ->
    claim_outcome env db userID couponName (Some ErrNoStockAvailable, db)
| claim_insert_failed (c : Coupon) :
    fails env ClaimBegin = false -> fails env ClaimQueryRow = false ->
    find_coupon couponName db = Some c -> 0 < RemainingAmount c ->
    fails env ClaimInsertExec = true ->
    claim_outcome env db userID couponName
      (Some (Errorf "error creating claim" ErrBadConn), db)
| claim_already_claimed (c : Coupon) :
    fails env ClaimBegin = false -> fails env ClaimQueryRow = false ->
    find_coupon couponName db = Some c -> 0 < RemainingAmount c ->
    fails env ClaimInsertExec = false ->
    has_claimed userID couponName db = true ->
    claim_outcome env db userID couponName (Some ErrAlreadyClaimed, db)
| claim_update_failed (c : Coupon) :
    fails env ClaimBegin = false -> fails env ClaimQueryRow = false ->
    find_coupon couponName db = Some c -> 0 < RemainingAmount c ->
    fails env ClaimInsertExec = false ->
    has_claimed userID couponName db = false ->
    fails env ClaimUpdateExec = true ->
    claim_outcome env db userID couponName
      (Some (Errorf "error updating coupon stock" ErrBadConn), db)
| claim_commit_failed (c : Coupon) :
    fails env ClaimBegin = false -> fails env ClaimQueryRow = false ->
    find_coupon couponName db = Some c -> 0 < RemainingAmount c ->
    fails env ClaimInsertExec = false ->
    has_claimed userID couponName db = false ->
    fails env ClaimUpdateExec = false -> fails env ClaimCommit = true ->
    claim_outcome env db userID couponName
      (Some (Errorf "error committing transaction" ErrBadConn), db)
| claim_committed (c : Coupon) :
    fails env ClaimBegin = false -> fails env ClaimQueryRow = false ->
    find_coupon couponName db = Some c -> 0 < RemainingAmount c ->
    fails env ClaimInsertExec = false ->
    has_claimed userID couponName db = false ->
    fails env ClaimUpdateExec = false -> fails env ClaimCommit = false ->
    claim_outcome env db userID couponName
      (None, claimed userID couponName env db).

(** What a request can do to the store. *)
Inductive effect (db : Store) (env : Env) : Request -> Store -> Prop :=
| effect_none (r : Request) : effect db env r db
| effect_created (req : CreateCouponRequest) :
    reqName req <> "" -> 0 < reqAmount req ->
    find_coupon (reqName req) db = None ->
    effect db env (PostCoupon req) (created (reqName req) (reqAmount req) env db)
| effect_claimed (req : ClaimCouponRequest) (c : Coupon) :
    find_coupon (reqCouponName req) db = Some c -> 0 < RemainingAmount c ->
    has_claimed (reqUserID req) (reqCouponName req) db = false ->
    effect db env (PostClaim req)
           (claimed (reqUserID req) (reqCouponName req) env db)
| effect_touched (name : string) :
    effect db env (PutCoupon name) (touched name env db).

(** What the interleaved system keeps true: the store is consistent, no
    row is locked twice, and a session that holds the lock of an offer has
    seen the remaining amount the offer still has. *)
Record coherent (sys : concurrent.System) : Prop := mkCoherent {
  store_consistent : consistent (concurrent.store sys);
  locks_exclusive : NoDup (concurrent.locks (concurrent.sessions sys));
  reads_current :
    forall x r, In x (concurrent.sessions sys) -> concurrent.seen x = Some r ->
      exists c, find_coupon (concurrent.offer x) (concurrent.store sys) = Some c /\
                RemainingAmount c = r
}.

(** ** Sample stores and environments *)

Module scenario.

(** One offer of a single unit. *)
Definition last_unit : Store :=
  serve (PostCoupon (mkCreateCouponRequest "FLASH25" 1)) (healthy 1) empty.

(** The same offer after "user_1" has taken the unit. *)
Definition sold_out : Store :=
  serve (PostClaim (mkClaimCouponRequest "user_1" "FLASH25")) (healthy 2) last_unit.

(** An offer of a hundred units, one of them claimed by "user_1". *)
Definition double_dip : Store :=
  serve (PostClaim (mkClaimCouponRequest "user_1" "PROMO")) (healthy 2)
    (serve (PostCoupon (mkCreateCouponRequest "PROMO" 100)) (healthy 1) empty).

(** An environment in which only the stock update of a claim fails. *)
Definition update_fails (t : Z) : Env :=
  mkEnv t (fun site => match site with ClaimUpdateExec => true | _ => false end).

(** A mock of the repository whose every method reports success. *)
Definition agreeable : service.MockReturns :=
  service.mkMockReturns None None
    (inr (mkCouponDetailResponse "FLASH25" 1 1 [])) (1, None).

(** Two sessions after the last unit of "FLASH25": "user_1" begins first,
    "user_2" is the first to get the row lock. *)
Definition early_bird : concurrent.Session :=
  concurrent.mkSession "user_1" "FLASH25" (healthy 2) None.

Definition quick_one : concurrent.Session :=
  concurrent.mkSession "user_2" "FLASH25" (healthy 3) None.

Definition taken_by_quick_one : Store :=
  snd (concurrent.finish quick_one 1 last_unit).

(** An offer of two units and two sessions after it: [slow] begins first,
    [fast] is first to get the row lock. *)
Definition two_units : Store :=
  serve (PostCoupon (mkCreateCouponRequest "DUO" 2)) (healthy 1) empty.

Definition slow : concurrent.Session :=
  concurrent.mkSession "user_1" "DUO" (healthy 2) None.

Definition fast : concurrent.Session :=
  concurrent.mkSession "user_2" "DUO" (healthy 3) None.

Definition fast_first : Store := snd (concurrent.finish fast 2 two_units).

Definition overtaken : Store := snd (concurrent.finish slow 1 fast_first).

(** "user_1", "user_2", ... *)
Definition user (i : nat) : string :=
  "user_" ++ NilEmpty.string_of_uint (Nat.to_uint i).

(** One claim per user, a tick apart, the first at [t]. *)
Definition claims_by (users : list string) (couponName : string) (t : Z) : Trace :=
  map (fun '(i, userID) =>
         (healthy (t + Z.of_nat i),
          PostClaim (mkClaimCouponRequest userID couponName)))
      (combine (seq 0 (List.length users)) users).

(** Scenario A of the spec, served in turn: an offer of 5, then 50 claims
    by 50 claimants. *)
Definition flash_sale : Trace :=
  (healthy 1, PostCoupon (mkCreateCouponRequest "FLASH" 5)) ::
  claims_by (map user (seq 1 50)) "FLASH" 2.

(** Scenario B of the spec, served in turn: an offer of 100, then 10 claims
    by one claimant. *)
Definition ten_tries : Trace :=
  (healthy 1, PostCoupon (mkCreateCouponRequest "PROMO" 100)) ::
  claims_by (repeat "user_1" 10) "PROMO" 2.

End scenario.

(** ** What the answers can depend on *)

(** An offer without its two timestamps. *)
Definition untimed (c : Coupon) : Coupon :=
  mkCoupon (Name c) (Amount c) (RemainingAmount c) 0 0.

(** Two stores that differ at most in [created_at] and [updated_at] of
    their offers. *)
Definition alike (db1 db2 : Store) : Prop :=
  map untimed (coupons db1) = map untimed (coupons db2) /\
  claims db1 = claims db2.

(** The checks of the service, by request. *)
Definition valid (r : Request) : bool :=
  match r with
  | PostCoupon req => negb (String.eqb (reqName req) "") && (0 <? reqAmount req)
  | PostClaim req =>
      negb (String.eqb (reqUserID req) "") &&
      negb (String.eqb (reqCouponName req) "")
  | GetCoupon name => negb (String.eqb name "")
  | PutCoupon name => negb (String.eqb name "")
  end.

(** The method of the repository a request is for, with its arguments. *)
Definition call_of (r : Request) : service.MockCall :=
  match r with
  | PostCoupon req => service.CalledCreateCoupon (reqName req) (reqAmount req)
  | PostClaim req =>
      service.CalledClaimCoupon (reqUserID req) (reqCouponName req)
  | GetCoupon name => service.CalledGetCouponByName name
  | PutCoupon name => service.CalledUpdate name
  end.

(** ** Calls of [ClaimCoupon] along an interleaved run *)

(** The calls for [couponName] that returned, in the order they returned:
    who called, and the error returned. *)
Fixpoint calls_for (couponName : string) (ls : list concurrent.Label)
  : list (string * option error) :=
  match ls with
  | [] => []
  | concurrent.returned userID n err :: rest =>
      if String.eqb n couponName then (userID, err) :: calls_for couponName rest
      else calls_for couponName rest
  | concurrent.quiet :: rest => calls_for couponName rest
  end.

Definition won (call : string * option error) : bool :=
  match snd call with
  | None => true
  | Some _ => false
  end.

(** The errors the repository wraps with [fmt.Errorf]: those of the
    driver that are not mapped to one of the sentinels. *)
Definition wrapped (err : option error) : bool :=
  match err with
  | Some (Errorf _ _) => true
  | _ => false
  end.

(** The status the claim handler answers with when the repository behind
    its service returns [err] from [ClaimCoupon]. *)
Definition answered (userID couponName : string) (err : option error) : Z :=
  rest.status
    (fst (rest.ClaimCoupon
            (service.MockCouponRepository
               (service.mkMockReturns None err (inl ErrCouponNotFound) (0, None)))
            (mkClaimCouponRequest userID couponName) (healthy 0) [])).

(** Claims of [couponName] made one at a time, each call returning before
    the next begins, as steps of the interleaved system: what the steps
    return and the store they leave. *)
Fixpoint in_turn (couponName : string) (callers : list (Z * string)) (db : Store)
  : list concurrent.Label * Store :=
  match callers with
  | [] => ([], db)
  | (t, userID) :: rest =>
      let (err, db') := ClaimCoupon userID couponName (healthy t) db in
      let (ls, db'') := in_turn couponName rest db' in
      (concurrent.quiet :: concurrent.quiet ::
       concurrent.returned userID couponName err :: ls, db'')
  end.

(** ** scripts/run_scenarios.go *)

Module run_scenarios.

Definition flashSaleCoupon : string := "FLASH_SALE_TEST".
Definition doubleDipCoupon : string := "DOUBLE_DIP_TEST".
Definition flashSaleStock : Z := 5.
Definition concurrentFlash : Z := 50.
Definition concurrentDoubleDip : Z := 10.

(** What a scenario receives from the server: the status of its create,
    the statuses of its claims (0 for a request that could not be sent) and
    the answer to its final read, if one came. *)
Record Observed : Type := mkObserved {
  createStatus : option Z;
  claimStatuses : list Z;
  finalRead : option rest.Response
}.

(** [createCoupon]: an error unless the answer is 201. *)
Definition createCoupon (answer : option Z) : bool :=
  match answer with
  | Some statusCode => statusCode =? 201
  | None => false
  end.

(** [getCouponDetails]: the decoded body of a 200. *)
Definition getCouponDetails (answer : option rest.Response)
  : option CouponDetailResponse :=
  match answer with
  | Some resp => if rest.status resp =? 200 then rest.details resp else None
  | None => None
  end.

(** [if statusCode == 200 || statusCode == 201 { successCount++ }
     else { failureCount++ }] over all the claims. *)
Definition succeeded (statusCode : Z) : bool :=
  (statusCode =? 200) || (statusCode =? 201).

Definition successCount (statusCodes : list Z) : Z :=
  count_rows succeeded statusCodes.

Definition failureCount (statusCodes : list Z) : Z :=
  count_rows (fun statusCode => negb (succeeded statusCode)) statusCodes.

(** [fmt.Sprintf("user_%d", userNum)] *)
Definition userID (userNum : nat) : string :=
  "user_" ++ NilEmpty.string_of_uint (Nat.to_uint userNum).

Definition sameUserID : string := "same_user_123".

(** [runFlashSaleScenario]: the [Success] of its result. *)
Definition runFlashSaleScenario (o : Observed) : bool :=
  if negb (createCoupon (createStatus o)) then false
  else
    match getCouponDetails (finalRead o) with
    | None => false
    | Some details =>
        (successCount (claimStatuses o) =? flashSaleStock) &&
        (failureCount (claimStatuses o) =? concurrentFlash - flashSaleStock) &&
        (respRemainingAmount details =? 0) &&
        (Z.of_nat (List.length (respClaimedBy details)) =? flashSaleStock)
    end.

(** [runDoubleDipScenario]: the [Success] of its result. *)
Definition runDoubleDipScenario (o : Observed) : bool :=
  if negb (createCoupon (createStatus o)) then false
  else
    match getCouponDetails (finalRead o) with
    | None => false
    | Some details =>
        let userAppearances :=
          count_rows (fun claimedUserID => String.eqb claimedUserID sameUserID)
                     (respClaimedBy details) in
        (successCount (claimStatuses o) =? 1) &&
        (failureCount (claimStatuses o) =? concurrentDoubleDip - 1) &&
        (userAppearances =? 1) &&
        (respRemainingAmount details =? 99)
    end.

End run_scenarios.

(** The claims of the two scenarios made one at a time on a server that
    has only their offer, a tick apart. *)
Definition flash_sale_offer : Store :=
  serve (PostCoupon (mkCreateCouponRequest run_scenarios.flashSaleCoupon
                       run_scenarios.flashSaleStock))
        (healthy 1) empty.

Definition flash_sale_in_turn : list concurrent.Label * Store :=
  in_turn run_scenarios.flashSaleCoupon
    (map (fun userNum => (Z.of_nat (2 + userNum), run_scenarios.userID userNum))
         (seq 0 (Z.to_nat run_scenarios.concurrentFlash)))
    flash_sale_offer.

Definition double_dip_offer : Store :=
  serve (PostCoupon (mkCreateCouponRequest run_scenarios.doubleDipCoupon 100))
        (healthy 1) empty.

Definition double_dip_in_turn : list concurrent.Label * Store :=
  in_turn run_scenarios.doubleDipCoupon
    (map (fun requestNum => (Z.of_nat (2 + requestNum), run_scenarios.sameUserID))
         (seq 0 (Z.to_nat run_scenarios.concurrentDoubleDip)))
    double_dip_offer.

(** ** pkg/logger *)

Module logger.

(** [zapcore.Level] *)
Definition DebugLevel : Z := -1.
Definition InfoLevel : Z := 0.
Definition WarnLevel : Z := 1.
Definition ErrorLevel : Z := 2.
Definition DPanicLevel : Z := 3.
Definition PanicLevel : Z := 4.
Definition FatalLevel : Z := 5.

(** A text the program logs or sends: a literal of the source,
    [err.Error()] of one of its errors, or the message of the error the
    JSON decoder has returned for a request body. *)
Inductive Text : Type :=
| Literal (s : string)
| ErrorOf (err : error)
| DecodeError.

(** A [zap.Field] with a string value. *)
Definition Field : Type := (string * string)%type.

(** What the cores of [InitWithFile] write for a call (the same line to
    the console and to the file; timestamp, caller and stack trace are left
    out). *)
Record Entry : Type := mkEntry {
  level : Z;
  msg : Text;
  context : list Field
}.

(** A [*zap.Logger] over the core of [InitWithFile], with the fields
    [With] has given it. *)
Record Logger : Type := mkLogger {
  fields : list Field
}.

(** [zap.New(core, ...)] *)
Definition New : Logger := mkLogger [].

(** [log.With(fields...)] *)
Definition With (log : Logger) (fs : list Field) : Logger :=
  mkLogger (fields log ++ fs).

(** How a call ends: it returns, panics, or ends the process
    ([os.Exit(1)]). *)
Inductive Control : Type :=
| Returns
| Panics
| Exits.

(** Both cores are created at [zapcore.InfoLevel]. *)
Definition enabled (lvl : Z) : bool := InfoLevel <=? lvl.

Definition write (log : Logger) (lvl : Z) (text : Text) (fs : list Field)
           (out : list Entry) : list Entry :=
  if enabled lvl then out ++ [mkEntry lvl text (fields log ++ fs)] else out.

(** [log.Debug], [log.Info], [log.Warn], [log.Error], [log.Panic],
    [log.Fatal] of zap. *)
Definition Debug (log : Logger) (text : Text) (fs : list Field)
           (out : list Entry) : Control * list Entry :=
  (Returns, write log DebugLevel text fs out).

Definition Info (log : Logger) (text : Text) (fs : list Field)
           (out : list Entry) : Control * list Entry :=
  (Returns, write log InfoLevel text fs out).

Definition Warn (log : Logger) (text : Text) (fs : list Field)
           (out : list Entry) : Control * list Entry :=
  (Returns, write log WarnLevel text fs out).

Definition Error (log : Logger) (text : Text) (fs : list Field)
           (out : list Entry) : Control * list Entry :=
  (Returns, write log ErrorLevel text fs out).

Definition Panic (log : Logger) (text : Text) (fs : list Field)
           (out : list Entry) : Control * list Entry :=
  (Panics, write log PanicLevel text fs out).

Definition Fatal (log : Logger) (text : Text) (fs : list Field)
           (out : list Entry) : Control * list Entry :=
  (Exits, write log FatalLevel text fs out).

(** The [switch level] of [Print], the same in both of its branches. *)
Definition dispatch (log : Logger) (lvl : Z) (text : Text) (fs : list Field)
           (out : list Entry) : Control * list Entry :=
  if lvl =? DebugLevel then Debug log text fs out
  else if lvl =? InfoLevel then Info log text fs out
  else if lvl =? WarnLevel then Warn log text fs out
  else if lvl =? ErrorLevel then Error log text fs out
  else if lvl =? FatalLevel then Fatal log text fs out
  else if lvl =? PanicLevel then Panic log text fs out
  else Info log text fs out.

(** [func Print(ctx context.Context, level zapcore.Level, msg string,
     fields ...zap.Field)]: [ctx] is the logger stored in the context under
    [LoggerContext{}], if any; [Log] the global logger, initialised. *)
Definition Print (Log : Logger) (ctx : option Logger) (lvl : Z) (text : Text)
           (fs : list Field) (out : list Entry) : Control * list Entry :=
  match ctx with
  | Some log => dispatch log lvl text fs out
  | None => dispatch Log lvl text fs out
  end.

End logger.

(** ** pkg/rest *)

Module pkgRest.

(** The values the handlers marshal: objects (a map with string keys, its
    members in the order of the sorted keys, or a struct, its members in
    the order of its fields) whose values are strings, integers and lists
    of strings.  [json.Marshal] returns no error for any of them. *)
Inductive Value : Type :=
| JString (text : logger.Text)
| JNumber (n : Z)
| JStrings (l : list string).

Definition JSON : Type := list (string * Value).

(** An [http.ResponseWriter]: its header map, and the status code and body
    once written. *)
Record ResponseWriter : Type := mkResponseWriter {
  header : list (string * string);
  code : option Z;
  body : option JSON
}.


(** [w.Header().Set(key, value)] (header names are case-insensitive; they
    are kept as the source writes them). *)
Definition HeaderSet (key value : string) (w : ResponseWriter)
  : ResponseWriter :=
  mkResponseWriter
    ((key, value) :: filter (fun kv => negb (String.eqb (fst kv) key)) (header w))
    (code w) (body w).

(** [w.Header().Get(key)] *)
Definition HeaderGet (key : string) (w : ResponseWriter) : option string :=
  option_map snd (find (fun kv => String.eqb (fst kv) key) (header w)).

(** [func RespondWithJSON(w http.ResponseWriter, code int, payload interface{})] *)
Definition RespondWithJSON (w : ResponseWriter) (statusCode : Z) (payload : JSON)
  : ResponseWriter :=
  let w1 := HeaderSet "Content-Type" "application/json" w in
  mkResponseWriter (header w1) (Some statusCode) (Some payload).

(** [func RespondWithError(w http.ResponseWriter, code int, message string)] *)
Definition RespondWithError (w : ResponseWriter) (statusCode : Z)
           (message : logger.Text) : ResponseWriter :=
  RespondWithJSON w statusCode [("error", JString message)].

End pkgRest.

(** ** internal/handlers/rest, with what the handlers log and write *)

Module handlers.

(** The body of a POST: decoded into the request struct, or rejected by
    [json.NewDecoder(r.Body).Decode(&req)]. *)
Inductive Body (A : Type) : Type :=
| Decoded (a : A)
| Malformed.
Arguments Decoded {A}.
Arguments Malformed {A}.

(** A request as the router hands it to a handler. *)
Inductive Incoming : Type :=
| PostCoupons (body : Body CreateCouponRequest)
| PostCouponsClaim (body : Body ClaimCouponRequest)
| GetCoupons (name : string)
| PutCoupons (name : string)
| GetHealth.

(** What serving has produced: how the handler ended, the response, the
    log, and the state of the repository. *)
Record Served (S : Type) : Type := mkServed {
  control : logger.Control;
  writer : pkgRest.ResponseWriter;
  log : list logger.Entry;
  state : S
}.
Arguments mkServed {S}.
Arguments control {S}.
Arguments writer {S}.
Arguments log {S}.
Arguments state {S}.

Definition message (text : string) : pkgRest.JSON :=
  [("message", pkgRest.JString (logger.Literal text))].

Section WithService.

Context {S : Type} (repo : CouponRepository S) (Log : logger.Logger).

(** [logger.Print(r.Context(), logger.LevelError, logged);
     pkgRest.RespondWithError(w, code, sent); return] *)
Definition reject (ctx : option logger.Logger) (w : pkgRest.ResponseWriter)
           (statusCode : Z) (logged sent : logger.Text)
           (out : list logger.Entry) (s : S) : Served S :=
  match logger.Print Log ctx logger.ErrorLevel logged [] out with
  | (logger.Returns, out') =>
      mkServed logger.Returns (pkgRest.RespondWithError w statusCode sent) out' s
  | (stopped, out') => mkServed stopped w out' s
  end.

(** [func (h *CouponHandler) CreateCoupon(w, r)] *)
Definition CreateCoupon (ctx : option logger.Logger) (w : pkgRest.ResponseWriter)
           (body : Body CreateCouponRequest) (env : Env)
           (out : list logger.Entry) (s : S) : Served S :=
  match body with
  | Malformed =>
      reject ctx w 400 logger.DecodeError (logger.Literal "Invalid request body")
             out s
  | Decoded req =>
      match service.CreateCoupon repo req env s with
      | (Some ErrCouponAlreadyExists, s') =>
          reject ctx w 409 (logger.Literal "Coupon already exists")
                 (logger.Literal "Coupon already exists") out s'
      | (Some err, s') =>
          reject ctx w 400 (logger.ErrorOf err) (logger.ErrorOf err) out s'
      | (None, s') =>
          mkServed logger.Returns
            (pkgRest.RespondWithJSON w 201 (message "Coupon created successfully"))
            out s'
      end
  end.

(** [func (h *CouponHandler) ClaimCoupon(w, r)] *)
Definition ClaimCoupon (ctx : option logger.Logger) (w : pkgRest.ResponseWriter)
           (body : Body ClaimCouponRequest) (env : Env)
           (out : list logger.Entry) (s : S) : Served S :=
  match body with
  | Malformed =>
      reject ctx w 400 logger.DecodeError (logger.Literal "Invalid request body")
             out s
  | Decoded req =>
      match service.ClaimCoupon repo req env s with
      | (Some ErrAlreadyClaimed, s') =>
          reject ctx w 409 (logger.Literal "User already claimed this coupon")
                 (logger.Literal "User already claimed this coupon") out s'
      | (Some ErrNoStockAvailable, s') =>
          reject ctx w 400 (logger.Literal "No stock available for this coupon")
                 (logger.Literal "No stock available") out s'
      | (Some ErrCouponNotFound, s') =>
          reject ctx w 404 (logger.Literal "Coupon not found")
                 (logger.Literal "Coupon not found") out s'
      | (Some err, s') =>
          reject ctx w 400 (logger.ErrorOf err) (logger.ErrorOf err) out s'
      | (None, s') =>
          mkServed logger.Returns
            (pkgRest.RespondWithJSON w 200 (message "Coupon claimed successfully"))
            out s'
      end
  end.

(** [json.Marshal] of a [*models.CouponDetailResponse]. *)
Definition details (d : CouponDetailResponse) : pkgRest.JSON :=
  [("name", pkgRest.JString (logger.Literal (respName d)));
   ("amount", pkgRest.JNumber (respAmount d));
   ("remaining_amount", pkgRest.JNumber (respRemainingAmount d));
   ("claimed_by", pkgRest.JStrings (respClaimedBy d))].

(** [func (h *CouponHandler) GetCouponDetails(w, r)] *)
Definition GetCouponDetails (ctx : option logger.Logger)
           (w : pkgRest.ResponseWriter) (name : string) (env : Env)
           (out : list logger.Entry) (s : S) : Served S :=
  match service.GetCouponDetails repo name env s with
  | (inl ErrCouponNotFound, s') =>
      reject ctx w 404 (logger.Literal "Coupon not found")
             (logger.Literal "Coupon not found") out s'
  | (inl err, s') =>
      reject ctx w 500 (logger.ErrorOf err) (logger.ErrorOf err) out s'
  | (inr d, s') =>
      mkServed logger.Returns (pkgRest.RespondWithJSON w 200 (details d)) out s'
  end.

(** [func (h *CouponHandler) UpdateCoupon(w, r)] *)
Definition UpdateCoupon (ctx : option logger.Logger) (w : pkgRest.ResponseWriter)
           (name : string) (env : Env) (out : list logger.Entry) (s : S)
  : Served S :=
  match service.UpdateCoupon repo name env s with
  | ((_, Some ErrCouponNotFound), s') =>
      reject ctx w 404 (logger.Literal "Coupon not found")
             (logger.Literal "Coupon not found") out s'
  | ((_, Some err), s') =>
      reject ctx w 500 (logger.ErrorOf err) (logger.ErrorOf err) out s'
  | ((rowsAffected, None), s') =>
      mkServed logger.Returns
        (pkgRest.RespondWithJSON w 200
           [("message",
             pkgRest.JString (logger.Literal "Coupon updated successfully"));
            ("rows_affected", pkgRest.JNumber rowsAffected)])
        out s'
  end.

(** [func (h *BaseHandler) healthCheck(w, r)] *)
Definition healthCheck (w : pkgRest.ResponseWriter) (out : list logger.Entry)
           (s : S) : Served S :=
  mkServed logger.Returns
    (pkgRest.RespondWithJSON w 200
       [("status", pkgRest.JString (logger.Literal "healthy"))])
    out s.

(** The two [SetupRouter]: one handler per route. *)
Definition ServeHTTP (i : Incoming) (env : Env) (ctx : option logger.Logger)
           (w : pkgRest.ResponseWriter) (out : list logger.Entry) (s : S)
  : Served S :=
  match i with
  | PostCoupons body => CreateCoupon ctx w body env out s
  | PostCouponsClaim body => ClaimCoupon ctx w body env out s
  | GetCoupons name => GetCouponDetails ctx w name env out s
  | PutCoupons name => UpdateCoupon ctx w name env out s
  | GetHealth => healthCheck w out s
  end.

End WithService.

(** The request a handler works on once the body is decoded. *)
Definition decoded (i : Incoming) : option Request :=
  match i with
  | PostCoupons (Decoded req) => Some (PostCoupon req)
  | PostCouponsClaim (Decoded req) => Some (PostClaim req)
  | GetCoupons name => Some (GetCoupon name)
  | PutCoupons name => Some (PutCoupon name)
  | _ => None
  end.

End handlers.

(** ** internal/handlers/middleware *)

Module middleware.

(** [r.Method] and [r.URL.Path]. *)
Record Request : Type := mkRequest {
  Method : string;
  Path : string
}.

(** [func LoggingMiddleware(next http.Handler) http.Handler], for the
    [traceID] that [uuid.New().String()] returns. *)
Definition LoggingMiddleware {S : Type} (Log : logger.Logger)
           (next : option logger.Logger -> pkgRest.ResponseWriter ->
                   list logger.Entry -> S -> handlers.Served S)
           (traceID : string) (r : Request) (w : pkgRest.ResponseWriter)
           (out : list logger.Entry) (s : S) : handlers.Served S :=
  let reqLogger :=
    logger.With Log
      [("trace_id", traceID); ("method", Method r); ("path", Path r)] in
  let w1 := pkgRest.HeaderSet "X-Trace-ID" traceID w in
  let (_, out1) := logger.Info reqLogger (logger.Literal "Request started") [] out in
  let served := next (Some reqLogger) w1 out1 s in
  match handlers.control served with
  | logger.Returns =>
      let (_, out2) :=
        logger.Info reqLogger (logger.Literal "Request completed") []
                    (handlers.log served) in
      handlers.mkServed logger.Returns (handlers.writer served) out2
                        (handlers.state served)
  | _ => served
  end.

End middleware.

(** The logger [logger.Print] writes through: the one of the context, or
    else the global one. *)
Definition used (Log : logger.Logger) (ctx : option logger.Logger)
  : logger.Logger :=
  match ctx with
  | Some log => log
  | None => Log
  end.

(** The entries a handler logs for an answer with [statusCode]. *)
Definition logged_for (statusCode : Z) (text : logger.Text)
           (log : logger.Logger) : list logger.Entry :=
  if 400 <=? statusCode
  then [logger.mkEntry logger.ErrorLevel text (logger.fields log)]
  else [].

(** ** cmd/api/http *)

Module api.

(** The router of [Init]: the routes of the two handlers, each behind
    [LoggingMiddleware] ([router.Use]). *)
Definition Router {S : Type} (repo : CouponRepository S) (Log : logger.Logger)
           (i : handlers.Incoming) (env : Env) (traceID : string)
           (r : middleware.Request) (w : pkgRest.ResponseWriter)
           (out : list logger.Entry) (s : S) : handlers.Served S :=
  middleware.LoggingMiddleware Log (handlers.ServeHTTP repo Log i env)
                               traceID r w out s.

(** The fields [LoggingMiddleware] gives the logger of a request. *)
Definition tags (Log : logger.Logger) (traceID : string) (r : middleware.Request)
  : list logger.Field :=
  logger.fields Log ++
  [("trace_id", traceID); ("method", middleware.Method r);
   ("path", middleware.Path r)].

End api.

(** * Lemmas *)

(** ** Rows and names *)

Lemma named_true (name : string) (c : Coupon) :
  named name c = true <-> Name c = name.
Proof. unfold named. apply String.eqb_eq. Qed.

Lemma claim_of_true (userID couponName : string) (k : Claim) :
  claim_of userID couponName k = true <-> claim_key k = (userID, couponName).
Proof.
  unfold claim_of, claim_key. rewrite andb_true_iff, !String.eqb_eq.
  split; [intros [-> ->]; reflexivity | intros [= -> ->]; auto].
Qed.

Section Rows.

(** A row update that keeps the name of every row. *)
Variable f : Coupon -> Coupon.
Hypothesis f_name : forall c, Name (f c) = Name c.

Lemma named_map (name : string) (c : Coupon) : named name (f c) = named name c.
Proof. unfold named. now rewrite f_name. Qed.

Lemma names_map (l : list Coupon) : map Name (map f l) = map Name l.
Proof. rewrite map_map. apply map_ext. exact f_name. Qed.

Lemma find_map (name : string) (l : list Coupon) :
  find (named name) (map f l) = option_map f (find (named name) l).
Proof.
  induction l as [|c l IH]; simpl; [reflexivity|].
  rewrite named_map. now destruct (named name c).
Qed.

Lemma existsb_map (name : string) (l : list Coupon) :
  existsb (named name) (map f l) = existsb (named name) l.
Proof.
  induction l as [|c l IH]; simpl; [reflexivity|].
  now rewrite named_map, IH.
Qed.

End Rows.

Lemma take_one_name (env : Env) (name : string) (c : Coupon) :
  Name (take_one env name c) = Name c.
Proof. unfold take_one. now destruct (named name c). Qed.

Lemma touch_name (env : Env) (name : string) (c : Coupon) :
  Name (touch env name c) = Name c.
Proof. unfold touch. now destruct (named name c). Qed.

Lemma find_existsb (name : string) (l : list Coupon) :
  existsb (named name) l =
  match find (named name) l with Some _ => true | None => false end.
Proof.
  induction l as [|c l IH]; simpl; [reflexivity|].
  now destruct (named name c).
Qed.

Lemma find_unique (name : string) (l : list Coupon) (c x : Coupon) :
  NoDup (map Name l) -> find (named name) l = Some c ->
  In x l -> Name x = name -> x = c.
Proof.
  induction l as [|h l IH]; simpl; [easy|].
  intros Hnd Hf Hin Hx. inversion Hnd as [|? ? Hnotin Hnd']; subst.
  destruct (named (Name x) h) eqn:Hh.
  - injection Hf as <-. destruct Hin as [->|Hin]; [reflexivity|].
    exfalso. apply Hnotin. apply named_true in Hh. rewrite Hh.
    now apply in_map.
  - destruct Hin as [->|Hin].
    + unfold named in Hh. now rewrite String.eqb_refl in Hh.
    + now apply IH.
Qed.

Lemma filter_fresh (name : string) (l : list Coupon) :
  ~ In name (map Name l) -> filter (named name) l = [].
Proof.
  induction l as [|h l IH]; simpl; [reflexivity|].
  intros Hnotin. destruct (named name h) eqn:Hh.
  - exfalso. apply Hnotin. left. now apply named_true.
  - apply IH. intros Hin. apply Hnotin. now right.
Qed.

Lemma count_unique (name : string) (l : list Coupon) :
  NoDup (map Name l) -> existsb (named name) l = true ->
  count_rows (named name) l = 1.
Proof.
  unfold count_rows. induction l as [|h l IH]; simpl; [easy|].
  intros Hnd He. inversion Hnd as [|? ? Hnotin Hnd']; subst.
  destruct (named name h) eqn:Hh; simpl in *.
  - apply named_true in Hh. subst name.
    now rewrite (filter_fresh _ _ Hnotin).
  - now apply IH.
Qed.

Lemma count_absent {A : Type} (p : A -> bool) (l : list A) :
  existsb p l = false -> count_rows p l = 0.
Proof.
  unfold count_rows. induction l as [|h l IH]; simpl; [reflexivity|].
  intros [Hh Hl]%orb_false_iff. rewrite Hh. now apply IH.
Qed.

Lemma count_app {A : Type} (p : A -> bool) (l : list A) (x : A) :
  count_rows p (l ++ [x]) = count_rows p l + (if p x then 1 else 0).
Proof.
  unfold count_rows. rewrite filter_app, length_app. simpl.
  destruct (p x); simpl; lia.
Qed.

(** ** Looking an offer up *)

Lemma first_row_find (name : string) (db : Store) :
  first_row (select_coupon name db) =
  match find_coupon name db with Some c => inr c | None => inl ErrNoRows end.
Proof.
  unfold select_coupon, find_coupon.
  induction (coupons db) as [|c l IH]; simpl; [reflexivity|].
  destruct (named name c); simpl; auto.
Qed.

Lemma first_row_remaining (name : string) (db : Store) :
  first_row (select_remaining_amount name db) =
  match find_coupon name db with
  | Some c => inr (RemainingAmount c)
  | None => inl ErrNoRows
  end.
Proof.
  unfold select_remaining_amount, find_coupon.
  induction (coupons db) as [|c l IH]; simpl; [reflexivity|].
  destruct (named name c); simpl; auto.
Qed.

Lemma find_coupon_exists (name : string) (db : Store) (c : Coupon) :
  find_coupon name db = Some c -> existsb (named name) (coupons db) = true.
Proof.
  unfold find_coupon. intros H. apply existsb_exists.
  exists c. apply find_some in H. exact H.
Qed.

Lemma find_coupon_named (name : string) (db : Store) (c : Coupon) :
  find_coupon name db = Some c -> Name c = name.
Proof.
  unfold find_coupon. intros H%find_some. now apply named_true.
Qed.

Lemma find_coupon_In (name : string) (db : Store) (c : Coupon) :
  find_coupon name db = Some c -> In c (coupons db).
Proof. unfold find_coupon. now intros H%find_some. Qed.

Lemma find_coupon_app (name : string) (cs : list Coupon) (c : Coupon)
      (ks : list Claim) :
  find_coupon name (mkStore (cs ++ [c]) ks) =
  match find_coupon name (mkStore cs ks) with
  | Some x => Some x
  | None => if named name c then Some c else None
  end.
Proof.
  unfold find_coupon; simpl.
  induction cs as [|h cs IH]; simpl; [reflexivity|].
  now destruct (named name h).
Qed.

Lemma find_coupon_claimed (name userID couponName : string) (env : Env)
      (db : Store) :
  find_coupon name (claimed userID couponName env db) =
  option_map (take_one env couponName) (find_coupon name db).
Proof. unfold find_coupon; simpl. apply find_map, take_one_name. Qed.

Lemma find_coupon_touched (name name' : string) (env : Env) (db : Store) :
  find_coupon name (touched name' env db) =
  option_map (touch env name') (find_coupon name db).
Proof. unfold find_coupon; simpl. apply find_map, touch_name. Qed.

Lemma find_coupon_claimed_other (name userID couponName : string) (env : Env)
      (db : Store) :
  name <> couponName ->
  find_coupon name (claimed userID couponName env db) = find_coupon name db.
Proof.
  intros Hne. rewrite find_coupon_claimed.
  destruct (find_coupon name db) as [x|] eqn:Hx; [simpl|reflexivity].
  unfold take_one. destruct (named couponName x) eqn:Hn; [|reflexivity].
  apply named_true in Hn. apply find_coupon_named in Hx. congruence.
Qed.

Lemma touched_absent (name : string) (env : Env) (db : Store) :
  find_coupon name db = None -> touched name env db = db.
Proof.
  unfold find_coupon, touched. destruct db as [cs ks]; simpl. intros H.
  f_equal. induction cs as [|c cs IH]; simpl in *; [reflexivity|].
  unfold touch at 1. destruct (named name c); [discriminate|].
  now rewrite IH.
Qed.

(** ** The repository, call by call *)

Lemma CreateCoupon_unfold (name : string) (amount : Z) (env : Env) (db : Store) :
  CreateCoupon name amount env db =
  if fails env CreateExec
  then (Some (Errorf "error creating coupon" ErrBadConn), db)
  else if existsb (named name) (coupons db)
       then (Some ErrCouponAlreadyExists, db)
       else (None, created name amount env db).
Proof.
  unfold CreateCoupon, call, insert_coupon.
  destruct (fails env CreateExec); [reflexivity|].
  now destruct (existsb (named name) (coupons db)).
Qed.

Lemma Update_unfold (name : string) (env : Env) (db : Store) :
  Update name env db =
  if fails env UpdateExec then ((0, Some (Driver ErrBadConn)), db)
  else if fails env UpdateRowsAffected
       then ((0, Some (Driver ErrBadConn)), touched name env db)
       else ((count_rows (named name) (coupons db), None), touched name env db).
Proof.
  unfold Update, call, update_updated_at.
  destruct (fails env UpdateExec); [reflexivity|].
  now destruct (fails env UpdateRowsAffected).
Qed.

Lemma claim_locked_read_unfold (couponName : string) (env : Env) (db : Store) :
  claim_locked_read couponName env (mkTx db db true) =
  if fails env ClaimQueryRow then inl (Errorf "error checking coupon" ErrBadConn)
  else match find_coupon couponName db with
       | None => inl ErrCouponNotFound
       | Some c => inr (RemainingAmount c)
       end.
Proof.
  unfold claim_locked_read, call; cbn [work].
  destruct (fails env ClaimQueryRow); [reflexivity|].
  rewrite first_row_remaining. now destruct (find_coupon couponName db).
Qed.

(** Every way the steps after the locked read can end, with the store the
    deferred rollback leaves committed. *)
Lemma claim_checked_unfold (userID couponName : string) (env : Env) (db : Store)
      (r : Z) :
  (let (err, tx) := claim_checked userID couponName env (mkTx db db true) r in
   (err, committed (Rollback tx))) =
  if r <=? 0 then (Some ErrNoStockAvailable, db)
  else if fails env ClaimInsertExec
  then (Some (Errorf "error creating claim" ErrBadConn), db)
  else if has_claimed userID couponName db then (Some ErrAlreadyClaimed, db)
  else if negb (existsb (named couponName) (coupons db))
  then (Some (Errorf "error creating claim" (PqError "23503")), db)
  else if fails env ClaimUpdateExec
  then (Some (Errorf "error updating coupon stock" ErrBadConn), db)
  else if fails env ClaimCommit
  then (Some (Errorf "error committing transaction" ErrBadConn), db)
  else (None, claimed userID couponName env db).
Proof.
  unfold claim_checked, call; cbn [work committed active in_tx].
  destruct (r <=? 0); [reflexivity|].
  destruct (fails env ClaimInsertExec); [reflexivity|].
  unfold insert_claim. fold (has_claimed userID couponName db).
  destruct (has_claimed userID couponName db); [reflexivity|].
  destruct (existsb (named couponName) (coupons db)); [|reflexivity].
  cbn [negb work committed active in_tx].
  destruct (fails env ClaimUpdateExec); [reflexivity|].
  unfold update_remaining_amount, Commit, call; cbn [work committed active in_tx].
  now destruct (fails env ClaimCommit).
Qed.

Lemma ClaimCoupon_outcome (env : Env) (db : Store) (userID couponName : string) :
  claim_outcome env db userID couponName (ClaimCoupon userID couponName env db).
Proof.
  unfold ClaimCoupon, Begin, call.
  destruct (fails env ClaimBegin) eqn:Hb; [now constructor|].
  unfold claim_steps. rewrite claim_locked_read_unfold.
  destruct (fails env ClaimQueryRow) eqn:Hq; [now constructor|].
  destruct (find_coupon couponName db) as [c|] eqn:Hc; [|now constructor].
  rewrite claim_checked_unfold, (find_coupon_exists _ _ _ Hc). cbn [negb].
  destruct (Z.leb_spec (RemainingAmount c) 0) as [Hr|Hr].
  { eapply claim_no_stock; eauto. }
  destruct (fails env ClaimInsertExec) eqn:Hi.
  { eapply claim_insert_failed; eauto. }
  destruct (has_claimed userID couponName db) eqn:Hk.
  { eapply claim_already_claimed; eauto. }
  destruct (fails env ClaimUpdateExec) eqn:Hu.
  { eapply claim_update_failed; eauto. }
  destruct (fails env ClaimCommit) eqn:Hm.
  { eapply claim_commit_failed; eauto. }
  eapply claim_committed; eauto.
Qed.

Lemma ClaimCoupon_failure (userID couponName : string) (env : Env)
      (db db' : Store) (e : error) :
  ClaimCoupon userID couponName env db = (Some e, db') -> db' = db.
Proof.
  destruct (ClaimCoupon_outcome env db userID couponName);
    intros Heq; first [discriminate Heq | now injection Heq as _ <-].
Qed.

Lemma scan_rows_unfold (env : Env) (rows claimedBy : list string) :
  scan_rows env rows claimedBy =
  match rows with
  | [] => inr claimedBy
  | _ :: _ => if fails env GetScan
              then inl (Errorf "error scanning claim" ErrBadConn)
              else inr (claimedBy ++ rows)
  end.
Proof.
  revert claimedBy. induction rows as [|u rest IH]; intros acc; [reflexivity|].
  simpl. unfold call. destruct (fails env GetScan) eqn:Hs; [reflexivity|].
  rewrite IH. destruct rest as [|v rest]; [reflexivity|].
  rewrite <- app_assoc. reflexivity.
Qed.

Lemma GetCouponByName_unfold (name : string) (env : Env) (db : Store) :
  GetCouponByName name env db =
  if fails env GetQueryRow then inl (Errorf "error getting coupon" ErrBadConn)
  else match find_coupon name db with
       | None => inl ErrCouponNotFound
       | Some coupon =>
         if fails env GetQuery then inl (Errorf "error getting claims" ErrBadConn)
         else match scan_rows env (select_claimants name db) [] with
              | inl err => inl err
              | inr claimedBy =>
                if fails env GetRowsErr
                then inl (Errorf "error iterating claims" ErrBadConn)
                else inr (mkCouponDetailResponse (Name coupon) (Amount coupon)
                            (RemainingAmount coupon) claimedBy)
              end
       end.
Proof.
  unfold GetCouponByName, call.
  destruct (fails env GetQueryRow); [reflexivity|].
  rewrite first_row_find.
  destruct (find_coupon name db); [|reflexivity].
  destruct (fails env GetQuery); [reflexivity|].
  destruct (scan_rows env (select_claimants name db) []); [reflexivity|].
  now destruct (fails env GetRowsErr).
Qed.

(** ** The invariants are kept by each change of the store *)

Lemma consistent_empty : consistent empty.
Proof.
  split; simpl; [constructor | constructor | | | ]; intros ? [].
Qed.

Lemma no_claims_for_absent (name : string) (db : Store) :
  consistent db -> existsb (named name) (coupons db) = false ->
  existsb (claimed_for name) (claims db) = false.
Proof.
  intros Hc Hn. destruct (existsb (claimed_for name) (claims db)) eqn:He; [|reflexivity].
  apply existsb_exists in He as (k & Hin & Hk).
  apply (claims_reference db Hc) in Hin.
  unfold claimed_for in Hk. apply String.eqb_eq in Hk. congruence.
Qed.

Lemma consistent_created (name : string) (amount : Z) (env : Env) (db : Store) :
  consistent db -> 0 < amount ->
  existsb (named name) (coupons db) = false ->
  consistent (created name amount env db).
Proof.
  intros Hc Hpos Hfresh. destruct Hc as [Hn Hk Hr Hb Ha]. split; simpl.
  - rewrite map_app. simpl.
    apply NoDup_app; [exact Hn|repeat constructor; intros []|].
    intros x Hx [<-|[]].
    apply in_map_iff in Hx as (c & Hc & Hin).
    assert (existsb (named name) (coupons db) = true); [|congruence].
    apply existsb_exists. exists c. split; [exact Hin|]. now apply named_true.
  - exact Hk.
  - intros k Hin. rewrite existsb_app. now rewrite (Hr k Hin).
  - intros c [Hin|[<-|[]]]%in_app_iff; [now apply Hb|simpl; lia].
  - intros c [Hin|[<-|[]]]%in_app_iff; [now apply Ha|simpl].
    rewrite count_absent; [lia|].
    apply no_claims_for_absent; [now split|exact Hfresh].
Qed.

Lemma consistent_touched (name : string) (env : Env) (db : Store) :
  consistent db -> consistent (touched name env db).
Proof.
  intros [Hn Hk Hr Hb Ha]. split; simpl.
  - rewrite names_map; [exact Hn|apply touch_name].
  - exact Hk.
  - intros k Hin. rewrite existsb_map; [now apply Hr|apply touch_name].
  - intros c' (c & <- & Hin)%in_map_iff. specialize (Hb c Hin).
    unfold touch. now destruct (named name c).
  - intros c' (c & <- & Hin)%in_map_iff. specialize (Ha c Hin).
    unfold touch. now destruct (named name c).
Qed.

Lemma has_claimed_false (userID couponName : string) (db : Store) :
  has_claimed userID couponName db = false ->
  ~ In (userID, couponName) (map claim_key (claims db)).
Proof.
  unfold has_claimed. intros H (k & Hk & Hin)%in_map_iff.
  assert (existsb (claim_of userID couponName) (claims db) = true); [|congruence].
  apply existsb_exists. exists k. split; [exact Hin|]. now apply claim_of_true.
Qed.

Lemma consistent_claimed (userID couponName : string) (env : Env) (db : Store)
      (c : Coupon) :
  consistent db -> find_coupon couponName db = Some c -> 0 < RemainingAmount c ->
  has_claimed userID couponName db = false ->
  consistent (claimed userID couponName env db).
Proof.
  intros [Hn Hk Hr Hb Ha] Hc Hpos Hnew. split; simpl.
  - rewrite names_map; [exact Hn|apply take_one_name].
  - rewrite map_app. simpl.
    apply NoDup_app; [exact Hk|repeat constructor; intros []|].
    intros x Hx [<-|[]]. now apply (has_claimed_false _ _ _ Hnew).
  - intros k Hin. rewrite existsb_map by apply take_one_name.
    apply in_app_iff in Hin as [Hin|[<-|[]]]; [now apply Hr|simpl].
    now apply (find_coupon_exists couponName db c).
  - intros c' (x & <- & Hin)%in_map_iff. specialize (Hb x Hin).
    unfold take_one. destruct (named couponName x) eqn:Hx; [simpl|exact Hb].
    apply named_true in Hx.
    rewrite (find_unique couponName (coupons db) c x Hn Hc Hin Hx) in *. lia.
  - intros c' (x & <- & Hin)%in_map_iff. specialize (Ha x Hin).
    rewrite take_one_name, count_app. unfold claimed_for at 2. simpl.
    unfold take_one, named. rewrite (String.eqb_sym couponName).
    destruct (String.eqb (Name x) couponName); simpl; lia.
Qed.

(** ** What a request can do to the store *)

Lemma serve_unfold (r : Request) (env : Env) (db : Store) :
  serve r env db =
  match r with
  | PostCoupon req => snd (service.CreateCoupon couponRepository req env db)
  | PostClaim req => snd (service.ClaimCoupon couponRepository req env db)
  | GetCoupon name => snd (service.GetCouponDetails couponRepository name env db)
  | PutCoupon name => snd (service.UpdateCoupon couponRepository name env db)
  end.
Proof.
  unfold serve, rest.handle.
  destruct r as [req|req|name|name].
  - unfold rest.CreateCoupon.
    now destruct (service.CreateCoupon couponRepository req env db).
  - unfold rest.ClaimCoupon.
    now destruct (service.ClaimCoupon couponRepository req env db).
  - unfold rest.GetCouponDetails.
    now destruct (service.GetCouponDetails couponRepository name env db).
  - unfold rest.UpdateCoupon.
    now destruct (service.UpdateCoupon couponRepository name env db).
Qed.

Lemma serve_effect (r : Request) (env : Env) (db : Store) :
  effect db env r (serve r env db).
Proof.
  rewrite serve_unfold. destruct r as [req|req|name|name]; simpl.
  - unfold service.CreateCoupon.
    destruct (String.eqb_spec (reqName req) ""); [constructor|].
    destruct (Z.leb_spec (reqAmount req) 0); [constructor|].
    simpl. rewrite CreateCoupon_unfold.
    destruct (fails env CreateExec); [constructor|].
    rewrite find_existsb. fold (find_coupon (reqName req) db).
    destruct (find_coupon (reqName req) db) eqn:Hf; [constructor|].
    simpl. now constructor.
  - unfold service.ClaimCoupon.
    destruct (String.eqb (reqUserID req) ""); [constructor|].
    destruct (String.eqb (reqCouponName req) ""); [constructor|].
    simpl.
    destruct (ClaimCoupon_outcome env db (reqUserID req) (reqCouponName req));
      simpl; try constructor.
    eapply effect_claimed; eauto.
  - unfold service.GetCouponDetails.
    destruct (String.eqb name ""); constructor.
  - unfold service.UpdateCoupon.
    destruct (String.eqb name ""); [constructor|].
    simpl. rewrite Update_unfold.
    destruct (fails env UpdateExec); [constructor|].
    destruct (fails env UpdateRowsAffected); constructor.
Qed.

Lemma effect_consistent (db db' : Store) (env : Env) (r : Request) :
  effect db env r db' -> consistent db -> consistent db'.
Proof.
  intros [r'|req Hname Hpos Hfresh|req c Hc Hpos Hnew|name] Hdb.
  - exact Hdb.
  - apply consistent_created; [exact Hdb|exact Hpos|].
    rewrite find_existsb. fold (find_coupon (reqName req) db). now rewrite Hfresh.
  - now apply (consistent_claimed _ _ _ _ c).
  - now apply consistent_touched.
Qed.

Lemma reachable_consistent (db : Store) : reachable db -> consistent db.
Proof.
  induction 1 as [|db r env _ IH]; [exact consistent_empty|].
  exact (effect_consistent _ _ _ _ (serve_effect r env db) IH).
Qed.

Lemma reachable_at_reachable (t : Z) (db : Store) :
  reachable_at t db -> reachable db.
Proof. induction 1; now constructor. Qed.

Lemma run_reachable (trace : Trace) (db : Store) :
  reachable db -> reachable (run trace db).
Proof.
  revert db. induction trace as [|[env r] rest IH]; intros db H; simpl; [exact H|].
  apply IH. now constructor.
Qed.

(** How a request changes the stock of an offer that is already there. *)
Lemma effect_stock (db db' : Store) (env : Env) (r : Request) (name : string)
      (c : Coupon) :
  effect db env r db' -> find_coupon name db = Some c ->
  exists c', find_coupon name db' = Some c' /\
    Name c' = Name c /\ Amount c' = Amount c /\ CreatedAt c' = CreatedAt c /\
    (RemainingAmount c' = RemainingAmount c \/
     RemainingAmount c' = RemainingAmount c - 1 /\ 0 < RemainingAmount c /\
     exists req, r = PostClaim req /\ reqCouponName req = name).
Proof.
  intros [r'|req Hname Hpos Hfresh|req c0 Hc Hpos Hnew|name'] Hf.
  - exists c. auto 6.
  - exists c. unfold created. destruct db as [cs ks]; simpl in *.
    rewrite find_coupon_app, Hf. auto 6.
  - rewrite find_coupon_claimed, Hf. simpl. eexists; split; [reflexivity|].
    unfold take_one. destruct (named (reqCouponName req) c) eqn:Hn; simpl; auto 6.
    apply named_true in Hn. pose proof (find_coupon_named _ _ _ Hf) as Hn'.
    assert (reqCouponName req = name) as Heq by congruence.
    rewrite Heq, Hf in Hc. injection Hc as <-.
    repeat split; auto. right. repeat split; auto. now exists req.
  - rewrite find_coupon_touched, Hf. simpl. eexists; split; [reflexivity|].
    unfold touch. destruct (named name' c); simpl; auto 6.
Qed.

(** Where an offer that was not there comes from. *)
Lemma effect_new (db db' : Store) (env : Env) (r : Request) (name : string)
      (c' : Coupon) :
  effect db env r db' -> find_coupon name db = None ->
  find_coupon name db' = Some c' ->
  exists req, r = PostCoupon req /\ reqName req = name /\
    c' = mkCoupon name (reqAmount req) (reqAmount req) (now env) (now env).
Proof.
  intros [r'|req Hname Hpos Hfresh|req c0 Hc Hpos Hnew|name'] Hf Hf'.
  - congruence.
  - unfold created in Hf'. destruct db as [cs ks]; simpl in *.
    rewrite find_coupon_app, Hf in Hf'. unfold named in Hf'; simpl in Hf'.
    destruct (String.eqb_spec (reqName req) name) as [<-|]; [|discriminate].
    injection Hf' as <-. now exists req.
  - rewrite find_coupon_claimed, Hf in Hf'. discriminate.
  - rewrite find_coupon_touched, Hf in Hf'. discriminate.
Qed.

(** ** Claims of one claimant for one offer *)

Lemma has_claimed_offer (userID couponName : string) (db : Store) :
  consistent db -> has_claimed userID couponName db = true ->
  exists c, find_coupon couponName db = Some c.
Proof.
  intros Hdb (k & Hin & Hk)%existsb_exists.
  pose proof (claims_reference db Hdb k Hin) as He.
  apply claim_of_true in Hk. injection Hk as _ Hn. rewrite Hn in He.
  rewrite find_existsb in He. fold (find_coupon couponName db) in He.
  destruct (find_coupon couponName db) as [c|]; [now exists c|discriminate].
Qed.

(** A claim of a pair that is already in the ledger: it fails, whatever the
    infrastructure does, and with a healthy infrastructure the stock check
    decides which failure it is. *)
Lemma retry_outcome (userID couponName : string) (env : Env) (db : Store)
      (c : Coupon) :
  find_coupon couponName db = Some c ->
  has_claimed userID couponName db = true ->
  exists e, ClaimCoupon userID couponName env db = (Some e, db) /\
    (fails env ClaimBegin = false -> fails env ClaimQueryRow = false ->
     fails env ClaimInsertExec = false ->
     e = if RemainingAmount c <=? 0 then ErrNoStockAvailable
         else ErrAlreadyClaimed).
Proof.
  intros Hc Hk.
  destruct (ClaimCoupon_outcome env db userID couponName)
    as [Hb|Hb Hq|Hb Hq Hf|c0 Hb Hq Hf Hr|c0 Hb Hq Hf Hr Hi|c0 Hb Hq Hf Hr Hi Hh
        |c0 Hb Hq Hf Hr Hi Hh Hu|c0 Hb Hq Hf Hr Hi Hh Hu Hm
        |c0 Hb Hq Hf Hr Hi Hh Hu Hm];
    try congruence; eexists; (split; [reflexivity|]); try congruence.
  - intros _ _ _. assert (c0 = c) as -> by congruence.
    now destruct (Z.leb_spec (RemainingAmount c) 0); [|lia].
  - intros _ _ _. assert (c0 = c) as -> by congruence.
    now destruct (Z.leb_spec (RemainingAmount c) 0); [lia|].
Qed.

Lemma effect_keeps_claims (db db' : Store) (env : Env) (r : Request)
      (userID couponName : string) :
  effect db env r db' -> has_claimed userID couponName db = true ->
  has_claimed userID couponName db' = true.
Proof.
  unfold has_claimed.
  intros [r'|req Hname Hpos Hfresh|req c0 Hc Hpos Hnew|name'] Hk; simpl; auto.
  rewrite existsb_app, Hk. reflexivity.
Qed.

Lemma run_keeps_claims (userID couponName : string) (trace : Trace) (db : Store) :
  has_claimed userID couponName db = true ->
  has_claimed userID couponName (run trace db) = true.
Proof.
  revert db. induction trace as [|[env r] rest IH]; intros db Hk; simpl; [exact Hk|].
  apply IH. exact (effect_keeps_claims _ _ _ _ _ _ (serve_effect r env db) Hk).
Qed.

Lemma claimed_has_claimed (userID couponName : string) (env : Env) (db : Store) :
  has_claimed userID couponName (claimed userID couponName env db) = true.
Proof.
  unfold has_claimed, claimed; simpl. rewrite existsb_app; simpl.
  unfold claim_of; simpl. rewrite !String.eqb_refl. simpl. apply orb_true_r.
Qed.

(** A claim request is answered 200 only when the repository committed the
    claim of a pair the ledger did not have. *)
Lemma claim_answered_200 (req : ClaimCouponRequest) (env : Env) (db : Store) :
  rest.status (fst (rest.handle couponRepository (PostClaim req) env db)) = 200 ->
  has_claimed (reqUserID req) (reqCouponName req) db = false /\
  serve (PostClaim req) env db =
  claimed (reqUserID req) (reqCouponName req) env db.
Proof.
  rewrite serve_unfold. unfold rest.handle, rest.ClaimCoupon, service.ClaimCoupon.
  destruct (String.eqb (reqUserID req) ""); [discriminate|].
  destruct (String.eqb (reqCouponName req) ""); [discriminate|].
  simpl.
  destruct (ClaimCoupon_outcome env db (reqUserID req) (reqCouponName req));
    simpl; try discriminate.
  auto.
Qed.

Lemma claim_succeeds_inv (userID couponName : string) (r : Request) (env : Env)
      (db : Store) :
  claim_succeeds userID couponName r env db = true ->
  has_claimed userID couponName db = false /\
  serve r env db = claimed userID couponName env db.
Proof.
  destruct r as [|req| |]; simpl; try discriminate.
  intros [[Hu Hn]%andb_true_iff Hs]%andb_true_iff.
  apply String.eqb_eq in Hu, Hn. apply Z.eqb_eq in Hs. subst.
  now apply claim_answered_200.
Qed.

Lemma no_success_once_claimed (userID couponName : string) (trace : Trace)
      (db : Store) :
  has_claimed userID couponName db = true ->
  successes userID couponName trace db = O.
Proof.
  revert db. induction trace as [|[env r] rest IH]; intros db Hk; simpl;
    [reflexivity|].
  rewrite (IH _ (effect_keeps_claims _ _ _ _ _ _ (serve_effect r env db) Hk)).
  destruct (claim_succeeds userID couponName r env db) eqn:Hs; [|reflexivity].
  apply claim_succeeds_inv in Hs as [Hnew _]. congruence.
Qed.

Lemma successes_at_most_one (userID couponName : string) (trace : Trace)
      (db : Store) :
  (successes userID couponName trace db <= 1)%nat.
Proof.
  revert db. induction trace as [|[env r] rest IH]; intros db; simpl; [lia|].
  destruct (claim_succeeds userID couponName r env db) eqn:Hs;
    [|specialize (IH (serve r env db)); lia].
  apply claim_succeeds_inv in Hs as [_ ->].
  rewrite no_success_once_claimed; [lia|apply claimed_has_claimed].
Qed.

(** ** ORDER BY claimed_at *)

Lemma insert_by_claimed_at_perm (k : Claim) (rows : list Claim) :
  Permutation (insert_by_claimed_at k rows) (k :: rows).
Proof.
  induction rows as [|h t IH]; simpl; [reflexivity|].
  destruct (ClaimedAt k <=? ClaimedAt h); [reflexivity|].
  rewrite IH. apply perm_swap.
Qed.

Lemma order_by_claimed_at_perm (rows : list Claim) :
  Permutation (order_by_claimed_at rows) rows.
Proof.
  induction rows as [|k t IH]; simpl; [reflexivity|].
  rewrite insert_by_claimed_at_perm. now constructor.
Qed.

Lemma insert_by_claimed_at_sorted (k : Claim) (rows : list Claim) :
  Sorted earlier rows -> Sorted earlier (insert_by_claimed_at k rows).
Proof.
  induction rows as [|h t IH]; simpl; intros Hs; [repeat constructor|].
  destruct (Z.leb_spec (ClaimedAt k) (ClaimedAt h)) as [Hle|Hlt].
  - constructor; [exact Hs|]. constructor. exact Hle.
  - inversion Hs as [|? ? Hst Hhd]; subst. constructor; [now apply IH|].
    destruct t as [|h' t']; simpl.
    + constructor. unfold earlier. lia.
    + destruct (ClaimedAt k <=? ClaimedAt h'); constructor.
      * unfold earlier. lia.
      * now inversion Hhd.
Qed.

Lemma order_by_claimed_at_sorted (rows : list Claim) :
  Sorted earlier (order_by_claimed_at rows).
Proof.
  induction rows as [|k t IH]; simpl; [constructor|].
  now apply insert_by_claimed_at_sorted.
Qed.

(** Rows that are already in the order of their timestamps come back as
    they are stored. *)
Lemma order_by_claimed_at_id (rows : list Claim) :
  Sorted earlier rows -> order_by_claimed_at rows = rows.
Proof.
  induction rows as [|k t IH]; simpl; intros Hs; [reflexivity|].
  inversion Hs as [|? ? Hst Hhd]; subst. rewrite (IH Hst).
  destruct Hhd as [|h t' Hkh]; simpl; [reflexivity|].
  unfold earlier in Hkh.
  now destruct (Z.leb_spec (ClaimedAt k) (ClaimedAt h)); [|lia].
Qed.

Lemma earlier_trans : Relations_1.Transitive earlier.
Proof. intros a b c. unfold earlier. lia. Qed.

Lemma filter_sorted (p : Claim -> bool) (rows : list Claim) :
  Sorted earlier rows -> Sorted earlier (filter p rows).
Proof.
  intros Hs. apply Sorted_StronglySorted in Hs; [|exact earlier_trans].
  apply StronglySorted_Sorted.
  induction Hs as [|k t Hst IH Hall]; simpl; [constructor|].
  destruct (p k); [|exact IH]. constructor; [exact IH|].
  clear -Hall. induction Hall as [|x l Hx Hl IHl]; simpl; [constructor|].
  destruct (p x); [now constructor|exact IHl].
Qed.

Lemma sorted_snoc (rows : list Claim) (k : Claim) :
  Sorted earlier rows -> Forall (fun x => ClaimedAt x <= ClaimedAt k) rows ->
  Sorted earlier (rows ++ [k]).
Proof.
  induction rows as [|h t IH]; simpl; intros Hs Hall; [repeat constructor|].
  inversion Hs as [|? ? Hst Hhd]; subst. inversion Hall as [|? ? Hh Ht]; subst.
  constructor; [now apply IH|].
  destruct Hhd as [|h' t' Hhh]; simpl; constructor; [exact Hh|exact Hhh].
Qed.

Lemma effect_chronological (db db' : Store) (env : Env) (r : Request) (t : Z) :
  effect db env r db' -> t <= now env ->
  chronological t db -> chronological (now env) db'.
Proof.
  unfold chronological.
  intros Heff Ht [Hs Hall].
  assert (Forall (fun k => ClaimedAt k <= now env) (claims db)) as Hall'.
  { eapply Forall_impl; [|exact Hall]. simpl. intros; lia. }
  destruct Heff as [r'|req Hname Hpos Hfresh|req c0 Hc Hpos Hnew|name']; simpl; auto.
  split.
  - apply sorted_snoc; [exact Hs|exact Hall'].
  - apply Forall_app. split; [exact Hall'|]. repeat constructor. simpl. lia.
Qed.

Lemma reachable_at_chronological (t : Z) (db : Store) :
  reachable_at t db -> chronological t db.
Proof.
  induction 1 as [t|t db r env _ IH Ht].
  - split; constructor.
  - exact (effect_chronological _ _ _ _ _ (serve_effect r env db) Ht IH).
Qed.

Lemma distinct_claimants (couponName : string) (ks : list Claim) :
  NoDup (map claim_key ks) ->
  NoDup (map UserID (filter (claimed_for couponName) ks)).
Proof.
  induction ks as [|k t IH]; simpl; intros Hnd; [constructor|].
  inversion Hnd as [|? ? Hnotin Hnd']; subst.
  destruct (claimed_for couponName k) eqn:Hk; [simpl|now apply IH].
  constructor; [|now apply IH].
  intros (x & Hu & [Hin Hx]%filter_In)%in_map_iff.
  apply Hnotin. apply in_map_iff. exists x. split; [|exact Hin].
  unfold claim_key, claimed_for in *.
  apply String.eqb_eq in Hk, Hx. congruence.
Qed.

Lemma claimants_has_claimed (userID couponName : string) (db : Store) :
  In userID (claimants_of couponName db) <->
  has_claimed userID couponName db = true.
Proof.
  unfold claimants_of, has_claimed. rewrite in_map_iff, existsb_exists.
  split.
  - intros (k & Hu & [Hin Hk]%filter_In). exists k. split; [exact Hin|].
    unfold claim_of. rewrite Hu, String.eqb_refl. exact Hk.
  - intros (k & Hin & [Hu Hk]%andb_true_iff). exists k.
    split; [now apply String.eqb_eq|]. apply filter_In. now split.
Qed.

(** ** Interleaved claim transactions *)

Lemma locks_app (xs ys : list concurrent.Session) :
  concurrent.locks (xs ++ ys) = concurrent.locks xs ++ concurrent.locks ys.
Proof. unfold concurrent.locks. now rewrite filter_app, map_app. Qed.

Lemma locks_cons (x : concurrent.Session) (xs : list concurrent.Session) :
  concurrent.locks (x :: xs) =
  if concurrent.holds_lock x then concurrent.offer x :: concurrent.locks xs
  else concurrent.locks xs.
Proof. unfold concurrent.locks; simpl. now destruct (concurrent.holds_lock x). Qed.

Lemma holds_lock_seen (x : concurrent.Session) :
  concurrent.holds_lock x = true <-> exists r, concurrent.seen x = Some r.
Proof.
  unfold concurrent.holds_lock. destruct (concurrent.seen x) as [r|].
  - split; [eauto|reflexivity].
  - split; [discriminate|intros [r [=]]].
Qed.

Lemma locked_in_locks (x : concurrent.Session) (xs : list concurrent.Session)
      (r : Z) :
  In x xs -> concurrent.seen x = Some r ->
  In (concurrent.offer x) (concurrent.locks xs).
Proof.
  intros Hin Hs. unfold concurrent.locks. apply in_map, filter_In.
  split; [exact Hin|]. apply holds_lock_seen. eauto.
Qed.

(** A sequential call is the three steps of a session with nothing in
    between. *)
Lemma ClaimCoupon_by_steps (userID couponName : string) (env : Env) (db : Store) :
  fails env ClaimBegin = false ->
  ClaimCoupon userID couponName env db =
  match claim_locked_read couponName env (mkTx db db true) with
  | inl err => (Some err, db)
  | inr r =>
      concurrent.finish (concurrent.mkSession userID couponName env None) r db
  end.
Proof.
  intros Hb. unfold ClaimCoupon, Begin, call, claim_steps. rewrite Hb.
  now destruct (claim_locked_read couponName env (mkTx db db true)).
Qed.

(** What the last step of a session does to the store it finds, when the
    offer it has locked is there. *)
Lemma finish_effect (x : concurrent.Session) (r : Z) (db : Store) (c : Coupon) :
  find_coupon (concurrent.offer x) db = Some c ->
  snd (concurrent.finish x r db) = db \/
  (snd (concurrent.finish x r db) =
     claimed (concurrent.claimant x) (concurrent.offer x)
             (concurrent.environment x) db /\
   fst (concurrent.finish x r db) = None /\
   0 < r /\
   has_claimed (concurrent.claimant x) (concurrent.offer x) db = false).
Proof.
  intros Hc. unfold concurrent.finish.
  rewrite claim_checked_unfold, (find_coupon_exists _ _ _ Hc). cbn [negb].
  destruct (Z.leb_spec r 0); [now left|].
  destruct (fails (concurrent.environment x) ClaimInsertExec); [now left|].
  destruct (has_claimed (concurrent.claimant x) (concurrent.offer x) db) eqn:Hk;
    [now left|].
  destruct (fails (concurrent.environment x) ClaimUpdateExec); [now left|].
  destruct (fails (concurrent.environment x) ClaimCommit); [now left|].
  right. auto.
Qed.

Lemma step_coherent (a b : concurrent.System) (l : concurrent.Label) :
  concurrent.step a l b -> coherent a -> coherent b.
Proof.
  intros Hstep [Hdb Hlocks Hreads]; simpl in *.
  destruct Hstep as [r env db xs Hnc Hput|userID couponName env db xs Hb
                     |userID couponName env db xs Hb
                     |x r db xs ys Hx Hfree Hread|x err db xs ys Hx Hread
                     |x r db xs ys Hx]; simpl in *.
  - (* a request that is not a claim *)
    pose proof (serve_effect r env db) as Heff.
    split; simpl; [exact (effect_consistent _ _ _ _ Heff Hdb)|exact Hlocks|].
    intros y ry Hin Hy. destruct (Hreads y ry Hin Hy) as (c & Hc & Hr).
    destruct (effect_stock _ _ _ _ _ c Heff Hc)
      as (c' & Hc' & _ & _ & _ & [Heq|(_ & _ & req & -> & _)]).
    + exists c'. split; [exact Hc'|congruence].
    + now elim (Hnc req).
  - (* a claim begins *)
    split; simpl; [exact Hdb| |].
    + rewrite locks_app, locks_cons; simpl. now rewrite app_nil_r.
    + intros y ry [Hin|[<-|[]]]%in_app_iff Hy; [eauto|discriminate].
  - (* a claim cannot begin *)
    now split.
  - (* a session gets the lock and its read *)
    rewrite locks_app, locks_cons in Hlocks.
    assert (concurrent.holds_lock x = false) as Hu
      by (unfold concurrent.holds_lock; now rewrite Hx).
    rewrite Hu, <- locks_app in Hlocks.
    split; simpl; [exact Hdb| |].
    + rewrite locks_app, locks_cons; simpl.
      eapply Permutation_NoDup; [apply Permutation_middle|].
      constructor; [now rewrite <- locks_app|now rewrite <- locks_app].
    + intros y ry Hin Hy. apply in_app_iff in Hin as [Hin|[<-|Hin]].
      * apply (Hreads y ry); [apply in_app_iff; now left|exact Hy].
      * simpl in *. injection Hy as <-.
        rewrite claim_locked_read_unfold in Hread.
        destruct (fails (concurrent.environment x) ClaimQueryRow); [discriminate|].
        destruct (find_coupon (concurrent.offer x) db) as [c|]; [|discriminate].
        injection Hread as <-. now exists c.
      * apply (Hreads y ry); [apply in_app_iff; right; now right|exact Hy].
  - (* the read of a session fails *)
    rewrite locks_app, locks_cons in Hlocks.
    assert (concurrent.holds_lock x = false) as Hu
      by (unfold concurrent.holds_lock; now rewrite Hx).
    rewrite Hu, <- locks_app in Hlocks.
    split; simpl; [exact Hdb|exact Hlocks|].
    intros y ry Hin Hy. apply (Hreads y ry); [|exact Hy].
    apply in_app_iff in Hin as [Hin|Hin]; apply in_app_iff; [now left|right; now right].
  - (* a session runs its last statements *)
    rewrite locks_app, locks_cons in Hlocks.
    assert (concurrent.holds_lock x = true) as Hh
      by (apply holds_lock_seen; eauto).
    rewrite Hh in Hlocks.
    pose proof (NoDup_remove_1 _ _ _ Hlocks) as Hrest.
    pose proof (NoDup_remove_2 _ _ _ Hlocks) as Hnotin.
    rewrite <- locks_app in Hrest, Hnotin.
    destruct (Hreads x r (in_elt x xs ys) Hx) as (c & Hc & Hr).
    assert (forall y ry, In y (xs ++ ys) -> concurrent.seen y = Some ry ->
              exists c', find_coupon (concurrent.offer y) db = Some c' /\
                         RemainingAmount c' = ry) as Hothers.
    { intros y ry Hin Hy. apply (Hreads y ry); [|exact Hy].
      apply in_app_iff in Hin as [Hin|Hin]; apply in_app_iff;
        [now left|right; now right]. }
    destruct (finish_effect x r db c Hc) as [->|(-> & _ & Hpos & Hnew)].
    + split; simpl; [exact Hdb|exact Hrest|exact Hothers].
    + split; simpl; [|exact Hrest|].
      * apply (consistent_claimed _ _ _ _ c); [exact Hdb|exact Hc|lia|exact Hnew].
      * intros y ry Hin Hy. rewrite find_coupon_claimed_other; [now apply Hothers|].
        intros Heq. apply Hnotin. rewrite <- Heq.
        now apply (locked_in_locks y _ ry).
Qed.

Lemma reachable_coherent (sys : concurrent.System) :
  concurrent.reachable sys -> coherent sys.
Proof.
  induction 1 as [|a b l _ IH Hstep].
  - split; simpl; [exact consistent_empty|constructor|intros ? ? []].
  - exact (step_coherent a b l Hstep IH).
Qed.


(** Requests served in turn are one of the interleavings: each claim is a
    session that begins, reads and finishes before anything else happens. *)
Lemma serve_interleaved (r : Request) (env : Env) (db : Store) :
  concurrent.reachable (concurrent.mkSystem db []) ->
  concurrent.reachable (concurrent.mkSystem (serve r env db) []).
Proof.
  intros Hdb.
  assert (forall r', (forall req, r' <> PostClaim req) ->
            concurrent.reachable (concurrent.mkSystem (serve r' env db) []))
    as Hother.
  { intros r' Hr'. eapply concurrent.reach_step; [exact Hdb|].
    apply concurrent.step_serve; [exact Hr'|intros name _ []]. }
  destruct r as [req|req|name|name]; try (apply Hother; intros; discriminate).
  rewrite serve_unfold. unfold service.ClaimCoupon.
  destruct (String.eqb (reqUserID req) ""); [exact Hdb|].
  destruct (String.eqb (reqCouponName req) ""); [exact Hdb|].
  simpl.
  destruct (fails env ClaimBegin) eqn:Hb.
  { unfold ClaimCoupon, Begin, call. rewrite Hb. exact Hdb. }
  rewrite (ClaimCoupon_by_steps _ _ _ _ Hb).
  set (x := concurrent.mkSession (reqUserID req) (reqCouponName req) env None).
  destruct (claim_locked_read (reqCouponName req) env (mkTx db db true))
    as [err|remaining] eqn:Hread; [exact Hdb|].
  eapply concurrent.reach_step;
    [|exact (concurrent.step_finish (concurrent.locked_on remaining x) remaining
               db [] [] eq_refl)].
  eapply concurrent.reach_step;
    [|exact (concurrent.step_lock x remaining db [] [] eq_refl
               (fun H : In _ [] => H) Hread)].
  eapply concurrent.reach_step; [exact Hdb|].
  exact (concurrent.step_begin (reqUserID req) (reqCouponName req) env db [] Hb).
Qed.

Lemma reachable_interleaved (db : Store) :
  reachable db -> concurrent.reachable (concurrent.mkSystem db []).
Proof.
  induction 1 as [|db r env _ IH]; [exact concurrent.reach_start|].
  now apply serve_interleaved.
Qed.

(** How a step of the interleaved system changes the stock of an offer
    that is there: not at all, or by the one unit that the step returning
    nil to a claimant of that offer takes from the positive stock its
    session has read. *)
Lemma step_stock (a b : concurrent.System) (l : concurrent.Label)
      (name : string) (c : Coupon) :
  coherent a -> concurrent.step a l b ->
  find_coupon name (concurrent.store a) = Some c ->
  exists c', find_coupon name (concurrent.store b) = Some c' /\
    Amount c' = Amount c /\
    (RemainingAmount c' = RemainingAmount c \/
     RemainingAmount c' = RemainingAmount c - 1 /\ 0 < RemainingAmount c /\
     exists x, In x (concurrent.sessions a) /\
               concurrent.seen x = Some (RemainingAmount c) /\
               l = concurrent.returned (concurrent.claimant x) name None).
Proof.
  intros [Hdb Hlocks Hreads] Hstep Hc.
  destruct Hstep as [r env db xs Hnc Hput|userID couponName env db xs Hb
                     |userID couponName env db xs Hb
                     |x r db xs ys Hx Hfree Hread|x err db xs ys Hx Hread
                     |x r db xs ys Hx]; simpl in *;
    try solve [exists c; auto].
  - destruct (effect_stock _ _ _ _ _ c (serve_effect r env db) Hc)
      as (c' & Hc' & _ & Ha & _ & [Heq|(_ & _ & req & -> & _)]).
    + exists c'. auto.
    + now elim (Hnc req).
  - destruct (Hreads x r (in_elt x xs ys) Hx) as (cx & Hcx & Hr).
    destruct (finish_effect x r db cx Hcx) as [->|(-> & -> & Hpos & Hnew)];
      [exists c; auto|].
    rewrite find_coupon_claimed, Hc. simpl. eexists. split; [reflexivity|].
    unfold take_one. destruct (named (concurrent.offer x) c) eqn:Hn; simpl; auto.
    apply named_true in Hn. pose proof (find_coupon_named _ _ _ Hc) as Hn'.
    assert (concurrent.offer x = name) as Heq by congruence.
    rewrite Heq, Hc in Hcx. injection Hcx as <-.
    split; [reflexivity|]. right. split; [reflexivity|]. split; [lia|].
    exists x. split; [apply in_elt|]. split; [congruence|now rewrite Heq].
Qed.

(** The last step of a session returns nil only when it has put a pair
    into the ledger that was not there; otherwise it leaves the store. *)
Lemma finish_cases (x : concurrent.Session) (r : Z) (db : Store) :
  (fst (concurrent.finish x r db) <> None /\
   snd (concurrent.finish x r db) = db) \/
  (fst (concurrent.finish x r db) = None /\
   has_claimed (concurrent.claimant x) (concurrent.offer x) db = false /\
   snd (concurrent.finish x r db) =
     claimed (concurrent.claimant x) (concurrent.offer x)
             (concurrent.environment x) db).
Proof.
  unfold concurrent.finish. rewrite claim_checked_unfold.
  destruct (r <=? 0); [left; split; [discriminate|reflexivity]|].
  destruct (fails (concurrent.environment x) ClaimInsertExec);
    [left; split; [discriminate|reflexivity]|].
  destruct (has_claimed (concurrent.claimant x) (concurrent.offer x) db);
    [left; split; [discriminate|reflexivity]|].
  destruct (negb (existsb (named (concurrent.offer x)) (coupons db)));
    [left; split; [discriminate|reflexivity]|].
  destruct (fails (concurrent.environment x) ClaimUpdateExec);
    [left; split; [discriminate|reflexivity]|].
  destruct (fails (concurrent.environment x) ClaimCommit);
    [left; split; [discriminate|reflexivity]|].
  right. auto.
Qed.

(** An offer that appears in a step was created by it, with its whole
    amount remaining. *)
Lemma step_new (a b : concurrent.System) (l : concurrent.Label)
      (name : string) (c' : Coupon) :
  concurrent.step a l b ->
  find_coupon name (concurrent.store a) = None ->
  find_coupon name (concurrent.store b) = Some c' ->
  RemainingAmount c' = Amount c'.
Proof.
  intros [r env db xs Hnc Hput|u n env db xs Hb|u n env db xs Hb
          |x r db xs ys Hx Hfree Hread|x err db xs ys Hx Hread
          |x r db xs ys Hx] Hf Hf'; simpl in *; try congruence.
  - destruct (effect_new _ _ _ _ name c' (serve_effect r env db) Hf Hf')
      as (req & _ & _ & ->). reflexivity.
  - destruct (finish_cases x r db) as [[_ Heq]|(_ & _ & Heq)];
      rewrite Heq in Hf'; [congruence|].
    rewrite find_coupon_claimed, Hf in Hf'. discriminate.
Qed.

Lemma step_keeps_claims (a b : concurrent.System) (l : concurrent.Label)
      (userID couponName : string) :
  concurrent.step a l b ->
  has_claimed userID couponName (concurrent.store a) = true ->
  has_claimed userID couponName (concurrent.store b) = true.
Proof.
  intros [r env db xs Hnc Hput|u n env db xs Hb|u n env db xs Hb
          |x r db xs ys Hx Hfree Hread|x err db xs ys Hx Hread
          |x r db xs ys Hx] Hk; simpl in *; auto.
  - exact (effect_keeps_claims _ _ _ _ _ _ (serve_effect r env db) Hk).
  - destruct (finish_cases x r db) as [[_ ->]|(_ & _ & ->)]; [exact Hk|].
    unfold has_claimed, claimed in *; simpl. now rewrite existsb_app, Hk.
Qed.

(** A step that returns nil for a pair finds the pair absent from the
    ledger and leaves it there. *)
Lemma step_grants_once (a b : concurrent.System) (userID couponName : string) :
  concurrent.step a (concurrent.returned userID couponName None) b ->
  has_claimed userID couponName (concurrent.store a) = false /\
  has_claimed userID couponName (concurrent.store b) = true.
Proof.
  intros Hstep. inversion Hstep as [| | | | |x r db xs ys Hx Ha [Hu Hn Herr] Hb];
    subst; simpl.
  destruct (finish_cases x r db) as [[Hne _]|(_ & Hnew & ->)];
    [now elim Hne|].
  split; [exact Hnew|apply claimed_has_claimed].
Qed.

Lemma runs_granted (a b : concurrent.System) (ls : list concurrent.Label)
      (userID couponName : string) :
  concurrent.runs a ls b ->
  (has_claimed userID couponName (concurrent.store a) = true ->
   concurrent.granted userID couponName ls = O) /\
  (concurrent.granted userID couponName ls <= 1)%nat.
Proof.
  induction 1 as [a|a b c l ls Hstep Hruns [IH0 IH1]]; simpl; [split; [reflexivity|lia]|].
  assert (has_claimed userID couponName (concurrent.store a) = true ->
          has_claimed userID couponName (concurrent.store b) = true) as Hkeep
    by apply (step_keeps_claims a b l), Hstep.
  destruct l as [|u n [e|]]; [split; [auto|exact IH1]..|].
  destruct (String.eqb u userID && String.eqb n couponName) eqn:Hpair;
    [|split; [auto|exact IH1]].
  apply andb_true_iff in Hpair as [Hu%String.eqb_eq Hn%String.eqb_eq]. subst.
  apply step_grants_once in Hstep as [Hbefore Hafter].
  split; [congruence|]. rewrite (IH0 Hafter). lia.
Qed.

Lemma runs_reachable (a b : concurrent.System) (ls : list concurrent.Label) :
  concurrent.runs a ls b -> concurrent.reachable a -> concurrent.reachable b.
Proof.
  induction 1 as [a|a b c l ls Hstep _ IH]; [auto|].
  intros Ha. apply IH. exact (concurrent.reach_step a b l Ha Hstep).
Qed.

(** ** The sample stores *)

Lemma last_unit_reachable : reachable scenario.last_unit.
Proof. apply reach_serve, reach_empty. Defined.

Lemma sold_out_reachable : reachable scenario.sold_out.
Proof. apply reach_serve, last_unit_reachable. Defined.

Lemma double_dip_reachable : reachable scenario.double_dip.
Proof. do 2 apply reach_serve. apply reach_empty. Defined.

(** The partial state a rollback discards: when the stock update fails,
    the working copy already holds the new ledger row. *)
Example rollback_discards_inserted_row :
  exists tx,
    claim_steps "user_2" "FLASH25" (scenario.update_fails 3)
      (mkTx scenario.last_unit scenario.last_unit true) =
      (Some (Errorf "error updating coupon stock" ErrBadConn), tx) /\
    claims (work tx) = [mkClaim "user_2" "FLASH25" 3] /\
    claims (committed (Rollback tx)) = [].
Proof. eexists. repeat split. Qed.

(** What the row lock is for: were two sessions to read the last unit
    before either finishes, the second UPDATE would take the stock below
    zero.  [concurrent.step] admits no such run ([step_lock] needs the row
    unlocked). *)
Example stale_read_would_oversell :
  find_coupon "FLASH25" scenario.taken_by_quick_one =
    Some (mkCoupon "FLASH25" 1 0 1 3) /\
  find_coupon "FLASH25"
    (snd (concurrent.finish scenario.early_bird 1 scenario.taken_by_quick_one)) =
    Some (mkCoupon "FLASH25" 1 (-1) 1 2).
Proof. split; reflexivity. Qed.

(** * The claims *)

(** C1.  In every reachable state of the store each offer has
    [0 <= remaining_amount <= amount], whether requests are served in turn
    or claim transactions interleave under the row lock.  Across any
    request, and across any step of an interleaving, the remaining amount
    of an existing offer never grows; it changes only through a successful
    claim of that offer, which takes exactly one unit from a positive
    stock, so it never falls below zero; creating, describing and touching
    offers leave the stock of every existing offer as it was, and an offer
    that appears was created with [remaining_amount = amount]. *)
Theorem remaining_amount_bounded_and_non_increasing :
  (forall db r env, reachable db ->
    (forall c, In c (coupons db) -> 0 <= RemainingAmount c <= Amount c) /\
    (forall c, In c (coupons (serve r env db)) ->
       0 <= RemainingAmount c <= Amount c) /\
    (forall name c, find_coupon name db = Some c ->
       exists c', find_coupon name (serve r env db) = Some c' /\
         Amount c' = Amount c /\
         0 <= RemainingAmount c' <= RemainingAmount c /\
         match r with
         | PostClaim req =>
             RemainingAmount c' = RemainingAmount c \/
             (reqCouponName req = name /\
              RemainingAmount c' = RemainingAmount c - 1)
         | _ => RemainingAmount c' = RemainingAmount c
         end) /\
    (forall name c', find_coupon name db = None ->
       find_coupon name (serve r env db) = Some c' ->
       exists req, r = PostCoupon req /\ reqName req = name /\
         Amount c' = reqAmount req /\ RemainingAmount c' = reqAmount req)) /\
  (forall a l b, concurrent.reachable a -> concurrent.step a l b ->
    (forall c, In c (coupons (concurrent.store a)) ->
       0 <= RemainingAmount c <= Amount c) /\
    (forall c, In c (coupons (concurrent.store b)) ->
       0 <= RemainingAmount c <= Amount c) /\
    (forall name c, find_coupon name (concurrent.store a) = Some c ->
       exists c', find_coupon name (concurrent.store b) = Some c' /\
         Amount c' = Amount c /\
         0 <= RemainingAmount c' <= RemainingAmount c /\
         (RemainingAmount c' = RemainingAmount c \/
          RemainingAmount c' = RemainingAmount c - 1 /\
          exists userID, l = concurrent.returned userID name None)) /\
    (forall name c', find_coupon name (concurrent.store a) = None ->
       find_coupon name (concurrent.store b) = Some c' ->
       RemainingAmount c' = Amount c')).
Proof.
  split.
  - intros db r env Hreach.
    pose proof (reachable_consistent db Hreach) as Hdb.
    pose proof (serve_effect r env db) as Heff.
    pose proof (effect_consistent _ _ _ _ Heff Hdb) as Hdb'.
    split; [exact (stock_bounds db Hdb)|].
    split; [exact (stock_bounds _ Hdb')|].
    split.
    + intros name c Hf.
      destruct (effect_stock _ _ _ _ name c Heff Hf)
        as (c' & Hf' & _ & Ha & _ & Hrem).
      exists c'. split; [exact Hf'|]. split; [exact Ha|].
      pose proof (stock_bounds _ Hdb' c' (find_coupon_In _ _ _ Hf')) as Hb.
      destruct Hrem as [Heq|(Hdec & Hpos & req & -> & Hname)].
      * split; [lia|]. destruct r; auto.
      * split; [lia|]. right. auto.
    + intros name c' Hf Hf'.
      destruct (effect_new _ _ _ _ name c' Heff Hf Hf') as (req & -> & Hn & ->).
      exists req. simpl. auto.
  - intros a l b Hreach Hstep.
    pose proof (reachable_coherent a Hreach) as Ha.
    pose proof (step_coherent a b l Hstep Ha) as Hb.
    split; [exact (stock_bounds _ (store_consistent a Ha))|].
    split; [exact (stock_bounds _ (store_consistent b Hb))|].
    split.
    + intros name c Hf.
      destruct (step_stock a b l name c Ha Hstep Hf) as (c' & Hf' & Hamt & Hrem).
      exists c'. split; [exact Hf'|]. split; [exact Hamt|].
      pose proof (stock_bounds _ (store_consistent b Hb) c'
                    (find_coupon_In _ _ _ Hf')) as Hbound.
      destruct Hrem as [Heq|(Hdec & Hpos & x & _ & _ & ->)].
      * split; [lia|now left].
      * split; [lia|]. right. split; [exact Hdec|]. now eexists.
    + intros name c'. now apply (step_new a b l).
Qed.

Lemma remaining_amount_bounded_witness :
  reachable scenario.last_unit /\
  exists c',
    find_coupon "FLASH25"
      (serve (PostClaim (mkClaimCouponRequest "user_1" "FLASH25")) (healthy 2)
             scenario.last_unit) = Some c' /\
    RemainingAmount c' = 0.
Proof.
  split; [exact last_unit_reachable|].
  destruct (proj1 remaining_amount_bounded_and_non_increasing scenario.last_unit
              (PostClaim (mkClaimCouponRequest "user_1" "FLASH25")) (healthy 2)
              last_unit_reachable) as (_ & _ & H & _).
  destruct (H "FLASH25" (mkCoupon "FLASH25" 1 1 1 1) eq_refl)
    as (c' & Hf & _ & _ & _).
  exists c'. split; [exact Hf|].
  vm_compute in Hf. injection Hf as <-. reflexivity.
Defined.

(** C2, as the code has it.  Along any sequence of requests, and along any
    interleaving of claim transactions, at most one claim of a given
    claimant for a given offer succeeds, and the ledger never holds two
    rows for one pair.  Once the row of a pair exists it stays, and every
    further claim of that pair fails and leaves the store as it is: the
    stock check comes first, so with no unit left the call returns
    [ErrNoStockAvailable]; otherwise the insert meets the uniqueness
    constraint and the call returns [ErrAlreadyClaimed] (an infrastructure
    failure apart). *)
Theorem at_most_one_claim_per_pair (userID couponName : string) :
  (forall db trace, reachable db ->
    (successes userID couponName trace db <= 1)%nat /\
    NoDup (map claim_key (claims db)) /\
    NoDup (map claim_key (claims (run trace db))) /\
    (has_claimed userID couponName db = true ->
     successes userID couponName trace db = O /\
     has_claimed userID couponName (run trace db) = true /\
     exists c, find_coupon couponName db = Some c /\
       forall env, exists e,
         ClaimCoupon userID couponName env db = (Some e, db) /\
         (fails env ClaimBegin = false -> fails env ClaimQueryRow = false ->
          fails env ClaimInsertExec = false ->
          e = if RemainingAmount c <=? 0 then ErrNoStockAvailable
              else ErrAlreadyClaimed))) /\
  (forall a ls b, concurrent.reachable a -> concurrent.runs a ls b ->
    (concurrent.granted userID couponName ls <= 1)%nat /\
    NoDup (map claim_key (claims (concurrent.store b))) /\
    (has_claimed userID couponName (concurrent.store a) = true ->
     concurrent.granted userID couponName ls = O /\
     has_claimed userID couponName (concurrent.store b) = true)).
Proof.
  split.
  - intros db trace Hreach.
    pose proof (reachable_consistent db Hreach) as Hdb.
    split; [apply successes_at_most_one|].
    split; [exact (unique_claims db Hdb)|].
    split; [exact (unique_claims _ (reachable_consistent _
                                      (run_reachable trace db Hreach)))|].
    intros Hk.
    split; [now apply no_success_once_claimed|].
    split; [now apply run_keeps_claims|].
    destruct (has_claimed_offer userID couponName db Hdb Hk) as [c Hc].
    exists c. split; [exact Hc|].
    intros env. now apply retry_outcome.
  - intros a ls b Hreach Hruns.
    destruct (runs_granted a b ls userID couponName Hruns) as [Hzero Hone].
    split; [exact Hone|].
    split.
    { apply unique_claims, store_consistent, reachable_coherent.
      exact (runs_reachable a b ls Hruns Hreach). }
    intros Hk. split; [exact (Hzero Hk)|].
    clear -Hruns Hk. induction Hruns as [a|a b c l ls Hstep _ IH]; [exact Hk|].
    apply IH. exact (step_keeps_claims a b l _ _ Hstep Hk).
Qed.

Lemma at_most_one_claim_per_pair_witness :
  reachable empty /\
  (successes "user_1" "PROMO"
     [ (healthy 1, PostCoupon (mkCreateCouponRequest "PROMO" 100));
       (healthy 2, PostClaim (mkClaimCouponRequest "user_1" "PROMO"));
       (healthy 3, PostClaim (mkClaimCouponRequest "user_1" "PROMO"));
       (healthy 4, PostClaim (mkClaimCouponRequest "user_1" "PROMO")) ]
     empty <= 1)%nat.
Proof.
  split; [exact reach_empty|].
  exact (proj1 (proj1 (at_most_one_claim_per_pair "user_1" "PROMO")
                  empty _ reach_empty)).
Defined.

(** C2 as stated fails: after "user_1" has taken the only unit of
    "FLASH25", a further claim of the pair is turned away by the stock
    check, before any insert, with [ErrNoStockAvailable]. *)
Lemma further_claim_after_sell_out :
  reachable scenario.sold_out /\
  has_claimed "user_1" "FLASH25" scenario.sold_out = true /\
  ClaimCoupon "user_1" "FLASH25" (healthy 3) scenario.sold_out =
    (Some ErrNoStockAvailable, scenario.sold_out) /\
  fst (ClaimCoupon "user_1" "FLASH25" (healthy 3) scenario.sold_out) <>
    Some ErrAlreadyClaimed.
Proof.
  split; [exact sold_out_reachable|].
  split; [reflexivity|]. split; [reflexivity|]. discriminate.
Qed.



(** C4.  A claim that returns an error, whichever it is and at whichever
    step, leaves the committed store exactly as it was: either the
    transaction never began, or the steps stopped with an error and the
    transaction, once the deferred rollback has run, is closed with
    nothing of its working copy committed. *)
Theorem failed_claim_leaves_store_unchanged
        (userID couponName : string) (env : Env) (db db' : Store) (e : error) :
  ClaimCoupon userID couponName env db = (Some e, db') ->
  db' = db /\
  claim_failure e /\
  (fails env ClaimBegin = true \/
   exists tx, claim_steps userID couponName env (mkTx db db true) = (Some e, tx) /\
     Rollback tx = mkTx db db false).
Proof.
  intros H. split; [exact (ClaimCoupon_failure _ _ _ _ _ _ H)|].
  revert H. unfold ClaimCoupon, Begin, call.
  destruct (fails env ClaimBegin) eqn:Hb.
  { intros [= <- <-]. simpl. auto. }
  unfold claim_steps, claim_locked_read, claim_checked, Commit, call;
    cbn [work committed active in_tx].
  destruct (fails env ClaimQueryRow).
  { intros [= <- <-]. split; [exact I|]. right. eexists; repeat split. }
  destruct (first_row (select_remaining_amount couponName db)) as [[]|r].
  1-3: intros [= <- <-]; split; [exact I|]; right; eexists; repeat split.
  destruct (r <=? 0).
  { intros [= <- <-]. split; [exact I|]. right. eexists; repeat split. }
  destruct (fails env ClaimInsertExec).
  { intros [= <- <-]. split; [exact I|]. right. eexists; repeat split. }
  destruct (insert_claim env userID couponName db) as [err|work1].
  { destruct (is_unique_violation err); intros [= <- <-];
      (split; [exact I|]); right; eexists; repeat split. }
  destruct (fails env ClaimUpdateExec).
  { intros [= <- <-]. split; [exact I|]. right. eexists; repeat split. }
  unfold update_remaining_amount.
  destruct (fails env ClaimCommit); [|discriminate].
  intros [= <- <-]. split; [exact I|]. right. eexists; repeat split.
Qed.

Lemma failed_claim_leaves_store_unchanged_witness :
  ClaimCoupon "user_2" "FLASH25" (scenario.update_fails 3) scenario.last_unit =
    (Some (Errorf "error updating coupon stock" ErrBadConn), scenario.last_unit) /\
  exists tx,
    claim_steps "user_2" "FLASH25" (scenario.update_fails 3)
      (mkTx scenario.last_unit scenario.last_unit true) =
      (Some (Errorf "error updating coupon stock" ErrBadConn), tx) /\
    Rollback tx = mkTx scenario.last_unit scenario.last_unit false.
Proof.
  split; [reflexivity|].
  destruct (failed_claim_leaves_store_unchanged "user_2" "FLASH25"
              (scenario.update_fails 3) scenario.last_unit scenario.last_unit
              (Errorf "error updating coupon stock" ErrBadConn) eq_refl)
    as (_ & _ & [Hbegin|Htx]).
  - discriminate Hbegin.
  - exact Htx.
Defined.



(** C6, as the code has it.  When the ledger already holds the row of a
    pair, a retried claim of that pair never succeeds and leaves the store
    as it is.  Which error it returns depends on the stock: with a unit
    left the insert is rejected and the call returns [ErrAlreadyClaimed];
    with none left the stock check returns [ErrNoStockAvailable] first. *)
Theorem retried_claim_never_succeeds
        (userID couponName : string) (db : Store) :
  reachable db -> has_claimed userID couponName db = true ->
  exists c, find_coupon couponName db = Some c /\
    0 <= RemainingAmount c /\
    forall env,
      fst (ClaimCoupon userID couponName env db) <> None /\
      snd (ClaimCoupon userID couponName env db) = db /\
      (fails env ClaimBegin = false -> fails env ClaimQueryRow = false ->
       (RemainingAmount c = 0 ->
        fst (ClaimCoupon userID couponName env db) = Some ErrNoStockAvailable) /\
       (0 < RemainingAmount c -> fails env ClaimInsertExec = false ->
        fst (ClaimCoupon userID couponName env db) = Some ErrAlreadyClaimed)).
Proof.
  intros Hreach Hk.
  pose proof (reachable_consistent db Hreach) as Hdb.
  destruct (has_claimed_offer userID couponName db Hdb Hk) as [c Hc].
  exists c. split; [exact Hc|].
  split; [apply (stock_bounds db Hdb), (find_coupon_In _ _ _ Hc)|].
  intros env.
  destruct (ClaimCoupon_outcome env db userID couponName)
    as [Hb|Hb Hq|Hb Hq Hf|c0 Hb Hq Hf Hr|c0 Hb Hq Hf Hr Hi|c0 Hb Hq Hf Hr Hi Hh
        |c0 Hb Hq Hf Hr Hi Hh Hu|c0 Hb Hq Hf Hr Hi Hh Hu Hm
        |c0 Hb Hq Hf Hr Hi Hh Hu Hm];
    try congruence; simpl; (split; [discriminate|]); (split; [reflexivity|]);
    intros Hb' Hq'; try congruence;
    assert (c0 = c) as -> by congruence;
    (split; [intros H0|intros Hpos Hi']); try reflexivity; try lia; congruence.
Qed.

Lemma retried_claim_never_succeeds_witness :
  reachable scenario.double_dip /\
  has_claimed "user_1" "PROMO" scenario.double_dip = true /\
  fst (ClaimCoupon "user_1" "PROMO" (healthy 3) scenario.double_dip) =
    Some ErrAlreadyClaimed.
Proof.
  split; [exact double_dip_reachable|]. split; [reflexivity|].
  destruct (retried_claim_never_succeeds "user_1" "PROMO" scenario.double_dip
              double_dip_reachable eq_refl) as (c & Hc & _ & H).
  vm_compute in Hc. injection Hc as <-.
  destruct (H (healthy 3)) as (_ & _ & H3).
  destruct (H3 eq_refl eq_refl) as [_ Hdup].
  apply Hdup; [reflexivity|reflexivity].
Defined.

(** C6 as stated fails: it is not so that every retry returns
    [ErrAlreadyClaimed] whatever the remaining amount; the retry of
    "user_1" on the sold-out "FLASH25" returns [ErrNoStockAvailable]. *)
Lemma retry_not_always_already_claimed :
  ~ (forall db userID couponName t,
       reachable db -> has_claimed userID couponName db = true ->
       fst (ClaimCoupon userID couponName (healthy t) db) = Some ErrAlreadyClaimed).
Proof.
  intros H.
  specialize (H scenario.sold_out "user_1" "FLASH25" 3 sold_out_reachable eq_refl).
  discriminate H.
Qed.

(** C7.  The code does not do what the claim says for an offer that does
    not exist.  [PUT /coupons/NONEXISTENT] on a store that has no such
    offer: [Update] returns zero rows affected with a nil error, the
    service passes that on, and the handler answers 200 with
    [rows_affected = 0].  The handler has a branch that answers 404 for
    [ErrCouponNotFound] (taken when the repository behind the service
    returns that error, as the handler's test programs its mock to do),
    and the sibling paths [GetCouponByName] and [ClaimCoupon] return
    [ErrCouponNotFound] for the same name on the same store; but [Update]
    returns that error for no input, so the branch is never reached. *)
Lemma touch_of_missing_offer_is_not_an_error :
  find_coupon "NONEXISTENT" scenario.last_unit = None /\
  Update "NONEXISTENT" (healthy 9) scenario.last_unit =
    ((0, None), scenario.last_unit) /\
  service.UpdateCoupon couponRepository "NONEXISTENT" (healthy 9)
    scenario.last_unit = ((0, None), scenario.last_unit) /\
  rest.UpdateCoupon couponRepository "NONEXISTENT" (healthy 9)
    scenario.last_unit =
    (rest.mkResponse 200 None (Some 0), scenario.last_unit) /\
  rest.status
    (fst (rest.UpdateCoupon
            (service.MockCouponRepository
               (service.mkMockReturns None None (inl ErrCouponNotFound)
                  (0, Some ErrCouponNotFound)))
            "NONEXISTENT" (healthy 9) [])) = 404 /\
  GetCouponByName "NONEXISTENT" (healthy 9) scenario.last_unit =
    inl ErrCouponNotFound /\
  ClaimCoupon "user_1" "NONEXISTENT" (healthy 9) scenario.last_unit =
    (Some ErrCouponNotFound, scenario.last_unit) /\
  (forall name env db, snd (fst (Update name env db)) <> Some ErrCouponNotFound).
Proof.
  repeat (split; [reflexivity|]).
  intros name env db. rewrite Update_unfold.
  destruct (fails env UpdateExec); [discriminate|].
  destruct (fails env UpdateRowsAffected); discriminate.
Qed.



(** C9, as the code has it.  Whatever the history of the store, requests
    served in turn or claim transactions interleaved, describing an
    existing offer over a healthy connection, both SELECTs answered from
    the same committed store, returns the offer's name, amount and
    remaining amount together with its claimants: every claimant of the
    offer and only those, none twice, as many as
    [amount - remaining_amount], sorted by [claimed_at], the time the
    claim's transaction began.  When the requests were served in turn by a
    clock that never ran backwards, that is the order in which the ledger
    rows were inserted. *)
Theorem describe_lists_claimants
        (name : string) (env : Env) (sys : concurrent.System) (c : Coupon) :
  concurrent.reachable sys ->
  find_coupon name (concurrent.store sys) = Some c ->
  fails env GetQueryRow = false -> fails env GetQuery = false ->
  fails env GetScan = false -> fails env GetRowsErr = false ->
  exists view,
    GetCouponByName name env (concurrent.store sys) = inr view /\
    respName view = name /\
    respAmount view = Amount c /\
    respRemainingAmount view = RemainingAmount c /\
    Z.of_nat (List.length (respClaimedBy view)) = Amount c - RemainingAmount c /\
    NoDup (respClaimedBy view) /\
    (forall userID, In userID (respClaimedBy view) <->
                    has_claimed userID name (concurrent.store sys) = true) /\
    (exists rows, respClaimedBy view = map UserID rows /\
       Permutation rows
         (filter (claimed_for name) (claims (concurrent.store sys))) /\
       Sorted earlier rows) /\
    (forall t, reachable_at t (concurrent.store sys) ->
       respClaimedBy view = claimants_of name (concurrent.store sys)).
Proof.
  intros Hreach Hc Hq1 Hq2 Hs Hr.
  destruct sys as [db xs]; simpl in *.
  pose proof (store_consistent _ (reachable_coherent _ Hreach)) as Hdb;
    simpl in Hdb.
  pose proof (order_by_claimed_at_perm (filter (claimed_for name) (claims db)))
    as Hperm.
  rewrite GetCouponByName_unfold, Hq1, Hc, Hq2, scan_rows_unfold, Hs, Hr.
  assert (match select_claimants name db with
          | [] => inr []
          | _ :: _ => inr ([] ++ select_claimants name db)
          end = (inr (select_claimants name db) : error + list string)) as ->
    by now destruct (select_claimants name db).
  eexists. split; [reflexivity|]. simpl. unfold select_claimants.
  split; [exact (find_coupon_named _ _ _ Hc)|].
  split; [reflexivity|]. split; [reflexivity|].
  split.
  { rewrite length_map, (Permutation_length Hperm).
    pose proof (stock_accounts db Hdb c (find_coupon_In _ _ _ Hc)) as Ha.
    rewrite (find_coupon_named _ _ _ Hc) in Ha. exact Ha. }
  split.
  { eapply Permutation_NoDup.
    - apply Permutation_map, Permutation_sym, Hperm.
    - apply distinct_claimants, (unique_claims db Hdb). }
  split.
  { intros userID. rewrite <- claimants_has_claimed. unfold claimants_of.
    split; apply Permutation_in, Permutation_map;
      [exact Hperm|apply Permutation_sym, Hperm]. }
  split.
  { eexists. split; [reflexivity|]. split; [exact Hperm|].
    apply order_by_claimed_at_sorted. }
  intros t Ht. unfold claimants_of. f_equal.
  apply order_by_claimed_at_id, filter_sorted.
  exact (proj1 (reachable_at_chronological t db Ht)).
Qed.

Lemma describe_lists_claimants_witness :
  concurrent.reachable (concurrent.mkSystem scenario.double_dip []) /\
  find_coupon "PROMO" scenario.double_dip = Some (mkCoupon "PROMO" 100 99 1 2) /\
  exists view,
    GetCouponByName "PROMO" (healthy 3) scenario.double_dip = inr view /\
    respClaimedBy view = ["user_1"].
Proof.
  split; [exact (reachable_interleaved _ double_dip_reachable)|].
  split; [reflexivity|].
  destruct (describe_lists_claimants "PROMO" (healthy 3)
              (concurrent.mkSystem scenario.double_dip [])
              (mkCoupon "PROMO" 100 99 1 2)
              (reachable_interleaved _ double_dip_reachable)
              eq_refl eq_refl eq_refl eq_refl eq_refl)
    as (view & Hview & _).
  exists view. split; [exact Hview|].
  vm_compute in Hview. injection Hview as <-. reflexivity.
Defined.

(** C9 as stated fails: claims that overlapped are not listed in the order
    of their insertion.  "user_1" begins a claim of "DUO" at 2, "user_2" at
    3; "user_2" is first to get the row lock and its row enters the ledger
    first, "user_1" follows.  With no claim left in flight the ledger reads
    "user_2", "user_1", and the describe, ordering by [claimed_at], returns
    "user_1", "user_2". *)
Lemma overlapping_claims_are_listed_by_begin_time :
  concurrent.reachable (concurrent.mkSystem scenario.overtaken []) /\
  claimants_of "DUO" scenario.overtaken = ["user_2"; "user_1"] /\
  GetCouponByName "DUO" (healthy 4) scenario.overtaken =
    inr (mkCouponDetailResponse "DUO" 2 0 ["user_1"; "user_2"]).
Proof.
  split; [|split; reflexivity].
  eapply concurrent.reach_step;
    [|exact (concurrent.step_finish (concurrent.locked_on 1 scenario.slow) 1
               scenario.fast_first [] [] eq_refl)].
  eapply concurrent.reach_step;
    [|exact (concurrent.step_lock scenario.slow 1 scenario.fast_first [] []
               eq_refl (fun H : In "DUO" [] => H) eq_refl)].
  eapply concurrent.reach_step;
    [|exact (concurrent.step_finish (concurrent.locked_on 2 scenario.fast) 2
               scenario.two_units [scenario.slow] [] eq_refl)].
  eapply concurrent.reach_step;
    [|exact (concurrent.step_lock scenario.fast 2 scenario.two_units
               [scenario.slow] [] eq_refl (fun H : In "DUO" [] => H) eq_refl)].
  eapply concurrent.reach_step;
    [|exact (concurrent.step_begin "user_2" "DUO" (healthy 3)
               scenario.two_units [scenario.slow] eq_refl)].
  eapply concurrent.reach_step;
    [|exact (concurrent.step_begin "user_1" "DUO" (healthy 2)
               scenario.two_units [] eq_refl)].
  exact (reachable_interleaved _ (reach_serve empty _ _ reach_empty)).
Qed.

(** C10.  Whatever implementation of the repository the service is built
    over, and whatever state it is in, a create request with an empty name
    or a non-positive amount, a claim request with an empty user id or an
    empty coupon name, and a describe or touch request with an empty name
    return the service's own validation error and hand back the state they
    were given: no method of the repository is called. *)
Theorem invalid_requests_never_reach_the_repository
        (S : Type) (repo : CouponRepository S) (env : Env) (s : S) :
  (forall req, reqName req = "" \/ reqAmount req <= 0 ->
     exists msg, service.CreateCoupon repo req env s = (Some (New msg), s) /\
       msg = if String.eqb (reqName req) "" then "coupon name is required"
             else "coupon amount must be greater than 0") /\
  (forall req, reqUserID req = "" \/ reqCouponName req = "" ->
     exists msg, service.ClaimCoupon repo req env s = (Some (New msg), s) /\
       msg = if String.eqb (reqUserID req) "" then "user_id is required"
             else "coupon_name is required") /\
  service.GetCouponDetails repo "" env s =
    (inl (New "coupon name is required"), s) /\
  service.UpdateCoupon repo "" env s =
    ((0, Some (New "coupon name is required")), s).
Proof.
  split; [|split; [|split; reflexivity]].
  - intros req H. unfold service.CreateCoupon.
    destruct (String.eqb_spec (reqName req) "") as [Hn|Hn]; [eauto|].
    destruct H as [H|H]; [contradiction|].
    destruct (Z.leb_spec (reqAmount req) 0); [eauto|lia].
  - intros req H. unfold service.ClaimCoupon.
    destruct (String.eqb_spec (reqUserID req) "") as [Hu|Hu]; [eauto|].
    destruct H as [H|H]; [contradiction|].
    rewrite H. simpl. eauto.
Qed.

(** Over the recording mock of the service tests: the claim with an empty
    coupon name is refused and no call is recorded. *)
Lemma invalid_requests_never_reach_the_repository_witness :
  exists msg,
    service.ClaimCoupon (service.MockCouponRepository scenario.agreeable)
      (mkClaimCouponRequest "user_1" "") (healthy 1) [] = (Some (New msg), []) /\
    msg = "coupon_name is required".
Proof.
  destruct (invalid_requests_never_reach_the_repository (list service.MockCall)
              (service.MockCouponRepository scenario.agreeable) (healthy 1) [])
    as (_ & H & _).
  exact (H (mkClaimCouponRequest "user_1" "") (or_intror eq_refl)).
Defined.

(** * Further properties *)

(** No oversell.  In every reachable store the ledger rows of an offer are
    as many as the units taken from it, [amount - remaining_amount], and
    never more than its amount. *)
Theorem ledger_accounts_for_the_stock (db : Store) (c : Coupon) :
  reachable db -> In c (coupons db) ->
  count_rows (claimed_for (Name c)) (claims db) = Amount c - RemainingAmount c /\
  0 <= count_rows (claimed_for (Name c)) (claims db) <= Amount c.
Proof.
  intros Hdb%reachable_consistent Hin.
  pose proof (stock_accounts db Hdb c Hin) as Ha.
  pose proof (stock_bounds db Hdb c Hin) as Hb.
  split; [exact Ha|lia].
Qed.

Lemma ledger_accounts_for_the_stock_witness :
  reachable scenario.double_dip /\
  In (mkCoupon "PROMO" 100 99 1 2) (coupons scenario.double_dip) /\
  count_rows (claimed_for "PROMO") (claims scenario.double_dip) = 100 - 99.
Proof.
  split; [exact double_dip_reachable|]. split; [left; reflexivity|].
  exact (proj1 (ledger_accounts_for_the_stock scenario.double_dip
                  (mkCoupon "PROMO" 100 99 1 2) double_dip_reachable
                  (or_introl eq_refl))).
Defined.

(** However claim transactions interleave under the row lock, the store
    keeps the schema's constraints and the stock accounting: no offer is
    oversold and no pair is in the ledger twice. *)
Theorem interleaved_claims_keep_the_invariants (sys : concurrent.System) :
  concurrent.reachable sys ->
  (forall c, In c (coupons (concurrent.store sys)) ->
     0 <= RemainingAmount c <= Amount c /\
     count_rows (claimed_for (Name c)) (claims (concurrent.store sys)) =
       Amount c - RemainingAmount c) /\
  NoDup (map claim_key (claims (concurrent.store sys))) /\
  (forall x r, In x (concurrent.sessions sys) -> concurrent.seen x = Some r ->
     exists c, find_coupon (concurrent.offer x) (concurrent.store sys) = Some c /\
               RemainingAmount c = r).
Proof.
  intros [Hdb _ Hreads]%reachable_coherent. split; [|split].
  - intros c Hin.
    split; [exact (stock_bounds _ Hdb c Hin)|exact (stock_accounts _ Hdb c Hin)].
  - exact (unique_claims _ Hdb).
  - exact Hreads.
Qed.

(** Two claims of the last unit, interleaved: "user_1" begins first,
    "user_2" gets the lock first and takes the unit, "user_1" then reads
    zero and is turned away. *)
Lemma interleaved_claims_keep_the_invariants_witness :
  concurrent.reachable
    (concurrent.mkSystem scenario.taken_by_quick_one
       [concurrent.locked_on 0 scenario.early_bird]) /\
  find_coupon "FLASH25" scenario.taken_by_quick_one =
    Some (mkCoupon "FLASH25" 1 0 1 3) /\
  NoDup (map claim_key (claims scenario.taken_by_quick_one)).
Proof.
  assert (concurrent.reachable
            (concurrent.mkSystem scenario.taken_by_quick_one
               [concurrent.locked_on 0 scenario.early_bird])) as Hreach.
  { eapply concurrent.reach_step;
      [|exact (concurrent.step_lock scenario.early_bird 0
                 scenario.taken_by_quick_one [] [] eq_refl
                 (fun H : In "FLASH25" [] => H) eq_refl)].
    eapply concurrent.reach_step;
      [|exact (concurrent.step_finish
                 (concurrent.locked_on 1 scenario.quick_one) 1
                 scenario.last_unit [scenario.early_bird] [] eq_refl)].
    eapply concurrent.reach_step;
      [|exact (concurrent.step_lock scenario.quick_one 1 scenario.last_unit
                 [scenario.early_bird] [] eq_refl
                 (fun H : In "FLASH25" [] => H) eq_refl)].
    eapply concurrent.reach_step;
      [|exact (concurrent.step_begin "user_2" "FLASH25" (healthy 3)
                 scenario.last_unit [scenario.early_bird] eq_refl)].
    eapply concurrent.reach_step;
      [|exact (concurrent.step_begin "user_1" "FLASH25" (healthy 2)
                 scenario.last_unit [] eq_refl)].
    eapply concurrent.reach_step; [exact concurrent.reach_start|].
    apply (concurrent.step_serve
             (PostCoupon (mkCreateCouponRequest "FLASH25" 1)) (healthy 1) empty []).
    - intros req. discriminate.
    - intros name. discriminate. }
  split; [exact Hreach|]. split; [reflexivity|].
  exact (proj1 (proj2 (interleaved_claims_keep_the_invariants _ Hreach))).
Defined.

(** ** The scenarios of the spec, served in turn *)

(** Scenario A: 5 claims are answered 200, the other 45 are refused for
    lack of stock (400), and the offer ends with nothing left and the first
    five claimants in its list. *)
Example flash_sale_outcome :
  count_of 200 (tl (answers scenario.flash_sale empty)) = 5%nat /\
  count_of 400 (tl (answers scenario.flash_sale empty)) = 45%nat /\
  GetCouponByName "FLASH" (healthy 60) (run scenario.flash_sale empty) =
    inr (mkCouponDetailResponse "FLASH" 5 0
           ["user_1"; "user_2"; "user_3"; "user_4"; "user_5"]).
Proof. vm_compute. repeat split. Qed.

(** Scenario B: one claim is answered 200, the other 9 are refused as
    already claimed (409), and 99 units remain. *)
Example ten_tries_outcome :
  answers scenario.ten_tries empty = 201 :: 200 :: repeat 409 9 /\
  GetCouponByName "PROMO" (healthy 60) (run scenario.ten_tries empty) =
    inr (mkCouponDetailResponse "PROMO" 100 99 ["user_1"]).
Proof. vm_compute. repeat split. Qed.

(** Scenario C: claiming or describing an offer that does not exist is
    answered 404. *)
Example unknown_offer_outcome :
  rest.handle couponRepository
    (PostClaim (mkClaimCouponRequest "user_1" "nonexistent")) (healthy 1) empty =
    (rest.respond 404, empty) /\
  rest.handle couponRepository (GetCoupon "nonexistent") (healthy 1) empty =
    (rest.respond 404, empty).
Proof. split; reflexivity. Qed.

(** * The rest of the repository's behaviour *)

(** ** One call of [ClaimCoupon], branch by branch *)

Lemma ClaimCoupon_unfold (userID couponName : string) (env : Env) (db : Store) :
  ClaimCoupon userID couponName env db =
  if fails env ClaimBegin
  then (Some (Errorf "error starting transaction" ErrBadConn), db)
  else if fails env ClaimQueryRow
  then (Some (Errorf "error checking coupon" ErrBadConn), db)
  else match find_coupon couponName db with
       | None => (Some ErrCouponNotFound, db)
       | Some c =>
         if RemainingAmount c <=? 0 then (Some ErrNoStockAvailable, db)
         else if fails env ClaimInsertExec
         then (Some (Errorf "error creating claim" ErrBadConn), db)
         else if has_claimed userID couponName db
         then (Some ErrAlreadyClaimed, db)
         else if fails env ClaimUpdateExec
         then (Some (Errorf "error updating coupon stock" ErrBadConn), db)
         else if fails env ClaimCommit
         then (Some (Errorf "error committing transaction" ErrBadConn), db)
         else (None, claimed userID couponName env db)
       end.
Proof.
  unfold ClaimCoupon, Begin, call.
  destruct (fails env ClaimBegin); [reflexivity|].
  unfold claim_steps. rewrite claim_locked_read_unfold.
  destruct (fails env ClaimQueryRow); [reflexivity|].
  destruct (find_coupon couponName db) as [c|] eqn:Hc; [|reflexivity].
  rewrite claim_checked_unfold, (find_coupon_exists _ _ _ Hc). reflexivity.
Qed.

Lemma has_claimed_claimed_other (userID couponName u n : string) (env : Env)
      (db : Store) :
  n <> couponName ->
  has_claimed userID couponName (claimed u n env db) =
  has_claimed userID couponName db.
Proof.
  intros Hne. unfold has_claimed, claimed; simpl. rewrite existsb_app; simpl.
  unfold claim_of at 2; simpl.
  destruct (String.eqb_spec n couponName) as [Heq|_]; [contradiction|].
  now rewrite andb_false_r, !orb_false_r.
Qed.

Lemma take_one_commute (env1 env2 : Env) (n1 n2 : string) (c : Coupon) :
  n1 <> n2 ->
  take_one env2 n2 (take_one env1 n1 c) = take_one env1 n1 (take_one env2 n2 c).
Proof.
  intros Hne. unfold take_one, named.
  destruct (String.eqb_spec (Name c) n1) as [H1|H1];
    destruct (String.eqb_spec (Name c) n2) as [H2|H2]; simpl;
    try congruence.
  - destruct (String.eqb_spec (Name c) n2); [congruence|].
    destruct (String.eqb_spec (Name c) n1); [reflexivity|congruence].
  - destruct (String.eqb_spec (Name c) n1); [congruence|].
    destruct (String.eqb_spec (Name c) n2); [reflexivity|congruence].
  - destruct (String.eqb_spec (Name c) n1); [congruence|].
    destruct (String.eqb_spec (Name c) n2); [congruence|reflexivity].
Qed.

Lemma ClaimCoupon_store (userID couponName : string) (env : Env) (db : Store) :
  snd (ClaimCoupon userID couponName env db) =
  match fst (ClaimCoupon userID couponName env db) with
  | None => claimed userID couponName env db
  | Some _ => db
  end.
Proof. now destruct (ClaimCoupon_outcome env db userID couponName). Qed.

(** What a claim returns depends on its own offer and its own pair only. *)
Lemma ClaimCoupon_after_other (u n u' n' : string) (e e' : Env) (db : Store) :
  n <> n' ->
  fst (ClaimCoupon u' n' e' (snd (ClaimCoupon u n e db))) =
  fst (ClaimCoupon u' n' e' db).
Proof.
  intros Hn. rewrite (ClaimCoupon_store u n e db).
  destruct (fst (ClaimCoupon u n e db)); [reflexivity|].
  rewrite !(ClaimCoupon_unfold u' n' e').
  rewrite find_coupon_claimed_other by congruence.
  rewrite has_claimed_claimed_other by exact Hn.
  destruct (fails e' ClaimBegin); [reflexivity|].
  destruct (fails e' ClaimQueryRow); [reflexivity|].
  destruct (find_coupon n' db) as [c|]; [|reflexivity].
  destruct (RemainingAmount c <=? 0); [reflexivity|].
  destruct (fails e' ClaimInsertExec); [reflexivity|].
  destruct (has_claimed u' n' db); [reflexivity|].
  destruct (fails e' ClaimUpdateExec); [reflexivity|].
  now destruct (fails e' ClaimCommit).
Qed.

(** Claims of different offers do not meet: neither changes what the other
    returns, and in either order they leave the same offers and the same
    ledger rows. *)
Theorem claims_of_different_offers_commute
        (u1 n1 u2 n2 : string) (env1 env2 : Env) (db : Store) :
  n1 <> n2 ->
  fst (ClaimCoupon u2 n2 env2 (snd (ClaimCoupon u1 n1 env1 db))) =
    fst (ClaimCoupon u2 n2 env2 db) /\
  fst (ClaimCoupon u1 n1 env1 (snd (ClaimCoupon u2 n2 env2 db))) =
    fst (ClaimCoupon u1 n1 env1 db) /\
  coupons (snd (ClaimCoupon u2 n2 env2 (snd (ClaimCoupon u1 n1 env1 db)))) =
    coupons (snd (ClaimCoupon u1 n1 env1 (snd (ClaimCoupon u2 n2 env2 db)))) /\
  Permutation
    (claims (snd (ClaimCoupon u2 n2 env2 (snd (ClaimCoupon u1 n1 env1 db)))))
    (claims (snd (ClaimCoupon u1 n1 env1 (snd (ClaimCoupon u2 n2 env2 db))))).
Proof.
  intros Hne.
  pose proof (ClaimCoupon_after_other u1 n1 u2 n2 env1 env2 db Hne) as E12.
  pose proof (ClaimCoupon_after_other u2 n2 u1 n1 env2 env1 db (not_eq_sym Hne))
    as E21.
  split; [exact E12|]. split; [exact E21|].
  rewrite (ClaimCoupon_store u2 n2 env2 (snd (ClaimCoupon u1 n1 env1 db))), E12.
  rewrite (ClaimCoupon_store u1 n1 env1 (snd (ClaimCoupon u2 n2 env2 db))), E21.
  rewrite (ClaimCoupon_store u1 n1 env1 db), (ClaimCoupon_store u2 n2 env2 db).
  destruct (fst (ClaimCoupon u1 n1 env1 db));
    destruct (fst (ClaimCoupon u2 n2 env2 db)); try (split; reflexivity).
  unfold claimed; simpl. split.
  - rewrite !map_map. apply map_ext. intros c. now apply take_one_commute.
  - rewrite <- !app_assoc. apply Permutation_app_head. apply perm_swap.
Qed.

Lemma claims_of_different_offers_commute_witness :
  "PROMO" <> "FLASH25" /\
  fst (ClaimCoupon "user_1" "FLASH25" (healthy 5)
         (snd (ClaimCoupon "user_2" "PROMO" (healthy 4) scenario.double_dip))) =
  fst (ClaimCoupon "user_1" "FLASH25" (healthy 5) scenario.double_dip).
Proof.
  split; [discriminate|].
  apply (claims_of_different_offers_commute "user_2" "PROMO" "user_1" "FLASH25").
  discriminate.
Defined.

(** ** Writing and reading back *)

Lemma GetCouponByName_healthy (name : string) (env : Env) (db : Store) (c : Coupon) :
  fails env GetQueryRow = false -> fails env GetQuery = false ->
  fails env GetScan = false -> fails env GetRowsErr = false ->
  find_coupon name db = Some c ->
  GetCouponByName name env db =
  inr (mkCouponDetailResponse (Name c) (Amount c) (RemainingAmount c)
         (select_claimants name db)).
Proof.
  intros H1 H2 H3 H4 Hc.
  rewrite GetCouponByName_unfold, H1, Hc, H2, scan_rows_unfold, H3, H4.
  now destruct (select_claimants name db).
Qed.

Lemma select_claimants_perm (name : string) (db : Store) :
  Permutation (select_claimants name db) (claimants_of name db).
Proof.
  unfold select_claimants, claimants_of.
  apply Permutation_map, order_by_claimed_at_perm.
Qed.

Lemma filter_none {A : Type} (p : A -> bool) (l : list A) :
  existsb p l = false -> filter p l = [].
Proof.
  induction l as [|h l IH]; simpl; [reflexivity|].
  intros [Hh Hl]%orb_false_iff. rewrite Hh. now apply IH.
Qed.

Lemma claimants_of_claimed (name userID couponName : string) (env : Env)
      (db : Store) :
  claimants_of name (claimed userID couponName env db) =
  claimants_of name db ++
  (if String.eqb couponName name then [userID] else []).
Proof.
  unfold claimants_of, claimed; simpl. rewrite filter_app, map_app; simpl.
  unfold claimed_for at 2; simpl. now destruct (String.eqb couponName name).
Qed.



(** After a successful claim the offer is described with one unit less and
    one claimant more, the new claimant among them. *)
Theorem claimed_offer_is_described
        (userID couponName : string) (env env' : Env) (db db' : Store) :
  reachable db ->
  ClaimCoupon userID couponName env db = (None, db') ->
  fails env' GetQueryRow = false -> fails env' GetQuery = false ->
  fails env' GetScan = false -> fails env' GetRowsErr = false ->
  exists c before after,
    find_coupon couponName db = Some c /\
    GetCouponByName couponName env' db =
      inr (mkCouponDetailResponse couponName (Amount c) (RemainingAmount c) before) /\
    GetCouponByName couponName env' db' =
      inr (mkCouponDetailResponse couponName (Amount c) (RemainingAmount c - 1)
             after) /\
    Permutation after (userID :: before) /\
    ~ In userID before /\
    (forall t, reachable_at t db -> t <= now env -> after = before ++ [userID]).
Proof.
  intros Hreach Hclaim H1 H2 H3 H4.
  revert Hclaim.
  destruct (ClaimCoupon_outcome env db userID couponName)
    as [| | | | | | | |c Hb Hq Hc Hpos Hi Hnew Hu Hm];
    intros Hclaim; try discriminate Hclaim.
  injection Hclaim as <-.
  assert (find_coupon couponName (claimed userID couponName env db) =
          Some (take_one env couponName c)) as Hc'
    by (rewrite find_coupon_claimed, Hc; reflexivity).
  pose proof (find_coupon_named _ _ _ Hc) as Hname.
  exists c, (select_claimants couponName db),
         (select_claimants couponName (claimed userID couponName env db)).
  split; [exact Hc|].
  split; [rewrite (GetCouponByName_healthy _ _ _ _ H1 H2 H3 H4 Hc), Hname;
          reflexivity|].
  split.
  { rewrite (GetCouponByName_healthy _ _ _ _ H1 H2 H3 H4 Hc').
    unfold take_one. rewrite (proj2 (named_true _ _) Hname). simpl.
    now rewrite Hname. }
  split.
  { rewrite !select_claimants_perm, claimants_of_claimed, String.eqb_refl.
    symmetry. apply Permutation_cons_append. }
  split.
  { rewrite select_claimants_perm, claimants_has_claimed. congruence. }
  intros t Ht Hle.
  pose proof (reachable_at_chronological t db Ht) as Hchron.
  pose proof (effect_chronological db (claimed userID couponName env db) env
                (PostClaim (mkClaimCouponRequest userID couponName)) t
                (effect_claimed db env (mkClaimCouponRequest userID couponName)
                   c Hc Hpos Hnew) Hle Hchron) as Hchron'.
  unfold select_claimants.
  rewrite (order_by_claimed_at_id _ (filter_sorted _ _ (proj1 Hchron))).
  rewrite (order_by_claimed_at_id _ (filter_sorted _ _ (proj1 Hchron'))).
  fold (claimants_of couponName db).
  fold (claimants_of couponName (claimed userID couponName env db)).
  now rewrite claimants_of_claimed, String.eqb_refl.
Qed.

Lemma claimed_offer_is_described_witness :
  reachable scenario.last_unit /\
  ClaimCoupon "user_1" "FLASH25" (healthy 2) scenario.last_unit =
    (None, scenario.sold_out) /\
  GetCouponByName "FLASH25" (healthy 3) scenario.sold_out =
    inr (mkCouponDetailResponse "FLASH25" 1 0 ["user_1"]).
Proof.
  split; [exact last_unit_reachable|]. split; [reflexivity|].
  destruct (claimed_offer_is_described "user_1" "FLASH25" (healthy 2) (healthy 3)
              scenario.last_unit scenario.sold_out last_unit_reachable
              eq_refl eq_refl eq_refl eq_refl eq_refl)
    as (c & before & after & Hc & _ & Hafter & _).
  vm_compute in Hc. injection Hc as <-. rewrite Hafter.
  vm_compute in Hafter. injection Hafter as <-. reflexivity.
Defined.

(** ** Calls for one offer under any interleaving *)

(** What a returning call has done, by what it returns. *)
Lemma step_returned (a b : concurrent.System) (userID couponName : string)
      (err : option error) (c : Coupon) :
  coherent a -> concurrent.step a (concurrent.returned userID couponName err) b ->
  find_coupon couponName (concurrent.store a) = Some c ->
  (err = None /\ 0 < RemainingAmount c /\
   has_claimed userID couponName (concurrent.store a) = false /\
   exists env, concurrent.store b =
               claimed userID couponName env (concurrent.store a)) \/
  (concurrent.store b = concurrent.store a /\
   (wrapped err = true \/
    (err = Some ErrNoStockAvailable /\ RemainingAmount c <= 0) \/
    (err = Some ErrAlreadyClaimed /\ 0 < RemainingAmount c /\
     has_claimed userID couponName (concurrent.store a) = true))).
Proof.
  intros [Hdb Hlocks Hreads] Hstep Hc.
  remember (concurrent.returned userID couponName err) as l eqn:Hl.
  destruct Hstep as [r env db xs Hnc Hput|u n env db xs Hb
                     |u n env db xs Hb
                     |x r db xs ys Hx Hfree Hread|x e db xs ys Hx Hread
                     |x r db xs ys Hx]; simpl in *;
    try discriminate Hl; injection Hl as Hu Hn He; subst userID couponName err.
  - right. split; [reflexivity|]. now left.
  - right. split; [reflexivity|]. left.
    rewrite claim_locked_read_unfold, Hc in Hread.
    destruct (fails (concurrent.environment x) ClaimQueryRow);
      [|discriminate Hread].
    now injection Hread as <-.
  - destruct (Hreads x r (in_elt x xs ys) Hx) as (cx & Hcx & Hr).
    rewrite Hc in Hcx. injection Hcx as <-. subst r.
    unfold concurrent.finish. rewrite claim_checked_unfold.
    rewrite (find_coupon_exists _ _ _ Hc). cbn [negb].
    destruct (Z.leb_spec (RemainingAmount c) 0) as [Hr|Hr];
      [right; split; [reflexivity|right; left; auto]|].
    destruct (fails (concurrent.environment x) ClaimInsertExec);
      [right; split; [reflexivity|now left]|].
    destruct (has_claimed (concurrent.claimant x) (concurrent.offer x) db) eqn:Hh;
      [right; split; [reflexivity|right; right; auto]|].
    destruct (fails (concurrent.environment x) ClaimUpdateExec);
      [right; split; [reflexivity|now left]|].
    destruct (fails (concurrent.environment x) ClaimCommit);
      [right; split; [reflexivity|now left]|].
    left. simpl. repeat split; auto. now exists (concurrent.environment x).
Qed.

Lemma has_claimed_claimed (userID couponName u n : string) (env : Env)
      (db : Store) :
  has_claimed userID couponName (claimed u n env db) =
  has_claimed userID couponName db ||
  (String.eqb u userID && String.eqb n couponName).
Proof.
  unfold has_claimed, claimed; simpl. rewrite existsb_app; simpl.
  unfold claim_of at 2; simpl. now rewrite orb_false_r.
Qed.

Lemma serve_claims_other (r : Request) (env : Env) (db : Store) :
  (forall req, r <> PostClaim req) -> claims (serve r env db) = claims db.
Proof.
  generalize (serve_effect r env db). generalize (serve r env db).
  intros db' Heff Hnc.
  destruct Heff as [r|req Hn Ha Hf|req c Hc Hp Hh|name]; try reflexivity.
  now elim (Hnc req).
Qed.

(** A pair enters the ledger only by the step that returns nil to its
    claimant. *)
Lemma step_claims_new (a b : concurrent.System) (l : concurrent.Label)
      (userID couponName : string) :
  concurrent.step a l b ->
  has_claimed userID couponName (concurrent.store b) = true ->
  has_claimed userID couponName (concurrent.store a) = true \/
  l = concurrent.returned userID couponName None.
Proof.
  intros Hstep.
  destruct Hstep as [r env db xs Hnc Hput|u n env db xs Hb
                     |u n env db xs Hb
                     |x r db xs ys Hx Hfree Hread|x e db xs ys Hx Hread
                     |x r db xs ys Hx]; simpl; auto.
  - unfold has_claimed. rewrite (serve_claims_other r env db Hnc). auto.
  - destruct (finish_cases x r db) as [[_ ->]|(-> & _ & ->)]; [auto|].
    rewrite has_claimed_claimed.
    intros [H|[Hu%String.eqb_eq Hn%String.eqb_eq]%andb_true_iff]%orb_true_iff;
      [now left|right; now subst].
Qed.

Lemma calls_for_other (couponName : string) (l : concurrent.Label)
      (ls : list concurrent.Label) :
  (forall userID err, l <> concurrent.returned userID couponName err) ->
  calls_for couponName (l :: ls) = calls_for couponName ls.
Proof.
  intros Hl. destruct l as [|u n err]; simpl; [reflexivity|].
  destruct (String.eqb_spec n couponName) as [->|_]; [|reflexivity].
  now elim (Hl u err).
Qed.

Lemma calls_for_returned (userID couponName : string) (err : option error)
      (ls : list concurrent.Label) :
  calls_for couponName (concurrent.returned userID couponName err :: ls) =
  (userID, err) :: calls_for couponName ls.
Proof. simpl. now rewrite String.eqb_refl. Qed.

Lemma label_cases (couponName : string) (l : concurrent.Label) :
  (exists userID err, l = concurrent.returned userID couponName err) \/
  (forall userID err, l <> concurrent.returned userID couponName err).
Proof.
  destruct l as [|u n err]; [right; discriminate|].
  destruct (String.eqb_spec n couponName) as [->|Hne]; [left; eauto|].
  right. intros userID e [= _ Hn _]. contradiction.
Qed.

(** A step that does not return a call for the offer leaves its stock and
    its ledger rows. *)
Lemma step_other (a b : concurrent.System) (l : concurrent.Label)
      (couponName : string) (c : Coupon) :
  coherent a -> concurrent.step a l b ->
  (forall userID err, l <> concurrent.returned userID couponName err) ->
  find_coupon couponName (concurrent.store a) = Some c ->
  (exists c', find_coupon couponName (concurrent.store b) = Some c' /\
              Amount c' = Amount c /\ RemainingAmount c' = RemainingAmount c) /\
  (forall userID,
     has_claimed userID couponName (concurrent.store b) =
     has_claimed userID couponName (concurrent.store a)).
Proof.
  intros Ha Hstep Hl Hc. split.
  - destruct (step_stock a b l couponName c Ha Hstep Hc)
      as (c' & Hc' & Hamount & [Hr|(_ & _ & x & _ & _ & ->)]).
    + exists c'. auto.
    + now elim (Hl (concurrent.claimant x) None).
  - intros userID.
    destruct (has_claimed userID couponName (concurrent.store a)) eqn:Hh.
    + exact (step_keeps_claims a b l userID couponName Hstep Hh).
    + destruct (has_claimed userID couponName (concurrent.store b)) eqn:Hh';
        [|reflexivity].
      destruct (step_claims_new a b l userID couponName Hstep Hh') as [H| ->];
        [congruence|].
      now elim (Hl userID None).
Qed.

Lemma find_coupon_taken (userID couponName : string) (env : Env) (db : Store)
      (c : Coupon) :
  find_coupon couponName db = Some c ->
  exists c', find_coupon couponName (claimed userID couponName env db) = Some c' /\
             Amount c' = Amount c /\ RemainingAmount c' = RemainingAmount c - 1.
Proof.
  intros Hc. rewrite find_coupon_claimed, Hc. simpl. eexists.
  split; [reflexivity|]. unfold take_one.
  rewrite (proj2 (named_true _ _) (find_coupon_named _ _ _ Hc)). now simpl.
Qed.

Lemma coherent_stock (a : concurrent.System) (couponName : string) (c : Coupon) :
  coherent a -> find_coupon couponName (concurrent.store a) = Some c ->
  0 <= RemainingAmount c <= Amount c.
Proof.
  intros [Hdb _ _] Hc. exact (stock_bounds _ Hdb c (find_coupon_In _ _ _ Hc)).
Qed.

(** Calls by distinct claimants who have not claimed the offer: as many
    are granted as the stock allows, the others are told there is no stock. *)
Lemma runs_distinct_calls (a b : concurrent.System) (ls : list concurrent.Label)
      (couponName : string) :
  concurrent.runs a ls b ->
  forall c, coherent a ->
  find_coupon couponName (concurrent.store a) = Some c ->
  NoDup (map fst (calls_for couponName ls)) ->
  (forall userID, In userID (map fst (calls_for couponName ls)) ->
     has_claimed userID couponName (concurrent.store a) = false) ->
  (forall call, In call (calls_for couponName ls) -> wrapped (snd call) = false) ->
  Z.of_nat (List.length (filter won (calls_for couponName ls))) =
    Z.min (RemainingAmount c) (Z.of_nat (List.length (calls_for couponName ls))) /\
  (forall call, In call (calls_for couponName ls) -> won call = false ->
     snd call = Some ErrNoStockAvailable) /\
  exists c', find_coupon couponName (concurrent.store b) = Some c' /\
    Amount c' = Amount c /\
    RemainingAmount c' =
      RemainingAmount c -
      Z.of_nat (List.length (filter won (calls_for couponName ls))).
Proof.
  induction 1 as [a|a b z l ls Hstep Hruns IH]; intros c Ha Hc Hnd Hnew Hok.
  - pose proof (coherent_stock a couponName c Ha Hc). simpl.
    split; [lia|]. split; [intros call []|]. exists c. split; [exact Hc|].
    split; [reflexivity|lia].
  - pose proof (step_coherent a b l Hstep Ha) as Hb.
    pose proof (coherent_stock a couponName c Ha Hc) as Hbound.
    destruct (label_cases couponName l) as [(u & err & ->)|Hl].
    + rewrite calls_for_returned in *. simpl in Hnd, Hnew, Hok.
      apply NoDup_cons_iff in Hnd as [Hfresh Hnd].
      destruct (step_returned a b u couponName err c Ha Hstep Hc)
        as [(-> & Hpos & Hh & env & Hs)|(Hs & [Hw|[(-> & Hr)|(-> & _ & Hh)]])].
      * destruct (find_coupon_taken u couponName env _ c Hc)
          as (c1 & Hc1 & Hamount & Hr).
        rewrite <- Hs in Hc1.
        destruct (IH c1 Hb Hc1 Hnd) as (Hcount & Hrest & c' & Hc' & Ha' & Hr').
        { intros v Hv. rewrite Hs, has_claimed_claimed, (Hnew v (or_intror Hv)).
          destruct (String.eqb_spec u v) as [->|_]; [contradiction|reflexivity]. }
        { intros call Hin. apply Hok. now right. }
        cbn [filter won snd List.length].
        split; [lia|]. split.
        { intros call [<-|Hin] Hw; [discriminate Hw|now apply Hrest]. }
        exists c'. split; [exact Hc'|]. split; [congruence|lia].
      * pose proof (Hok (u, err) (or_introl eq_refl)) as Hw'. simpl in Hw'.
        congruence.
      * rewrite <- Hs in Hc.
        destruct (IH c Hb Hc Hnd) as (Hcount & Hrest & c' & Hc' & Ha' & Hr').
        { intros v Hv. rewrite Hs. apply Hnew. now right. }
        { intros call Hin. apply Hok. now right. }
        cbn [filter won snd List.length].
        split; [lia|]. split.
        { intros call [<-|Hin] Hw; [reflexivity|now apply Hrest]. }
        exists c'. split; [exact Hc'|]. split; [exact Ha'|lia].
      * rewrite (Hnew u (or_introl eq_refl)) in Hh. discriminate Hh.
    + rewrite (calls_for_other couponName l ls Hl) in *.
      destruct (step_other a b l couponName c Ha Hstep Hl Hc)
        as [(c1 & Hc1 & Hamount & Hr) Hsame].
      destruct (IH c1 Hb Hc1 Hnd) as (Hcount & Hrest & c' & Hc' & Ha' & Hr').
      { intros v Hv. rewrite Hsame. now apply Hnew. }
      { exact Hok. }
      split; [lia|]. split; [exact Hrest|].
      exists c'. split; [exact Hc'|]. split; [congruence|lia].
Qed.

(** Once the claimant is in the ledger of the offer, each further call of
    theirs is turned away, and the stock stays. *)
Lemma runs_after_claimed (a b : concurrent.System) (ls : list concurrent.Label)
      (userID couponName : string) :
  concurrent.runs a ls b ->
  forall c, coherent a ->
  find_coupon couponName (concurrent.store a) = Some c ->
  has_claimed userID couponName (concurrent.store a) = true ->
  (forall call, In call (calls_for couponName ls) ->
     fst call = userID /\ wrapped (snd call) = false) ->
  (forall call, In call (calls_for couponName ls) ->
     snd call = Some (if RemainingAmount c <=? 0 then ErrNoStockAvailable
                      else ErrAlreadyClaimed)) /\
  has_claimed userID couponName (concurrent.store b) = true /\
  exists c', find_coupon couponName (concurrent.store b) = Some c' /\
    Amount c' = Amount c /\ RemainingAmount c' = RemainingAmount c.
Proof.
  induction 1 as [a|a b z l ls Hstep Hruns IH]; intros c Ha Hc Hh Hok.
  - split; [intros call []|]. split; [exact Hh|]. exists c. auto.
  - pose proof (step_coherent a b l Hstep Ha) as Hb.
    destruct (label_cases couponName l) as [(u & err & ->)|Hl].
    + rewrite calls_for_returned in *.
      destruct (Hok (u, err) (or_introl eq_refl)) as [Hu Hw]. simpl in Hu, Hw.
      subst u.
      destruct (step_returned a b userID couponName err c Ha Hstep Hc)
        as [(_ & _ & Hh' & _)|(Hs & [Hw'|[(-> & Hr)|(-> & Hr & _)]])];
        [congruence|congruence|..];
        rewrite <- Hs in Hc, Hh;
        (destruct (IH c Hb Hc Hh) as (Hrest & Hh' & Hc');
         [intros call Hin; apply Hok; now right|]);
        (split; [|split; [exact Hh'|exact Hc']]);
        intros call [<-|Hin]; try (now apply Hrest); simpl.
      * now rewrite (proj2 (Z.leb_le _ _) Hr).
      * now rewrite (proj2 (Z.leb_gt _ _) Hr).
    + rewrite (calls_for_other couponName l ls Hl) in *.
      destruct (step_other a b l couponName c Ha Hstep Hl Hc)
        as [(c1 & Hc1 & Hamount & Hr) Hsame].
      rewrite <- Hsame in Hh.
      destruct (IH c1 Hb Hc1 Hh Hok) as (Hrest & Hh' & c' & Hc' & Ha' & Hr').
      rewrite Hr in Hrest.
      split; [exact Hrest|]. split; [exact Hh'|].
      exists c'. split; [exact Hc'|]. split; congruence.
Qed.

(** Calls of one claimant who has not claimed the offer, while it has
    stock: the first to return is granted, the others are turned away. *)
Lemma runs_same_caller (a b : concurrent.System) (ls : list concurrent.Label)
      (userID couponName : string) :
  concurrent.runs a ls b ->
  forall c, coherent a ->
  find_coupon couponName (concurrent.store a) = Some c ->
  0 < RemainingAmount c ->
  has_claimed userID couponName (concurrent.store a) = false ->
  (forall call, In call (calls_for couponName ls) ->
     fst call = userID /\ wrapped (snd call) = false) ->
  calls_for couponName ls <> [] ->
  exists rest,
    calls_for couponName ls = (userID, None) :: rest /\
    (forall call, In call rest ->
       snd call = Some (if RemainingAmount c <=? 1 then ErrNoStockAvailable
                        else ErrAlreadyClaimed)) /\
    has_claimed userID couponName (concurrent.store b) = true /\
    exists c', find_coupon couponName (concurrent.store b) = Some c' /\
      Amount c' = Amount c /\ RemainingAmount c' = RemainingAmount c - 1.
Proof.
  induction 1 as [a|a b z l ls Hstep Hruns IH]; intros c Ha Hc Hpos Hh Hok Hne.
  - now elim Hne.
  - pose proof (step_coherent a b l Hstep Ha) as Hb.
    destruct (label_cases couponName l) as [(u & err & ->)|Hl].
    + rewrite calls_for_returned in *.
      destruct (Hok (u, err) (or_introl eq_refl)) as [Hu Hw]. simpl in Hu, Hw.
      subst u.
      destruct (step_returned a b userID couponName err c Ha Hstep Hc)
        as [(-> & _ & _ & env & Hs)|(Hs & [Hw'|[(-> & Hr)|(-> & _ & Hh')]])];
        [|congruence|lia|congruence].
      destruct (find_coupon_taken userID couponName env _ c Hc)
        as (c1 & Hc1 & Hamount & Hr).
      rewrite <- Hs in Hc1.
      assert (has_claimed userID couponName (concurrent.store b) = true) as Hh1
        by (rewrite Hs; apply claimed_has_claimed).
      destruct (runs_after_claimed b z ls userID couponName Hruns c1 Hb Hc1 Hh1)
        as (Hrest & Hh' & c' & Hc' & Ha' & Hr').
      { intros call Hin. apply Hok. now right. }
      exists (calls_for couponName ls). split; [reflexivity|]. split.
      { intros call Hin. rewrite (Hrest call Hin), Hr.
        destruct (Z.leb_spec (RemainingAmount c - 1) 0),
                 (Z.leb_spec (RemainingAmount c) 1); try reflexivity; lia. }
      split; [exact Hh'|]. exists c'. split; [exact Hc'|]. split; congruence.
    + rewrite (calls_for_other couponName l ls Hl) in *.
      destruct (step_other a b l couponName c Ha Hstep Hl Hc)
        as [(c1 & Hc1 & Hamount & Hr) Hsame].
      rewrite <- Hsame in Hh.
      destruct (IH c1 Hb Hc1 ltac:(lia) Hh Hok Hne)
        as (rest & Hcalls & Hrest & Hh' & c' & Hc' & Ha' & Hr').
      exists rest. split; [exact Hcalls|]. rewrite Hr in Hrest.
      split; [exact Hrest|]. split; [exact Hh'|].
      exists c'. split; [exact Hc'|]. split; congruence.
Qed.

(** Calls made one at a time are a run of the interleaved system. *)
Lemma runs_in_turn (couponName : string) (callers : list (Z * string)) :
  forall (db : Store) (c : Coupon),
  find_coupon couponName db = Some c ->
  concurrent.runs (concurrent.mkSystem db [])
                  (fst (in_turn couponName callers db))
                  (concurrent.mkSystem (snd (in_turn couponName callers db)) []).
Proof.
  induction callers as [|[t userID] rest IH]; intros db c Hc; simpl.
  - constructor.
  - pose proof (ClaimCoupon_by_steps userID couponName (healthy t) db eq_refl)
      as Hclaim.
    rewrite claim_locked_read_unfold, Hc in Hclaim. simpl in Hclaim.
    pose proof (ClaimCoupon_store userID couponName (healthy t) db) as Hstore.
    set (x := concurrent.mkSession userID couponName (healthy t) None) in *.
    destruct (ClaimCoupon userID couponName (healthy t) db) as [err db'].
    simpl in Hstore.
    assert (exists c', find_coupon couponName db' = Some c') as [c' Hc'].
    { destruct err; subst db'; [eauto|].
      rewrite find_coupon_claimed, Hc. simpl. eauto. }
    specialize (IH db' c' Hc').
    destruct (in_turn couponName rest db') as [ls db'']. simpl in *.
    eapply concurrent.runs_step;
      [exact (concurrent.step_begin userID couponName (healthy t) db [] eq_refl)|].
    eapply concurrent.runs_step.
    { apply (concurrent.step_lock x (RemainingAmount c) db [] []);
        [reflexivity|intros []|].
      rewrite claim_locked_read_unfold. simpl. now rewrite Hc. }
    eapply concurrent.runs_step; [|exact IH].
    pose proof (concurrent.step_finish
                  (concurrent.locked_on (RemainingAmount c) x)
                  (RemainingAmount c) db [] [] eq_refl) as Hfin.
    change (concurrent.finish (concurrent.locked_on (RemainingAmount c) x)
              (RemainingAmount c) db)
      with (concurrent.finish x (RemainingAmount c) db) in Hfin.
    rewrite <- Hclaim in Hfin. exact Hfin.
Qed.





(** ** The scenarios of scripts/run_scenarios.go *)

Lemma handle_create_fresh (name : string) (amount : Z) (env : Env) (db : Store) :
  name <> "" -> 0 < amount -> fails env CreateExec = false ->
  find_coupon name db = None ->
  rest.handle couponRepository (PostCoupon (mkCreateCouponRequest name amount))
              env db =
  (rest.respond 201, created name amount env db).
Proof.
  intros Hn Ha Hx Hf. unfold rest.handle, rest.CreateCoupon, service.CreateCoupon.
  simpl. destruct (String.eqb_spec name "") as [|_]; [contradiction|].
  destruct (Z.leb_spec amount 0); [lia|].
  rewrite CreateCoupon_unfold, Hx, find_existsb. fold (find_coupon name db).
  now rewrite Hf.
Qed.

Lemma handle_get_found (name : string) (env : Env) (db : Store) (c : Coupon) :
  name <> "" ->
  fails env GetQueryRow = false -> fails env GetQuery = false ->
  fails env GetScan = false -> fails env GetRowsErr = false ->
  find_coupon name db = Some c ->
  rest.handle couponRepository (GetCoupon name) env db =
  (rest.mkResponse 200
     (Some (mkCouponDetailResponse (Name c) (Amount c) (RemainingAmount c)
              (select_claimants name db))) None, db).
Proof.
  intros Hn H1 H2 H3 H4 Hc.
  unfold rest.handle, rest.GetCouponDetails, service.GetCouponDetails. simpl.
  destruct (String.eqb_spec name "") as [|_]; [contradiction|].
  now rewrite (GetCouponByName_healthy name env db c H1 H2 H3 H4 Hc).
Qed.

Lemma created_find (name : string) (amount : Z) (env : Env) (db : Store) :
  find_coupon name db = None ->
  find_coupon name (created name amount env db) =
  Some (mkCoupon name amount amount (now env) (now env)).
Proof.
  intros Hf. destruct db as [cs ks]. unfold created; simpl.
  rewrite find_coupon_app, Hf. unfold named; simpl.
  now rewrite String.eqb_refl.
Qed.

Lemma no_claims_has_claimed (userID couponName : string) (db : Store) :
  existsb (claimed_for couponName) (claims db) = false ->
  has_claimed userID couponName db = false.
Proof.
  unfold has_claimed. induction (claims db) as [|k ks IH]; simpl; [reflexivity|].
  intros [Hk Hks]%orb_false_iff. rewrite (IH Hks), orb_false_r.
  unfold claim_of. unfold claimed_for in Hk. now rewrite Hk, andb_false_r.
Qed.

(** The handler answers 200 or 201 exactly to the calls that returned nil. *)
Lemma succeeded_answered (userID couponName : string) (err : option error) :
  userID <> "" -> couponName <> "" ->
  run_scenarios.succeeded (answered userID couponName err) = won (userID, err).
Proof.
  intros Hu Hn. unfold answered, rest.ClaimCoupon, service.ClaimCoupon. simpl.
  destruct (String.eqb_spec userID "") as [|_]; [contradiction|].
  destruct (String.eqb_spec couponName "") as [|_]; [contradiction|].
  now destruct err as [[]|].
Qed.

Lemma count_answered (couponName : string) (calls : list (string * option error)) :
  couponName <> "" -> (forall call, In call calls -> fst call <> "") ->
  run_scenarios.successCount
    (map (fun call => answered (fst call) couponName (snd call)) calls) =
    Z.of_nat (List.length (filter won calls)) /\
  run_scenarios.failureCount
    (map (fun call => answered (fst call) couponName (snd call)) calls) =
    Z.of_nat (List.length calls) - Z.of_nat (List.length (filter won calls)).
Proof.
  intros Hn. unfold run_scenarios.successCount, run_scenarios.failureCount,
               count_rows.
  induction calls as [|[u err] calls IH]; intros Hu; [split; reflexivity|].
  destruct IH as [IHs IHf]; [intros call Hin; apply Hu; now right|].
  cbn [map filter fst snd].
  rewrite (succeeded_answered u couponName err (Hu (u, err) (or_introl eq_refl)) Hn).
  destruct (won (u, err)); cbn [negb List.length]; split; lia.
Qed.

Lemma userID_not_empty (userIDs : list string) (n : nat) :
  Permutation userIDs (map run_scenarios.userID (seq 0 n)) ->
  forall u, In u userIDs -> u <> "".
Proof.
  intros Hperm u Hin.
  apply (Permutation_in _ Hperm), in_map_iff in Hin as (i & <- & _).
  discriminate.
Qed.

Lemma described_length (couponName : string) (db : Store) (c : Coupon) :
  consistent db -> find_coupon couponName db = Some c ->
  Z.of_nat (List.length (select_claimants couponName db)) =
  Amount c - RemainingAmount c.
Proof.
  intros Hdb Hc.
  rewrite <- (stock_accounts _ Hdb c (find_coupon_In _ _ _ Hc)),
    (find_coupon_named _ _ _ Hc).
  unfold count_rows, select_claimants. rewrite length_map.
  now rewrite (Permutation_length (order_by_claimed_at_perm _)).
Qed.

Lemma created_coherent (db : Store) (xs : list concurrent.Session)
      (req : CreateCouponRequest) (env : Env) :
  concurrent.reachable (concurrent.mkSystem db xs) ->
  concurrent.reachable (concurrent.mkSystem (serve (PostCoupon req) env db) xs).
Proof.
  intros Hreach. eapply concurrent.reach_step; [exact Hreach|].
  apply concurrent.step_serve; [intros r|intros name]; discriminate.
Qed.

Lemma userID_injective (i j : nat) :
  run_scenarios.userID i = run_scenarios.userID j -> i = j.
Proof.
  unfold run_scenarios.userID. simpl. intros [= H].
  apply (f_equal NilEmpty.uint_of_string) in H.
  rewrite !NilEmpty.usu in H. injection H as H.
  apply (f_equal Nat.of_uint) in H. now rewrite !Unsigned.of_to in H.
Qed.

Lemma userIDs_distinct (n : nat) : NoDup (map run_scenarios.userID (seq 0 n)).
Proof.
  generalize 0%nat. induction n as [|n IH]; intros start; simpl; constructor.
  - intros (j & Heq%userID_injective & Hin%in_seq)%in_map_iff. lia.
  - apply IH.
Qed.

Lemma count_once (u : string) (l : list string) :
  NoDup l -> In u l -> count_rows (fun v => String.eqb v u) l = 1.
Proof.
  unfold count_rows. induction 1 as [|v l Hv Hl IH]; intros Hin; [elim Hin|].
  simpl. destruct (String.eqb_spec v u) as [->|Hne].
  - assert (filter (fun v => String.eqb v u) l = []) as ->; [|reflexivity].
    apply filter_none. destruct (existsb _ l) eqn:Hex; [|reflexivity].
    apply existsb_exists in Hex as (w & Hw & ->%String.eqb_eq). contradiction.
  - destruct Hin as [Heq|Hin]; [contradiction|]. now apply IH.
Qed.

Lemma created_serve (name : string) (amount : Z) (env : Env) (db : Store) :
  name <> "" -> 0 < amount -> fails env CreateExec = false ->
  find_coupon name db = None ->
  serve (PostCoupon (mkCreateCouponRequest name amount)) env db =
  created name amount env db.
Proof.
  intros Hn Ha Hx Hf. unfold serve.
  now rewrite (handle_create_fresh name amount env db Hn Ha Hx Hf).
Qed.

Lemma created_unclaimed (userID name : string) (amount : Z) (env : Env)
      (db : Store) :
  consistent db -> find_coupon name db = None ->
  has_claimed userID name (created name amount env db) = false.
Proof.
  intros Hdb Hf. apply no_claims_has_claimed. unfold created; simpl.
  apply (no_claims_for_absent name db Hdb).
  rewrite find_existsb. fold (find_coupon name db). now rewrite Hf.
Qed.

(** The flash-sale scenario passes under every interleaving: on a server
    where the offer does not exist yet, where no other client claims it
    meanwhile and no call meets an infrastructure failure, the fifty claims
    may be served in any interleaving and the scenario reports success. *)
Theorem flash_sale_scenario_passes
        (db : Store) (xs : list concurrent.Session) (env env' : Env)
        (ls : list concurrent.Label) (b : concurrent.System) :
  concurrent.reachable (concurrent.mkSystem db xs) ->
  find_coupon run_scenarios.flashSaleCoupon db = None ->
  fails env CreateExec = false ->
  concurrent.runs
    (concurrent.mkSystem
       (serve (PostCoupon (mkCreateCouponRequest run_scenarios.flashSaleCoupon
                             run_scenarios.flashSaleStock)) env db) xs)
    ls b ->
  Permutation (map fst (calls_for run_scenarios.flashSaleCoupon ls))
              (map run_scenarios.userID
                   (seq 0 (Z.to_nat run_scenarios.concurrentFlash))) ->
  (forall call, In call (calls_for run_scenarios.flashSaleCoupon ls) ->
     wrapped (snd call) = false) ->
  fails env' GetQueryRow = false -> fails env' GetQuery = false ->
  fails env' GetScan = false -> fails env' GetRowsErr = false ->
  run_scenarios.runFlashSaleScenario
    (run_scenarios.mkObserved
       (Some (rest.status
                (fst (rest.handle couponRepository
                        (PostCoupon (mkCreateCouponRequest
                                       run_scenarios.flashSaleCoupon
                                       run_scenarios.flashSaleStock)) env db))))
       (map (fun call => answered (fst call) run_scenarios.flashSaleCoupon (snd call))
            (calls_for run_scenarios.flashSaleCoupon ls))
       (Some (fst (rest.handle couponRepository
                     (GetCoupon run_scenarios.flashSaleCoupon) env'
                     (concurrent.store b))))) = true.
Proof.
  intros Hreach Hf Hx Hruns Hperm Hok H1 H2 H3 H4.
  assert (run_scenarios.flashSaleCoupon <> "") as Hname by discriminate.
  pose proof (store_consistent _ (reachable_coherent _ Hreach)) as Hdb.
  simpl in Hdb.
  pose proof (created_coherent db xs
                (mkCreateCouponRequest run_scenarios.flashSaleCoupon
                   run_scenarios.flashSaleStock) env Hreach) as Hreach1.
  rewrite (handle_create_fresh run_scenarios.flashSaleCoupon
             run_scenarios.flashSaleStock env db Hname eq_refl Hx Hf).
  rewrite (created_serve run_scenarios.flashSaleCoupon
             run_scenarios.flashSaleStock env db Hname eq_refl Hx Hf)
    in Hruns, Hreach1.
  pose proof (reachable_coherent _ (runs_reachable _ _ _ Hruns Hreach1)) as Hb.
  destruct (runs_distinct_calls _ b ls run_scenarios.flashSaleCoupon Hruns _
              (reachable_coherent _ Hreach1)
              (created_find _ run_scenarios.flashSaleStock env db Hf))
    as (Hcount & _ & c' & Hc' & Ha' & Hr').
  { apply (Permutation_NoDup (Permutation_sym Hperm)), userIDs_distinct. }
  { intros u _. now apply created_unclaimed. }
  { exact Hok. }
  pose proof (Permutation_length Hperm) as Hlen.
  rewrite !length_map, length_seq in Hlen.
  destruct (count_answered run_scenarios.flashSaleCoupon
              (calls_for run_scenarios.flashSaleCoupon ls) Hname)
    as [Hs Hfail].
  { intros call Hin. apply (userID_not_empty _ _ Hperm), in_map, Hin. }
  rewrite (handle_get_found _ env' _ c' Hname H1 H2 H3 H4 Hc').
  unfold run_scenarios.runFlashSaleScenario, run_scenarios.getCouponDetails.
  cbn [run_scenarios.createStatus run_scenarios.claimStatuses
       run_scenarios.finalRead run_scenarios.createCoupon rest.respond
       rest.status rest.details fst negb Z.eqb Pos.eqb
       respRemainingAmount respClaimedBy].
  rewrite Hs, Hfail, (described_length _ _ c' (store_consistent _ Hb) Hc').
  rewrite Hlen in *. cbn [RemainingAmount Amount] in Hcount, Ha', Hr'.
  unfold run_scenarios.concurrentFlash, run_scenarios.flashSaleStock in *.
  repeat (apply andb_true_intro; split); apply Z.eqb_eq; lia.
Qed.

Lemma flash_sale_scenario_passes_witness :
  run_scenarios.runFlashSaleScenario
    (run_scenarios.mkObserved
       (Some (rest.status
                (fst (rest.handle couponRepository
                        (PostCoupon (mkCreateCouponRequest
                                       run_scenarios.flashSaleCoupon
                                       run_scenarios.flashSaleStock))
                        (healthy 1) empty))))
       (map (fun call => answered (fst call) run_scenarios.flashSaleCoupon (snd call))
            (calls_for run_scenarios.flashSaleCoupon (fst flash_sale_in_turn)))
       (Some (fst (rest.handle couponRepository
                     (GetCoupon run_scenarios.flashSaleCoupon) (healthy 60)
                     (snd flash_sale_in_turn))))) = true.
Proof.
  apply (flash_sale_scenario_passes empty [] (healthy 1) (healthy 60)
           (fst flash_sale_in_turn)
           (concurrent.mkSystem (snd flash_sale_in_turn) []));
    try reflexivity.
  - exact concurrent.reach_start.
  - exact (runs_in_turn run_scenarios.flashSaleCoupon _ flash_sale_offer _ eq_refl).
  - apply Forall_forall. vm_compute. repeat constructor.
Defined.

Lemma filter_won_none (err : error) (calls : list (string * option error)) :
  (forall call, In call calls -> snd call = Some err) -> filter won calls = [].
Proof.
  intros Hall. apply filter_none.
  destruct (existsb won calls) eqn:Hex; [|reflexivity].
  apply existsb_exists in Hex as (call & Hin & Hwon).
  unfold won in Hwon. now rewrite (Hall call Hin) in Hwon.
Qed.

(** The double-dip scenario passes under every interleaving: on a server
    where the offer does not exist yet, where no other client claims it
    meanwhile and no call meets an infrastructure failure, the ten claims
    of the one user may be served in any interleaving and the scenario
    reports success. *)
Theorem double_dip_scenario_passes
        (db : Store) (xs : list concurrent.Session) (env env' : Env)
        (ls : list concurrent.Label) (b : concurrent.System) :
  concurrent.reachable (concurrent.mkSystem db xs) ->
  find_coupon run_scenarios.doubleDipCoupon db = None ->
  fails env CreateExec = false ->
  concurrent.runs
    (concurrent.mkSystem
       (serve (PostCoupon (mkCreateCouponRequest run_scenarios.doubleDipCoupon 100))
              env db) xs)
    ls b ->
  map fst (calls_for run_scenarios.doubleDipCoupon ls) =
    repeat run_scenarios.sameUserID (Z.to_nat run_scenarios.concurrentDoubleDip) ->
  (forall call, In call (calls_for run_scenarios.doubleDipCoupon ls) ->
     wrapped (snd call) = false) ->
  fails env' GetQueryRow = false -> fails env' GetQuery = false ->
  fails env' GetScan = false -> fails env' GetRowsErr = false ->
  run_scenarios.runDoubleDipScenario
    (run_scenarios.mkObserved
       (Some (rest.status
                (fst (rest.handle couponRepository
                        (PostCoupon (mkCreateCouponRequest
                                       run_scenarios.doubleDipCoupon 100))
                        env db))))
       (map (fun call => answered (fst call) run_scenarios.doubleDipCoupon (snd call))
            (calls_for run_scenarios.doubleDipCoupon ls))
       (Some (fst (rest.handle couponRepository
                     (GetCoupon run_scenarios.doubleDipCoupon) env'
                     (concurrent.store b))))) = true.
Proof.
  intros Hreach Hf Hx Hruns Hcallers Hok H1 H2 H3 H4.
  assert (run_scenarios.doubleDipCoupon <> "") as Hname by discriminate.
  pose proof (store_consistent _ (reachable_coherent _ Hreach)) as Hdb.
  simpl in Hdb.
  pose proof (created_coherent db xs
                (mkCreateCouponRequest run_scenarios.doubleDipCoupon 100)
                env Hreach) as Hreach1.
  rewrite (handle_create_fresh run_scenarios.doubleDipCoupon 100 env db
             Hname eq_refl Hx Hf).
  rewrite (created_serve run_scenarios.doubleDipCoupon 100 env db
             Hname eq_refl Hx Hf) in Hruns, Hreach1.
  pose proof (reachable_coherent _ (runs_reachable _ _ _ Hruns Hreach1)) as Hb.
  assert (forall call, In call (calls_for run_scenarios.doubleDipCoupon ls) ->
            fst call = run_scenarios.sameUserID) as Hsame.
  { intros call Hin. apply (in_map fst) in Hin. rewrite Hcallers in Hin.
    exact (repeat_spec _ _ _ Hin). }
  destruct (runs_same_caller _ b ls run_scenarios.sameUserID
              run_scenarios.doubleDipCoupon Hruns _
              (reachable_coherent _ Hreach1)
              (created_find _ 100 env db Hf) eq_refl)
    as (rest & Hcalls & Hrest & Hh & c' & Hc' & Ha' & Hr').
  { now apply created_unclaimed. }
  { intros call Hin. split; [now apply Hsame|now apply Hok]. }
  { intros Hnil. rewrite Hnil in Hcallers. discriminate Hcallers. }
  pose proof (f_equal (@List.length string) Hcallers) as Hlen.
  rewrite length_map, repeat_length in Hlen.
  destruct (count_answered run_scenarios.doubleDipCoupon
              (calls_for run_scenarios.doubleDipCoupon ls) Hname)
    as [Hs Hfail].
  { intros call Hin. rewrite (Hsame call Hin). discriminate. }
  rewrite (handle_get_found _ env' _ c' Hname H1 H2 H3 H4 Hc').
  unfold run_scenarios.runDoubleDipScenario, run_scenarios.getCouponDetails.
  cbn [run_scenarios.createStatus run_scenarios.claimStatuses
       run_scenarios.finalRead run_scenarios.createCoupon rest.respond
       rest.status rest.details fst negb Z.eqb Pos.eqb
       respRemainingAmount respClaimedBy].
  rewrite Hs, Hfail, Hlen, Hcalls. cbn [filter won snd].
  rewrite (filter_won_none _ rest Hrest).
  rewrite (count_once run_scenarios.sameUserID).
  - cbn [RemainingAmount] in Hr'. rewrite Hr'. reflexivity.
  - apply (Permutation_NoDup (Permutation_sym (select_claimants_perm _ _))).
    apply distinct_claimants, (unique_claims _ (store_consistent _ Hb)).
  - apply (Permutation_in _ (Permutation_sym (select_claimants_perm _ _))).
    now apply claimants_has_claimed.
Qed.

Lemma double_dip_scenario_passes_witness :
  run_scenarios.runDoubleDipScenario
    (run_scenarios.mkObserved
       (Some (rest.status
                (fst (rest.handle couponRepository
                        (PostCoupon (mkCreateCouponRequest
                                       run_scenarios.doubleDipCoupon 100))
                        (healthy 1) empty))))
       (map (fun call => answered (fst call) run_scenarios.doubleDipCoupon (snd call))
            (calls_for run_scenarios.doubleDipCoupon (fst double_dip_in_turn)))
       (Some (fst (rest.handle couponRepository
                     (GetCoupon run_scenarios.doubleDipCoupon) (healthy 60)
                     (snd double_dip_in_turn))))) = true.
Proof.
  apply (double_dip_scenario_passes empty [] (healthy 1) (healthy 60)
           (fst double_dip_in_turn)
           (concurrent.mkSystem (snd double_dip_in_turn) []));
    try reflexivity.
  - exact concurrent.reach_start.
  - exact (runs_in_turn run_scenarios.doubleDipCoupon _ double_dip_offer _ eq_refl).
  - apply Forall_forall. vm_compute. repeat constructor.
Defined.

(** ** Answers and the store *)

Lemma untimed_name (c : Coupon) : Name (untimed c) = Name c.
Proof. reflexivity. Qed.

Lemma alike_refl (db : Store) : alike db db.
Proof. now split. Qed.

Lemma alike_find (name : string) (db1 db2 : Store) :
  alike db1 db2 ->
  option_map untimed (find_coupon name db1) =
  option_map untimed (find_coupon name db2).
Proof.
  intros [Hc _]. unfold find_coupon.
  rewrite <- (find_map untimed untimed_name name (coupons db1)), Hc.
  apply find_map, untimed_name.
Qed.

Lemma alike_exists (name : string) (db1 db2 : Store) :
  alike db1 db2 ->
  existsb (named name) (coupons db1) = existsb (named name) (coupons db2).
Proof.
  intros [Hc _].
  rewrite <- (existsb_map untimed untimed_name name (coupons db1)), Hc.
  apply existsb_map, untimed_name.
Qed.

Lemma count_named_map (f : Coupon -> Coupon) (name : string) (l : list Coupon) :
  (forall c, Name (f c) = Name c) ->
  count_rows (named name) (map f l) = count_rows (named name) l.
Proof.
  intros Hf. unfold count_rows. f_equal.
  induction l as [|c l IH]; simpl; [reflexivity|].
  rewrite (named_map f Hf). destruct (named name c); simpl; now rewrite IH.
Qed.

Lemma alike_count (name : string) (db1 db2 : Store) :
  alike db1 db2 ->
  count_rows (named name) (coupons db1) = count_rows (named name) (coupons db2).
Proof.
  intros [Hc _].
  rewrite <- (count_named_map untimed name (coupons db1) untimed_name), Hc.
  apply count_named_map, untimed_name.
Qed.

Lemma alike_created (name : string) (amount : Z) (env : Env) (db1 db2 : Store) :
  alike db1 db2 ->
  alike (created name amount env db1) (created name amount env db2).
Proof.
  intros [Hc Hk]. split; simpl; [|exact Hk]. now rewrite !map_app, Hc.
Qed.

Lemma untimed_take_one (env : Env) (name : string) (c : Coupon) :
  untimed (take_one env name c) = take_one (healthy 0) name (untimed c).
Proof.
  unfold take_one, named. simpl. now destruct (String.eqb (Name c) name).
Qed.

Lemma alike_claimed (userID couponName : string) (env : Env) (db1 db2 : Store) :
  alike db1 db2 ->
  alike (claimed userID couponName env db1) (claimed userID couponName env db2).
Proof.
  intros [Hc Hk]. split; simpl; [|now rewrite Hk].
  assert (forall l,
            map untimed (map (take_one env couponName) l) =
            map (take_one (healthy 0) couponName) (map untimed l)) as Hmap.
  { intros l. rewrite !map_map. apply map_ext, untimed_take_one. }
  now rewrite !Hmap, Hc.
Qed.

Lemma untimed_touch (env : Env) (name : string) (c : Coupon) :
  untimed (touch env name c) = untimed c.
Proof. unfold touch. now destruct (named name c). Qed.

Lemma alike_touched_left (name : string) (env : Env) (db1 db2 : Store) :
  alike db1 db2 -> alike (touched name env db1) db2.
Proof.
  intros [Hc Hk]. split; simpl; [|exact Hk].
  rewrite map_map, (map_ext _ _ (untimed_touch env name)). exact Hc.
Qed.

Lemma alike_sym (db1 db2 : Store) : alike db1 db2 -> alike db2 db1.
Proof. intros [Hc Hk]. now split. Qed.

Lemma alike_touched (name : string) (env : Env) (db1 db2 : Store) :
  alike db1 db2 -> alike (touched name env db1) (touched name env db2).
Proof.
  intros H. now apply alike_touched_left, alike_sym, alike_touched_left, alike_sym.
Qed.

Lemma alike_handle (r : Request) (env : Env) (db1 db2 : Store) :
  alike db1 db2 ->
  fst (rest.handle couponRepository r env db1) =
    fst (rest.handle couponRepository r env db2) /\
  alike (serve r env db1) (serve r env db2).
Proof.
  intros Halike. unfold serve.
  pose proof Halike as [Hc Hk].
  destruct r as [req|req|name|name]; unfold rest.handle.
  - unfold rest.CreateCoupon, service.CreateCoupon.
    destruct (String.eqb (reqName req) ""); [now split|].
    destruct (reqAmount req <=? 0); [now split|].
    cbn [repoCreateCoupon couponRepository]. rewrite !CreateCoupon_unfold.
    rewrite <- (alike_exists (reqName req) db1 db2 Halike).
    destruct (fails env CreateExec); [now split|].
    destruct (existsb (named (reqName req)) (coupons db1)); [now split|].
    split; [reflexivity|]. now apply alike_created.
  - unfold rest.ClaimCoupon, service.ClaimCoupon.
    destruct (String.eqb (reqUserID req) ""); [now split|].
    destruct (String.eqb (reqCouponName req) ""); [now split|].
    cbn [repoClaimCoupon couponRepository]. rewrite !ClaimCoupon_unfold.
    destruct (fails env ClaimBegin); [now split|].
    destruct (fails env ClaimQueryRow); [now split|].
    pose proof (alike_find (reqCouponName req) db1 db2 Halike) as Hfind.
    unfold has_claimed. rewrite <- Hk.
    destruct (find_coupon (reqCouponName req) db1) as [c1|],
             (find_coupon (reqCouponName req) db2) as [c2|];
      try discriminate Hfind; [|now split].
    injection Hfind as _ _ Hr. rewrite <- Hr.
    destruct (RemainingAmount c1 <=? 0); [now split|].
    destruct (fails env ClaimInsertExec); [now split|].
    destruct (existsb _ (claims db1)); [now split|].
    destruct (fails env ClaimUpdateExec); [now split|].
    destruct (fails env ClaimCommit); [now split|].
    split; [reflexivity|]. now apply alike_claimed.
  - unfold rest.GetCouponDetails, service.GetCouponDetails.
    destruct (String.eqb name ""); [now split|].
    cbn [repoGetCouponByName couponRepository]. rewrite !GetCouponByName_unfold.
    pose proof (alike_find name db1 db2 Halike) as Hfind.
    unfold select_claimants. rewrite <- Hk.
    destruct (fails env GetQueryRow); [now split|].
    destruct (find_coupon name db1) as [c1|], (find_coupon name db2) as [c2|];
      try discriminate Hfind; [|now split].
    injection Hfind as Hn Ha Hr. rewrite <- Hn, <- Ha, <- Hr.
    destruct (fails env GetQuery); [now split|].
    destruct (scan_rows env _ []) as [[]|claimedBy]; try now split.
  - unfold rest.UpdateCoupon, service.UpdateCoupon.
    destruct (String.eqb name ""); [now split|].
    cbn [repoUpdate couponRepository]. rewrite !Update_unfold.
    rewrite <- (alike_count name db1 db2 Halike).
    destruct (fails env UpdateExec); [now split|].
    destruct (fails env UpdateRowsAffected);
      (split; [reflexivity|now apply alike_touched]).
Qed.

Lemma alike_run (trace : Trace) :
  forall db1 db2, alike db1 db2 ->
  answers trace db1 = answers trace db2 /\
  alike (run trace db1) (run trace db2).
Proof.
  induction trace as [|[env r] trace IH]; intros db1 db2 Halike; simpl;
    [now split|].
  destruct (alike_handle r env db1 db2 Halike) as [Hresp Hnext].
  destruct (IH _ _ Hnext) as [Hanswers Hrun].
  split; [now rewrite Hresp, Hanswers|exact Hrun].
Qed.

(** No answer depends on [created_at] or [updated_at] of an offer: two
    stores that differ only there give the same response to every request,
    and are left differing only there.  A touch, which writes nothing else,
    is therefore never seen by any later request. *)
Theorem offer_timestamps_are_never_observed
        (db1 db2 : Store) (r : Request) (env : Env) (trace : Trace) :
  alike db1 db2 ->
  fst (rest.handle couponRepository r env db1) =
    fst (rest.handle couponRepository r env db2) /\
  alike (serve r env db1) (serve r env db2) /\
  answers trace db1 = answers trace db2 /\
  (forall name env', alike (snd (Update name env' db1)) db2).
Proof.
  intros Halike.
  destruct (alike_handle r env db1 db2 Halike) as [Hresp Hnext].
  split; [exact Hresp|]. split; [exact Hnext|].
  split; [exact (proj1 (alike_run trace db1 db2 Halike))|].
  intros name env'. rewrite Update_unfold.
  destruct (fails env' UpdateExec); [exact Halike|].
  destruct (fails env' UpdateRowsAffected); now apply alike_touched_left.
Qed.

Lemma offer_timestamps_are_never_observed_witness :
  fst (rest.handle couponRepository (GetCoupon "FLASH25") (healthy 9)
         (touched "FLASH25" (healthy 8) scenario.sold_out)) =
  fst (rest.handle couponRepository (GetCoupon "FLASH25") (healthy 9)
         scenario.sold_out).
Proof.
  apply (offer_timestamps_are_never_observed
           (touched "FLASH25" (healthy 8) scenario.sold_out) scenario.sold_out
           (GetCoupon "FLASH25") (healthy 9) []).
  split; reflexivity.
Defined.

Ltac answered_failure :=
  cbn [fst snd rest.status rest.respond];
  split; [intros Hlt; exfalso; lia|intros _; now left].

(** The status of an answer tells what the request has done to the store:
    below 400 the request was valid and its write, if it is one, is in the
    store; from 400 on the store is as it was, except that a touch whose
    [RowsAffected] fails is answered 500 after its UPDATE has been
    executed. *)
Theorem status_tells_the_effect (r : Request) (env : Env) (db : Store) :
  (rest.status (fst (rest.handle couponRepository r env db)) < 400 ->
   valid r = true /\
   serve r env db =
     match r with
     | PostCoupon req => created (reqName req) (reqAmount req) env db
     | PostClaim req => claimed (reqUserID req) (reqCouponName req) env db
     | GetCoupon _ => db
     | PutCoupon name => touched name env db
     end) /\
  (400 <= rest.status (fst (rest.handle couponRepository r env db)) ->
   serve r env db = db \/
   exists name, r = PutCoupon name /\ fails env UpdateRowsAffected = true /\
                serve r env db = touched name env db).
Proof.
  unfold serve. destruct r as [req|req|name|name]; unfold rest.handle, valid.
  - unfold rest.CreateCoupon, service.CreateCoupon.
    destruct (String.eqb (reqName req) ""); [answered_failure|].
    destruct (Z.leb_spec (reqAmount req) 0) as [|Hpos]; [answered_failure|].
    cbn [repoCreateCoupon couponRepository]. rewrite CreateCoupon_unfold.
    destruct (fails env CreateExec); [answered_failure|].
    destruct (existsb (named (reqName req)) (coupons db)); [answered_failure|].
    cbn [fst snd rest.status rest.respond negb andb].
    split; [intros _|intros Hge; exfalso; lia].
    split; [now apply Z.ltb_lt|reflexivity].
  - unfold rest.ClaimCoupon, service.ClaimCoupon.
    destruct (String.eqb (reqUserID req) ""); [answered_failure|].
    destruct (String.eqb (reqCouponName req) ""); [answered_failure|].
    cbn [repoClaimCoupon couponRepository]. rewrite ClaimCoupon_unfold.
    destruct (fails env ClaimBegin); [answered_failure|].
    destruct (fails env ClaimQueryRow); [answered_failure|].
    destruct (find_coupon (reqCouponName req) db) as [c|]; [|answered_failure].
    destruct (RemainingAmount c <=? 0); [answered_failure|].
    destruct (fails env ClaimInsertExec); [answered_failure|].
    destruct (has_claimed (reqUserID req) (reqCouponName req) db);
      [answered_failure|].
    destruct (fails env ClaimUpdateExec); [answered_failure|].
    destruct (fails env ClaimCommit); [answered_failure|].
    cbn [fst snd rest.status rest.respond negb andb].
    split; [intros _; now split|intros Hge; exfalso; lia].
  - unfold rest.GetCouponDetails, service.GetCouponDetails.
    destruct (String.eqb name ""); [answered_failure|].
    cbn [repoGetCouponByName couponRepository].
    destruct (GetCouponByName name env db) as [[]|view];
      cbn [fst snd rest.status rest.respond negb];
      (split; [intros Hlt; try (exfalso; lia); now split|intros _; now left]).
  - unfold rest.UpdateCoupon, service.UpdateCoupon.
    destruct (String.eqb name ""); [answered_failure|].
    cbn [repoUpdate couponRepository]. rewrite Update_unfold.
    destruct (fails env UpdateExec); [answered_failure|].
    destruct (fails env UpdateRowsAffected);
      cbn [fst snd rest.status rest.respond negb].
    + split; [intros Hlt; exfalso; lia|intros _; right]. now exists name.
    + split; [intros _; now split|intros Hge; exfalso; lia].
Qed.

Lemma status_tells_the_effect_witness :
  (rest.status
     (fst (rest.handle couponRepository
             (PostClaim (mkClaimCouponRequest "user_1" "FLASH25")) (healthy 2)
             scenario.last_unit)) < 400 /\
   serve (PostClaim (mkClaimCouponRequest "user_1" "FLASH25")) (healthy 2)
         scenario.last_unit =
     claimed "user_1" "FLASH25" (healthy 2) scenario.last_unit) /\
  (400 <= rest.status
            (fst (rest.handle couponRepository
                    (PostClaim (mkClaimCouponRequest "user_1" "FLASH25"))
                    (healthy 3) scenario.sold_out)) /\
   serve (PostClaim (mkClaimCouponRequest "user_1" "FLASH25")) (healthy 3)
         scenario.sold_out = scenario.sold_out).
Proof.
  split; split.
  - reflexivity.
  - apply (proj1 (status_tells_the_effect
                    (PostClaim (mkClaimCouponRequest "user_1" "FLASH25"))
                    (healthy 2) scenario.last_unit)).
    reflexivity.
  - vm_compute. discriminate.
  - destruct (proj2 (status_tells_the_effect
                       (PostClaim (mkClaimCouponRequest "user_1" "FLASH25"))
                       (healthy 3) scenario.sold_out))
      as [Hsame|(name & Hput & _)].
    + vm_compute. discriminate.
    + exact Hsame.
    + discriminate Hput.
Defined.

(** Handling a request calls the repository at most once: a valid request
    makes the one call of its route, with the fields of the request as
    arguments; an invalid one makes none. *)
Theorem requests_reach_the_repository_once
        (ret : service.MockReturns) (r : Request) (env : Env)
        (calls : list service.MockCall) :
  snd (rest.handle (service.MockCouponRepository ret) r env calls) =
  calls ++ (if valid r then [call_of r] else []).
Proof.
  destruct r as [req|req|name|name]; unfold rest.handle, valid, call_of.
  - unfold rest.CreateCoupon, service.CreateCoupon.
    destruct (String.eqb (reqName req) ""); [now rewrite app_nil_r|].
    rewrite Z.ltb_antisym. destruct (reqAmount req <=? 0);
      [now rewrite app_nil_r|reflexivity].
  - unfold rest.ClaimCoupon, service.ClaimCoupon.
    destruct (String.eqb (reqUserID req) ""); [now rewrite app_nil_r|].
    destruct (String.eqb (reqCouponName req) "");
      [now rewrite app_nil_r|reflexivity].
  - unfold rest.GetCouponDetails, service.GetCouponDetails.
    destruct (String.eqb name ""); [now rewrite app_nil_r|reflexivity].
  - unfold rest.UpdateCoupon, service.UpdateCoupon.
    destruct (String.eqb name ""); [now rewrite app_nil_r|reflexivity].
Qed.

(** ** What the handlers write and log *)

Lemma dispatch_error (log : logger.Logger) (text : logger.Text)
      (out : list logger.Entry) :
  logger.dispatch log logger.ErrorLevel text [] out =
  (logger.Returns, out ++ [logger.mkEntry logger.ErrorLevel text (logger.fields log)]).
Proof.
  unfold logger.dispatch, logger.Error, logger.write, logger.enabled. simpl.
  now rewrite app_nil_r.
Qed.

Lemma reject_served {S : Type} (Log : logger.Logger) (ctx : option logger.Logger)
      (w : pkgRest.ResponseWriter) (statusCode : Z) (logged sent : logger.Text)
      (out : list logger.Entry) (s : S) :
  handlers.reject Log ctx w statusCode logged sent out s =
  handlers.mkServed logger.Returns (pkgRest.RespondWithError w statusCode sent)
    (out ++ [logger.mkEntry logger.ErrorLevel logged
               (logger.fields (used Log ctx))]) s.
Proof.
  unfold handlers.reject, logger.Print.
  destruct ctx as [log|]; now rewrite dispatch_error.
Qed.

Ltac served_rejected :=
  rewrite reject_served; do 3 eexists;
  repeat split; try reflexivity.

Ltac served_accepted :=
  do 2 eexists; exists logger.DecodeError;
  repeat split; try reflexivity;
  cbn [handlers.log]; unfold logged_for; simpl; now rewrite app_nil_r.

(** Every handler returns after one JSON answer; an answer from 400 on
    comes with one entry at error level, any other with none. *)
Lemma ServeHTTP_served {S : Type} (repo : CouponRepository S)
      (Log : logger.Logger) (i : handlers.Incoming) (env : Env)
      (ctx : option logger.Logger) (w : pkgRest.ResponseWriter)
      (out : list logger.Entry) (s : S) :
  exists statusCode payload text,
    handlers.control (handlers.ServeHTTP repo Log i env ctx w out s) =
      logger.Returns /\
    handlers.writer (handlers.ServeHTTP repo Log i env ctx w out s) =
      pkgRest.RespondWithJSON w statusCode payload /\
    handlers.log (handlers.ServeHTTP repo Log i env ctx w out s) =
      out ++ logged_for statusCode text (used Log ctx) /\
    (statusCode, handlers.state (handlers.ServeHTTP repo Log i env ctx w out s)) =
      match handlers.decoded i with
      | Some r => (rest.status (fst (rest.handle repo r env s)),
                   snd (rest.handle repo r env s))
      | None => (match i with handlers.GetHealth => 200 | _ => 400 end, s)
      end.
Proof.
  destruct i as [[req|]|[req|]|name|name|]; cbn [handlers.ServeHTTP handlers.decoded].
  - unfold handlers.CreateCoupon, rest.handle, rest.CreateCoupon.
    destruct (service.CreateCoupon repo req env s) as [[[]|] s'];
      first [served_rejected|served_accepted].
  - unfold handlers.CreateCoupon. served_rejected.
  - unfold handlers.ClaimCoupon, rest.handle, rest.ClaimCoupon.
    destruct (service.ClaimCoupon repo req env s) as [[[]|] s'];
      first [served_rejected|served_accepted].
  - unfold handlers.ClaimCoupon. served_rejected.
  - unfold handlers.GetCouponDetails, rest.handle, rest.GetCouponDetails.
    destruct (service.GetCouponDetails repo name env s) as [[[]|d] s'];
      first [served_rejected|served_accepted].
  - unfold handlers.UpdateCoupon, rest.handle, rest.UpdateCoupon.
    destruct (service.UpdateCoupon repo name env s) as [[n [[]|]] s'];
      first [served_rejected|served_accepted].
  - unfold handlers.healthCheck. served_accepted.
Qed.


Lemma find_filter_other (key other : string) (l : list (string * string)) :
  key <> other ->
  find (fun kv => String.eqb (fst kv) key)
       (filter (fun kv => negb (String.eqb (fst kv) other)) l) =
  find (fun kv => String.eqb (fst kv) key) l.
Proof.
  intros Hne. induction l as [|[k v] l IH]; simpl; [reflexivity|].
  destruct (String.eqb_spec k other) as [->|Hk]; simpl.
  - destruct (String.eqb_spec other key) as [->|_]; [now elim Hne|exact IH].
  - now rewrite IH.
Qed.

Lemma HeaderGet_other (key : string) (w : pkgRest.ResponseWriter)
      (statusCode : Z) (payload : pkgRest.JSON) :
  key <> "Content-Type" ->
  pkgRest.HeaderGet key (pkgRest.RespondWithJSON w statusCode payload) =
  pkgRest.HeaderGet key w.
Proof.
  intros Hne. unfold pkgRest.HeaderGet, pkgRest.RespondWithJSON, pkgRest.HeaderSet.
  cbn [pkgRest.header find fst].
  destruct (String.eqb_spec "Content-Type" key) as [<-|_]; [now elim Hne|].
  now rewrite (find_filter_other key "Content-Type" _ Hne).
Qed.


(** Behind [LoggingMiddleware] every request is answered with the trace id
    in [X-Trace-ID], and all it logs carries that trace id with the method
    and the path: "Request started", then the one error entry of an answer
    from 400 on, then "Request completed".  Status and repository state
    are those of the handler alone. *)
Theorem every_request_is_traced
        (S : Type) (repo : CouponRepository S) (Log : logger.Logger)
        (i : handlers.Incoming) (env : Env) (traceID : string)
        (r : middleware.Request) (w : pkgRest.ResponseWriter)
        (out : list logger.Entry) (s : S) :
  handlers.control (api.Router repo Log i env traceID r w out s) =
    logger.Returns /\
  pkgRest.HeaderGet "X-Trace-ID"
    (handlers.writer (api.Router repo Log i env traceID r w out s)) =
    Some traceID /\
  pkgRest.code (handlers.writer (api.Router repo Log i env traceID r w out s)) =
    pkgRest.code
      (handlers.writer (handlers.ServeHTTP repo Log i env None w out s)) /\
  handlers.state (api.Router repo Log i env traceID r w out s) =
    handlers.state (handlers.ServeHTTP repo Log i env None w out s) /\
  exists statusCode text,
    pkgRest.code (handlers.writer (api.Router repo Log i env traceID r w out s)) =
      Some statusCode /\
    handlers.log (api.Router repo Log i env traceID r w out s) =
      out ++
      [logger.mkEntry logger.InfoLevel (logger.Literal "Request started")
         (api.tags Log traceID r)] ++
      logged_for statusCode text (logger.mkLogger (api.tags Log traceID r)) ++
      [logger.mkEntry logger.InfoLevel (logger.Literal "Request completed")
         (api.tags Log traceID r)].
Proof.
  unfold api.Router, middleware.LoggingMiddleware.
  set (reqLogger := logger.With Log _).
  set (w1 := pkgRest.HeaderSet "X-Trace-ID" traceID w).
  unfold logger.Info, logger.write, logger.enabled. cbn [Z.leb Z.compare
    logger.InfoLevel].
  set (out1 := out ++ _).
  destruct (ServeHTTP_served repo Log i env (Some reqLogger) w1 out1 s)
    as (statusCode & payload & text & Hctl & Hw & Hlog & Hstate).
  destruct (ServeHTTP_served repo Log i env None w out s)
    as (statusCode' & payload' & text' & _ & Hw' & _ & Hstate').
  rewrite Hctl. cbn [handlers.control handlers.writer handlers.log handlers.state].
  rewrite Hw, Hw', Hlog.
  rewrite <- Hstate' in Hstate. injection Hstate as Hcode Hs.
  split; [reflexivity|]. split.
  { rewrite HeaderGet_other by discriminate. reflexivity. }
  split; [simpl; now rewrite Hcode|]. split; [exact Hs|].
  exists statusCode, text. split; [reflexivity|].
  subst out1. unfold reqLogger, logger.With, api.tags. cbn [used logger.fields].
  now rewrite !app_nil_r, <- !app_assoc.
Qed.

(** What [logger.Print] does at each level: a debug message is dropped
    (the cores start at info level); a message at info, warn or error
    level is written once, with the fields of the logger and of the call,
    and the call returns; at fatal and panic level it is written and the
    call does not return; at any other level (such as [DPanicLevel]) it is
    written at info level.  The logger of the context is used when there is
    one, the global logger otherwise. *)
Theorem print_writes_by_level
        (Log : logger.Logger) (ctx : option logger.Logger) (lvl : Z)
        (text : logger.Text) (fs : list logger.Field) (out : list logger.Entry) :
  (lvl = logger.DebugLevel ->
   logger.Print Log ctx lvl text fs out = (logger.Returns, out)) /\
  (lvl <> logger.DebugLevel ->
   snd (logger.Print Log ctx lvl text fs out) =
     out ++ [logger.mkEntry
               (if (lvl =? logger.InfoLevel) || (lvl =? logger.WarnLevel) ||
                   (lvl =? logger.ErrorLevel) || (lvl =? logger.FatalLevel) ||
                   (lvl =? logger.PanicLevel)
                then lvl else logger.InfoLevel)
               text (logger.fields (used Log ctx) ++ fs)]) /\
  fst (logger.Print Log ctx lvl text fs out) =
    (if lvl =? logger.FatalLevel then logger.Exits
     else if lvl =? logger.PanicLevel then logger.Panics
     else logger.Returns).
Proof.
  assert (logger.Print Log ctx lvl text fs out =
          logger.dispatch (used Log ctx) lvl text fs out) as ->
    by now destruct ctx.
  unfold logger.dispatch, logger.DebugLevel, logger.InfoLevel, logger.WarnLevel,
    logger.ErrorLevel, logger.FatalLevel, logger.PanicLevel.
  split; [intros ->; reflexivity|].
  split.
  - intros Hne. destruct (Z.eqb_spec lvl (-1)) as [|_]; [contradiction|].
    destruct (Z.eqb_spec lvl 0) as [->|_]; [reflexivity|].
    destruct (Z.eqb_spec lvl 1) as [->|_]; [reflexivity|].
    destruct (Z.eqb_spec lvl 2) as [->|_]; [reflexivity|].
    destruct (Z.eqb_spec lvl 5) as [->|_]; [reflexivity|].
    destruct (Z.eqb_spec lvl 4) as [->|_]; reflexivity.
  - destruct (Z.eqb_spec lvl (-1)) as [->|_]; [reflexivity|].
    destruct (Z.eqb_spec lvl 0) as [->|_]; [reflexivity|].
    destruct (Z.eqb_spec lvl 1) as [->|_]; [reflexivity|].
    destruct (Z.eqb_spec lvl 2) as [->|_]; [reflexivity|].
    destruct (Z.eqb_spec lvl 5) as [->|_]; [reflexivity|].
    destruct (Z.eqb_spec lvl 4) as [->|_]; reflexivity.
Qed.

Lemma print_writes_by_level_witness :
  logger.Print logger.New None logger.DebugLevel (logger.Literal "probe") [] [] =
    (logger.Returns, []) /\
  snd (logger.Print logger.New None logger.DPanicLevel (logger.Literal "probe")
         [] []) =
    [logger.mkEntry logger.InfoLevel (logger.Literal "probe") []].
Proof.
  split.
  - apply (proj1 (print_writes_by_level logger.New None logger.DebugLevel
                    (logger.Literal "probe") [] [])).
    reflexivity.
  - apply (proj1 (proj2 (print_writes_by_level logger.New None
                           logger.DPanicLevel (logger.Literal "probe") [] []))).
    discriminate.
Defined.

(** ** Nothing is deleted *)

Lemma step_grows (a b : concurrent.System) (l : concurrent.Label) :
  concurrent.step a l b ->
  (exists added, claims (concurrent.store b) =
                 claims (concurrent.store a) ++ added) /\
  (exists added, map Name (coupons (concurrent.store b)) =
                 map Name (coupons (concurrent.store a)) ++ added).
Proof.
  intros Hstep.
  assert (forall db, (exists added : list Claim, claims db = claims db ++ added) /\
                     (exists added : list string,
                        map Name (coupons db) = map Name (coupons db) ++ added))
    as Hsame by (intros db; split; exists []; now rewrite app_nil_r).
  destruct Hstep as [r env db xs Hnc Hput|u n env db xs Hb
                     |u n env db xs Hb
                     |x r db xs ys Hx Hfree Hread|x e db xs ys Hx Hread
                     |x r db xs ys Hx]; simpl; auto.
  - generalize (serve_effect r env db). generalize (serve r env db).
    intros db' Heff.
    destruct Heff as [r|req Hn Ha Hf|req c Hc Hp Hh|name]; auto.
    + split; [exists []; simpl; now rewrite app_nil_r|].
      exists [reqName req]. simpl. now rewrite map_app.
    + split; [now exists [mkClaim (reqUserID req) (reqCouponName req) (now env)]|].
      exists []. simpl. rewrite app_nil_r.
      apply (names_map (take_one env (reqCouponName req))), take_one_name.
    + split; [exists []; simpl; now rewrite app_nil_r|].
      exists []. simpl. rewrite app_nil_r.
      apply (names_map (touch env name)), touch_name.
  - destruct (finish_cases x r db) as [[_ ->]|(_ & _ & ->)]; [auto|].
    split; [now eexists|].
    exists []. simpl. rewrite app_nil_r.
    apply (names_map (take_one _ _)), take_one_name.
Qed.

(** No request deletes or rewrites a row of the ledger, and no offer is
    removed or renamed: across any run of interleaved requests the ledger
    and the list of offer names only grow at their end. *)
Theorem nothing_is_ever_deleted
        (a b : concurrent.System) (ls : list concurrent.Label) :
  concurrent.runs a ls b ->
  (exists added, claims (concurrent.store b) =
                 claims (concurrent.store a) ++ added) /\
  (exists added, map Name (coupons (concurrent.store b)) =
                 map Name (coupons (concurrent.store a)) ++ added).
Proof.
  induction 1 as [a|a b c l ls Hstep Hruns [[ks IHk] [ns IHn]]].
  - split; exists []; now rewrite app_nil_r.
  - destruct (step_grows a b l Hstep) as [[ks' Hk] [ns' Hn]].
    split.
    + exists (ks' ++ ks). now rewrite IHk, Hk, app_assoc.
    + exists (ns' ++ ns). now rewrite IHn, Hn, app_assoc.
Qed.

Lemma nothing_is_ever_deleted_witness :
  exists added,
    claims (snd flash_sale_in_turn) = claims flash_sale_offer ++ added.
Proof.
  exact (proj1 (nothing_is_ever_deleted
                  (concurrent.mkSystem flash_sale_offer [])
                  (concurrent.mkSystem (snd flash_sale_in_turn) [])
                  (fst flash_sale_in_turn)
                  (runs_in_turn run_scenarios.flashSaleCoupon _
                     flash_sale_offer _ eq_refl))).
Defined.


(** ** Touching an offer that exists *)

(** When [Update] meets no infrastructure failure on a reachable store
    that has the offer, it returns one row affected with a nil error and
    sets [updated_at] of that offer to the current timestamp; it changes
    no other field of the offer, no other offer and no row of the ledger. *)
Theorem touch_refreshes_updated_at
        (name : string) (env : Env) (db : Store) (c : Coupon) :
  reachable db -> find_coupon name db = Some c ->
  fails env UpdateExec = false -> fails env UpdateRowsAffected = false ->
  Update name env db = ((1, None), touched name env db) /\
  find_coupon name (touched name env db) =
    Some (mkCoupon (Name c) (Amount c) (RemainingAmount c) (CreatedAt c)
                   (now env)) /\
  (forall other, other <> name ->
     find_coupon other (touched name env db) = find_coupon other db) /\
  claims (touched name env db) = claims db.
Proof.
  intros Hreach Hf Hx Hr. rewrite Update_unfold, Hx, Hr.
  split; [|split; [|split]].
  - rewrite count_unique; [reflexivity| |].
    + exact (unique_names db (reachable_consistent db Hreach)).
    + now apply (find_coupon_exists name db c).
  - rewrite find_coupon_touched, Hf. simpl. unfold touch.
    now rewrite (proj2 (named_true _ _) (find_coupon_named _ _ _ Hf)).
  - intros other Hne. rewrite find_coupon_touched.
    destruct (find_coupon other db) as [x|] eqn:Hx'; [simpl|reflexivity].
    unfold touch. destruct (named name x) eqn:Hn; [|reflexivity].
    apply named_true in Hn. apply find_coupon_named in Hx'. congruence.
  - reflexivity.
Qed.

Lemma touch_refreshes_updated_at_witness :
  reachable scenario.last_unit /\
  find_coupon "FLASH25" scenario.last_unit = Some (mkCoupon "FLASH25" 1 1 1 1) /\
  Update "FLASH25" (healthy 7) scenario.last_unit =
    ((1, None), mkStore [mkCoupon "FLASH25" 1 1 1 7] []).
Proof.
  split; [exact last_unit_reachable|]. split; [reflexivity|].
  exact (proj1 (touch_refreshes_updated_at "FLASH25" (healthy 7)
                  scenario.last_unit (mkCoupon "FLASH25" 1 1 1 1)
                  last_unit_reachable eq_refl eq_refl eq_refl)).
Defined.
